(** * The sequential-thinking session store

    A shallow embedding of [sequential-thinking/main.go]: the [Thought] and
    [ThinkingSession] structs, the [SessionStore] with its optimistic
    [CompareAndSwap] and its reads ([Session], [Sessions],
    [SessionSnapshot], [SessionsSnapshot]), and the handlers
    [StartThinking], [ContinueThinking], [ReviewThinking] and
    [ThinkingHistory].  Of the libraries, [url.Parse] and the JSON encoder
    are functions [ThinkingHistory] is given; [main], which registers the
    handlers with the MCP server and serves, is not modelled.

    Go pointers are kept as pointers.  The store maps a session id to a
    [*ThinkingSession]; a session holds a slice of [*Thought].  Both kinds of
    object live in a heap indexed by locations, so that sharing between the
    store and a value handed to a caller is visible in the model.  A slice
    is modelled by its contents: [clone] and [deepCopyThoughts] always build
    new backing arrays, so no two session structs ever share one. *)

From Stdlib Require Import ZArith String Ascii.
From stdpp Require Import gmap strings list fin_maps pretty.

Local Open Scope Z_scope.

(** ** Machine integers

    Go's [int] on a 64-bit target: arithmetic wraps around silently. *)

Definition min_int : Z := - 2 ^ 63.
Definition max_int : Z := 2 ^ 63 - 1.

Definition wrap (z : Z) : Z := (z + 2 ^ 63) `mod` 2 ^ 64 - 2 ^ 63.

Definition int_ok (z : Z) : Prop := min_int ≤ z ≤ max_int.

(** [len(s)] of a slice. *)
Definition len {A} (s : list A) : Z := Z.of_nat (length s).

(** ** Data model *)

(** A heap location; [*T] is a [loc], the nil pointer is a location at which
    the heap holds nothing. *)
Abbreviation loc := positive (only parsing).

(** [time.Time], as an opaque instant. *)
Abbreviation Time := Z (only parsing).

Module Thought.
Record t := mk {
  Index : Z;
  Content : string;
  Created : Time;
  Revised : bool;
  ParentIndex : option loc;   (* *int *)
}.

Definition set_Content (v : string) (x : t) : t :=
  mk (Index x) v (Created x) (Revised x) (ParentIndex x).
Definition set_Revised (v : bool) (x : t) : t :=
  mk (Index x) (Content x) (Created x) v (ParentIndex x).
End Thought.

Module ThinkingSession.
(** The struct is parameterised by what its [Thoughts] slice holds:
    pointers for the object in the heap ([obj]), thought values for the
    session read through its pointers ([val]). *)
Record t (P : Type) := mk {
  ID : string;
  Problem : string;
  Thoughts : list P;
  CurrentThought : Z;
  EstimatedTotal : Z;
  Status : string;
  Created : Time;
  LastActivity : Time;
  Branches : list string;
  Version : Z;
}.
Arguments mk {P}.
Arguments ID {P}.
Arguments Problem {P}.
Arguments Thoughts {P}.
Arguments CurrentThought {P}.
Arguments EstimatedTotal {P}.
Arguments Status {P}.
Arguments Created {P}.
Arguments LastActivity {P}.
Arguments Branches {P}.
Arguments Version {P}.

Abbreviation obj := (t loc).
Abbreviation val := (t Thought.t).

Section setters.
Context {P Q : Type}.
Definition set_Thoughts (v : list Q) (s : t P) : t Q :=
  mk (ID s) (Problem s) v (CurrentThought s) (EstimatedTotal s) (Status s)
     (Created s) (LastActivity s) (Branches s) (Version s).
Definition set_CurrentThought (v : Z) (s : t P) : t P :=
  mk (ID s) (Problem s) (Thoughts s) v (EstimatedTotal s) (Status s)
     (Created s) (LastActivity s) (Branches s) (Version s).
Definition set_EstimatedTotal (v : Z) (s : t P) : t P :=
  mk (ID s) (Problem s) (Thoughts s) (CurrentThought s) v (Status s)
     (Created s) (LastActivity s) (Branches s) (Version s).
Definition set_Status (v : string) (s : t P) : t P :=
  mk (ID s) (Problem s) (Thoughts s) (CurrentThought s) (EstimatedTotal s) v
     (Created s) (LastActivity s) (Branches s) (Version s).
Definition set_LastActivity (v : Time) (s : t P) : t P :=
  mk (ID s) (Problem s) (Thoughts s) (CurrentThought s) (EstimatedTotal s)
     (Status s) (Created s) v (Branches s) (Version s).
Definition set_Branches (v : list string) (s : t P) : t P :=
  mk (ID s) (Problem s) (Thoughts s) (CurrentThought s) (EstimatedTotal s)
     (Status s) (Created s) (LastActivity s) v (Version s).
Definition set_Version (v : Z) (s : t P) : t P :=
  mk (ID s) (Problem s) (Thoughts s) (CurrentThought s) (EstimatedTotal s)
     (Status s) (Created s) (LastActivity s) (Branches s) v.
End setters.
End ThinkingSession.

Module StartThinkingArgs.
Record t := mk {
  Problem : string;
  SessionID : string;
  EstimatedSteps : Z;
}.
End StartThinkingArgs.

Module ContinueThinkingArgs.
Record t := mk {
  SessionID : string;
  Thought : string;
  NextNeeded : option bool;   (* *bool *)
  ReviseStep : option Z;      (* *int *)
  CreateBranch : bool;
  EstimatedTotal : Z;
}.
End ContinueThinkingArgs.

(** The two errors the store and the handlers build with [fmt.Errorf]. *)
Inductive error :=
  | ErrSessionNotFound (sessionID : string)   (* "session %s not found" *)
  | ErrInvalidStep (step : Z).                (* "invalid step number: %d" *)

Definition Error (e : error) : string :=
  match e with
  | ErrSessionNotFound sessionID => "session " +:+ sessionID +:+ " not found"
  | ErrInvalidStep step => "invalid step number: " +:+ pretty step
  end.

(** ** The world a handler runs in

    The two heaps, the process-wide [store], and the two sources the code
    reads from the environment: the wall clock ([time.Now]) and the random
    text generator ([rand.Text]).  Each source is a sequence of answers and
    a count of how many were consumed. *)

Record World := mkWorld {
  thoughtObjs : gmap loc Thought.t;
  sessionObjs : gmap loc ThinkingSession.obj;
  sessions : gmap string loc;        (* store.sessions *)
  ticks : nat;
  timeline : nat → Time;
  draws : nat;
  entropy : nat → string;
}.

Definition upd_thoughtObjs (f : gmap loc Thought.t → gmap loc Thought.t) (w : World) : World :=
  mkWorld (f (thoughtObjs w)) (sessionObjs w) (sessions w)
          (ticks w) (timeline w) (draws w) (entropy w).
Definition upd_sessionObjs
    (f : gmap loc ThinkingSession.obj → gmap loc ThinkingSession.obj) (w : World) : World :=
  mkWorld (thoughtObjs w) (f (sessionObjs w)) (sessions w)
          (ticks w) (timeline w) (draws w) (entropy w).
Definition upd_sessions (f : gmap string loc → gmap string loc) (w : World) : World :=
  mkWorld (thoughtObjs w) (sessionObjs w) (f (sessions w))
          (ticks w) (timeline w) (draws w) (entropy w).
Definition tick (w : World) : World :=
  mkWorld (thoughtObjs w) (sessionObjs w) (sessions w)
          (S (ticks w)) (timeline w) (draws w) (entropy w).
Definition draw (w : World) : World :=
  mkWorld (thoughtObjs w) (sessionObjs w) (sessions w)
          (ticks w) (timeline w) (S (draws w)) (entropy w).

(** ** The monad of handler code

    A computation ends with a value and a new world, or panics (a nil
    dereference, an append past the largest slice), or runs out of the fuel
    that bounds the retry loop of [CompareAndSwap]. *)

Inductive result (A : Type) :=
  | Done (a : A) (w : World)
  | Panic
  | OutOfFuel.
Arguments Done {A}.
Arguments Panic {A}.
Arguments OutOfFuel {A}.

Definition M (A : Type) : Type := World → result A.

Definition ret {A} (a : A) : M A := λ w, Done a w.

Definition bind {A B} (m : M A) (k : A → M B) : M B :=
  λ w, match m w with
       | Done a w' => k a w'
       | Panic => Panic
       | OutOfFuel => OutOfFuel
       end.

Definition panic {A} : M A := λ _, Panic.

Notation "x <- m ;; k" := (bind m (λ x, k))
  (at level 20, m at level 99, k at level 200, only parsing).
Notation "' pat <- m ;; k" := (bind m (λ x, match x with pat => k end))
  (at level 20, pat pattern, m at level 99, k at level 200, only parsing).
Notation "m ;; k" := (bind m (λ _, k))
  (at level 100, k at level 200, right associativity, only parsing).

(** *** Primitive steps *)

(** [time.Now()] *)
Definition timeNow : M Time := λ w, Done (timeline w (ticks w)) (tick w).

(** [rand.Text()] *)
Definition randText : M string := λ w, Done (entropy w (draws w)) (draw w).

(** [&Thought{...}] *)
Definition newThought (x : Thought.t) : M loc :=
  λ w, let p := fresh (dom (thoughtObjs w)) in
       Done p (upd_thoughtObjs <[p := x]> w).

(** [*p] for [p : *Thought] *)
Definition readThought (p : loc) : M Thought.t :=
  λ w, match thoughtObjs w !! p with
       | Some x => Done x w
       | None => Panic
       end.

(** [p.f = v] for [p : *Thought] *)
Definition assignThought (p : loc) (f : Thought.t → Thought.t) : M unit :=
  λ w, match thoughtObjs w !! p with
       | Some x => Done () (upd_thoughtObjs <[p := f x]> w)
       | None => Panic
       end.

(** [&ThinkingSession{...}] *)
Definition newSession (s : ThinkingSession.obj) : M loc :=
  λ w, let p := fresh (dom (sessionObjs w)) in
       Done p (upd_sessionObjs <[p := s]> w).

(** [*p] for [p : *ThinkingSession] *)
Definition readSession (p : loc) : M ThinkingSession.obj :=
  λ w, match sessionObjs w !! p with
       | Some s => Done s w
       | None => Panic
       end.

(** [p.f = v] for [p : *ThinkingSession] *)
Definition assignSession (p : loc) (f : ThinkingSession.obj → ThinkingSession.obj) : M unit :=
  λ w, match sessionObjs w !! p with
       | Some s => Done () (upd_sessionObjs <[p := f s]> w)
       | None => Panic
       end.

(** [append(s, x)]: the runtime panics when the new length does not fit. *)
Definition append {A} (s : list A) (x : A) : M (list A) :=
  if decide (len s < max_int) then ret (s ++ [x]) else panic.

(** [gslice.Clone]: a new slice with the same elements. *)
Definition gslice_Clone {A} (s : list A) : list A := s.

(** ** The session store *)

(** [deepCopyThoughts]: a new [Thought] object per element, in order. *)
Fixpoint deepCopyThoughts (thoughts : list loc) : M (list loc) :=
  match thoughts with
  | [] => ret []
  | t :: rest =>
      t2 <- readThought t ;;
      p <- newThought t2 ;;
      thoughtsCopy <- deepCopyThoughts rest ;;
      ret (p :: thoughtsCopy)
  end.

(** [ThinkingSession.clone] *)
Definition clone (s : loc) : M loc :=
  sessionCopy <- readSession s ;;
  thoughts <- deepCopyThoughts (ThinkingSession.Thoughts sessionCopy) ;;
  let sessionCopy := ThinkingSession.set_Thoughts thoughts sessionCopy in
  let sessionCopy :=
    ThinkingSession.set_Branches (gslice_Clone (ThinkingSession.Branches sessionCopy))
                                 sessionCopy in
  newSession sessionCopy.

(** [NewSessionStore] together with an empty heap: the state of the process
    when it starts, for a given clock and random source. *)
Definition NewSessionStore (timeline : nat → Time) (entropy : nat → string) : World :=
  mkWorld ∅ ∅ ∅ 0%nat timeline 0%nat entropy.

(** [SessionStore.Session]: the pointer held by the map, and whether the
    id is present.  The reader lock brackets the map access and has no
    effect on a single caller. *)
Definition Session (id : string) : M (option loc) :=
  λ w, Done (sessions w !! id) w.

(** [SessionStore.SetSession] *)
Definition SetSession (session : loc) : M unit :=
  s <- readSession session ;;
  λ w, Done () (upd_sessions <[ThinkingSession.ID s := session]> w).

(** [SessionStore.SessionSnapshot] *)
Definition SessionSnapshot (id : string) : M (option loc) :=
  λ w, match sessions w !! id with
       | None => Done None w
       | Some session => (c <- clone session ;; ret (Some c)) w
       end.

(** [SessionStore.CompareAndSwap], one region at a time.

    [casLoad] is the region under the reader lock: look the session up, clone
    it and remember its version. *)
Definition casLoad (sessionID : string) : M (error + loc * Z) :=
  λ w, match sessions w !! sessionID with
       | None => Done (inl (ErrSessionNotFound sessionID)) w
       | Some current =>
           (sessionCopy <- clone current ;;
            cur <- readSession current ;;
            ret (inr (sessionCopy, ThinkingSession.Version cur))) w
       end.

(** What the region under the writer lock decides. *)
Inductive commit :=
  | Swapped
  | Retry
  | Gone (err : error).

(** [casCommit] is the region under the writer lock: re-read the entry,
    compare versions, and store the update with the next version. *)
Definition casCommit (sessionID : string) (oldVersion : Z) (updated : loc) : M commit :=
  λ w, match sessions w !! sessionID with
       | None => Done (Gone (ErrSessionNotFound sessionID)) w
       | Some current =>
           (cur <- readSession current ;;
            if decide (ThinkingSession.Version cur ≠ oldVersion) then ret Retry
            else
              assignSession updated (ThinkingSession.set_Version (wrap (oldVersion + 1))) ;;
              (λ w, Done () (upd_sessions <[sessionID := updated]> w)) ;;
              ret Swapped) w
       end.

(** The loop.  [updateFunc] receives the clone; next to the pointer it
    returns, [X] carries what the closure assigned to the variables it
    captured, which the caller reads only after a nil error, when they hold
    what the last call assigned.  Each turn of the [for] costs one unit of
    fuel. *)
Fixpoint CompareAndSwap {X} (fuel : nat) (sessionID : string)
    (updateFunc : loc → M (error + loc * X)) : M (error + X) :=
  match fuel with
  | O => λ _, OutOfFuel
  | S fuel =>
      r <- casLoad sessionID ;;
      match r with
      | inl err => ret (inl err)
      | inr (sessionCopy, oldVersion) =>
          u <- updateFunc sessionCopy ;;
          match u with
          | inl err => ret (inl err)
          | inr (updated, x) =>
              c <- casCommit sessionID oldVersion updated ;;
              match c with
              | Gone err => ret (inl err)
              | Retry => CompareAndSwap fuel sessionID updateFunc
              | Swapped => ret (inr x)
              end
          end
      end
  end.

(** ** The handlers *)

Definition nl : string := String "010"%char EmptyString.
(** The mark the message of a completed session opens with, byte for byte
    as the string literal of the source holds it: the seven bytes
    c3 a2, c5 93, e2 80 9c. *)
Definition check_mark : string :=
  String "195"%char (String "162"%char
    (String "197"%char (String "147"%char
      (String "226"%char (String "128"%char (String "156"%char EmptyString)))))).

(** [StartThinking]; the result is the text of the single content item. *)
Definition StartThinking (args : StartThinkingArgs.t) : M (error + string) :=
  sessionID <-
    (if decide (StartThinkingArgs.SessionID args = "") then randText
     else ret (StartThinkingArgs.SessionID args)) ;;
  let estimatedSteps :=
    if decide (StartThinkingArgs.EstimatedSteps args = 0) then 5
    else StartThinkingArgs.EstimatedSteps args in
  created <- timeNow ;;
  lastActivity <- timeNow ;;
  session <- newSession
    {| ThinkingSession.ID := sessionID;
       ThinkingSession.Problem := StartThinkingArgs.Problem args;
       ThinkingSession.Thoughts := [];
       ThinkingSession.CurrentThought := 0;
       ThinkingSession.EstimatedTotal := estimatedSteps;
       ThinkingSession.Status := "active";
       ThinkingSession.Created := created;
       ThinkingSession.LastActivity := lastActivity;
       ThinkingSession.Branches := [];
       ThinkingSession.Version := 0 |} ;;
  SetSession session ;;
  ret (inr ("Started thinking session '" +:+ sessionID +:+ "' for problem: "
            +:+ StartThinkingArgs.Problem args +:+ nl
            +:+ "Estimated steps: " +:+ pretty estimatedSteps +:+ nl
            +:+ "Ready for your first thought.")).

(** The closure of the revision path. *)
Definition reviseUpdate (args : ContinueThinkingArgs.t) (reviseStep : Z)
    (session : loc) : M (error + loc * unit) :=
  s <- readSession session ;;
  let stepIndex := wrap (reviseStep - 1) in
  if decide (stepIndex < 0 ∨ stepIndex >= len (ThinkingSession.Thoughts s)) then
    ret (inl (ErrInvalidStep reviseStep))
  else
    match ThinkingSession.Thoughts s !! Z.to_nat stepIndex with
    | None => panic
    | Some t =>
        assignThought t (Thought.set_Content (ContinueThinkingArgs.Thought args)) ;;
        assignThought t (Thought.set_Revised true) ;;
        now <- timeNow ;;
        assignSession session (ThinkingSession.set_LastActivity now) ;;
        ret (inr (session, ()))
    end.

(** The closure of the branching path; it assigns the captured [branchID]
    and [branchSession]. *)
Definition branchUpdate (args : ContinueThinkingArgs.t)
    (session : loc) : M (error + loc * (string * loc)) :=
  s <- readSession session ;;
  let branchID :=
    ContinueThinkingArgs.SessionID args +:+ "_branch_"
      +:+ pretty (wrap (len (ThinkingSession.Branches s) + 1)) in
  branches <- append (ThinkingSession.Branches s) branchID ;;
  assignSession session (ThinkingSession.set_Branches branches) ;;
  now <- timeNow ;;
  assignSession session (ThinkingSession.set_LastActivity now) ;;
  s <- readSession session ;;
  thoughtsCopy <- deepCopyThoughts (ThinkingSession.Thoughts s) ;;
  created <- timeNow ;;
  lastActivity <- timeNow ;;
  branchSession <- newSession
    {| ThinkingSession.ID := branchID;
       ThinkingSession.Problem := ThinkingSession.Problem s +:+ " (Alternative branch)";
       ThinkingSession.Thoughts := thoughtsCopy;
       ThinkingSession.CurrentThought := len (ThinkingSession.Thoughts s);
       ThinkingSession.EstimatedTotal := ThinkingSession.EstimatedTotal s;
       ThinkingSession.Status := "active";
       ThinkingSession.Created := created;
       ThinkingSession.LastActivity := lastActivity;
       ThinkingSession.Branches := [];
       ThinkingSession.Version := 0 |} ;;
  ret (inr (session, (branchID, branchSession))).

(** The closure of the append path; it assigns the captured [thoughtID],
    [progress] and [statusMsg]. *)
Definition appendUpdate (args : ContinueThinkingArgs.t)
    (session : loc) : M (error + loc * (Z * string * string)) :=
  s <- readSession session ;;
  let thoughtID := wrap (len (ThinkingSession.Thoughts s) + 1) in
  created <- timeNow ;;
  thought <- newThought
    {| Thought.Index := thoughtID;
       Thought.Content := ContinueThinkingArgs.Thought args;
       Thought.Created := created;
       Thought.Revised := false;
       Thought.ParentIndex := None |} ;;
  thoughts <- append (ThinkingSession.Thoughts s) thought ;;
  assignSession session (ThinkingSession.set_Thoughts thoughts) ;;
  assignSession session (ThinkingSession.set_CurrentThought thoughtID) ;;
  now <- timeNow ;;
  assignSession session (ThinkingSession.set_LastActivity now) ;;
  (if decide (ContinueThinkingArgs.EstimatedTotal args > 0) then
     assignSession session
       (ThinkingSession.set_EstimatedTotal (ContinueThinkingArgs.EstimatedTotal args))
   else ret ()) ;;
  (match ContinueThinkingArgs.NextNeeded args with
   | Some false => assignSession session (ThinkingSession.set_Status "completed")
   | _ => ret ()
   end) ;;
  s <- readSession session ;;
  let progress :=
    "Step " +:+ pretty thoughtID
      +:+ (if decide (ThinkingSession.EstimatedTotal s > 0)
           then " of ~" +:+ pretty (ThinkingSession.EstimatedTotal s) else "") in
  let statusMsg :=
    if decide (ThinkingSession.Status s = "completed")
    then nl +:+ check_mark +:+ " Thinking process completed!"
    else nl +:+ "Ready for next thought..." in
  ret (inr (session, (thoughtID, progress, statusMsg))).

(** [ContinueThinking]: revise, else branch, else append. *)
Definition ContinueThinking (fuel : nat) (args : ContinueThinkingArgs.t) : M (error + string) :=
  match ContinueThinkingArgs.ReviseStep args with
  | Some reviseStep =>
      r <- CompareAndSwap fuel (ContinueThinkingArgs.SessionID args)
             (reviseUpdate args reviseStep) ;;
      match r with
      | inl err => ret (inl err)
      | inr _ =>
          ret (inr ("Revised step " +:+ pretty reviseStep +:+ " in session '"
                    +:+ ContinueThinkingArgs.SessionID args +:+ "':" +:+ nl
                    +:+ ContinueThinkingArgs.Thought args))
      end
  | None =>
      if ContinueThinkingArgs.CreateBranch args then
        r <- CompareAndSwap fuel (ContinueThinkingArgs.SessionID args) (branchUpdate args) ;;
        match r with
        | inl err => ret (inl err)
        | inr (branchID, branchSession) =>
            SetSession branchSession ;;
            ret (inr ("Created branch '" +:+ branchID +:+ "' from session '"
                      +:+ ContinueThinkingArgs.SessionID args
                      +:+ "'. You can now continue thinking in either session."))
        end
      else
        r <- CompareAndSwap fuel (ContinueThinkingArgs.SessionID args) (appendUpdate args) ;;
        match r with
        | inl err => ret (inl err)
        | inr (thoughtID, progress, statusMsg) =>
            ret (inr ("Session '" +:+ ContinueThinkingArgs.SessionID args +:+ "' - "
                      +:+ progress +:+ ":" +:+ nl
                      +:+ ContinueThinkingArgs.Thought args +:+ statusMsg))
        end
  end.

(** ** Concurrent calls of [ContinueThinking]

    Every access to the map of the store is made under its lock, and
    between two locked regions a call works on objects no other call has a
    pointer to (its clone, and what it allocates).  So a call advances in
    steps, each one a locked region or the run of the update closure, and
    the steps of concurrent calls interleave in any order. *)

(** What a closure has assigned to the variables it captured. *)
Inductive captured :=
  | CapRevise
  | CapBranch (branchID : string) (branchSession : loc)
  | CapAppend (thoughtID : Z) (progress statusMsg : string).

(** The closure [ContinueThinking] passes to [CompareAndSwap], by path. *)
Definition updateOf (args : ContinueThinkingArgs.t) (session : loc)
  : M (error + loc * captured) :=
  match ContinueThinkingArgs.ReviseStep args with
  | Some reviseStep =>
      r <- reviseUpdate args reviseStep session ;;
      match r with
      | inl err => ret (inl err)
      | inr (updated, _) => ret (inr (updated, CapRevise))
      end
  | None =>
      if ContinueThinkingArgs.CreateBranch args then
        r <- branchUpdate args session ;;
        match r with
        | inl err => ret (inl err)
        | inr (updated, (branchID, branchSession)) =>
            ret (inr (updated, CapBranch branchID branchSession))
        end
      else
        r <- appendUpdate args session ;;
        match r with
        | inl err => ret (inl err)
        | inr (updated, (thoughtID, progress, statusMsg)) =>
            ret (inr (updated, CapAppend thoughtID progress statusMsg))
        end
  end.

(** The text a call returns after a nil error, by path. *)
Definition response (args : ContinueThinkingArgs.t) (x : captured) : string :=
  match x with
  | CapRevise =>
      "Revised step " +:+ pretty (default 0 (ContinueThinkingArgs.ReviseStep args))
        +:+ " in session '" +:+ ContinueThinkingArgs.SessionID args +:+ "':" +:+ nl
        +:+ ContinueThinkingArgs.Thought args
  | CapBranch branchID _ =>
      "Created branch '" +:+ branchID +:+ "' from session '"
        +:+ ContinueThinkingArgs.SessionID args
        +:+ "'. You can now continue thinking in either session."
  | CapAppend _ progress statusMsg =>
      "Session '" +:+ ContinueThinkingArgs.SessionID args +:+ "' - "
        +:+ progress +:+ ":" +:+ nl
        +:+ ContinueThinkingArgs.Thought args +:+ statusMsg
  end.

(** Where a call stands.  [oldVersion] is the local variable of
    [CompareAndSwap]; the two final states keep what the call returns, and
    a success also the [oldVersion] of the round that committed, that is,
    the baseline the call observed. *)
Inductive pc :=
  | AtLoad
  | AtUpdate (sessionCopy : loc) (oldVersion : Z)
  | AtCommit (updated : loc) (oldVersion : Z) (x : captured)
  | AtSetSession (oldVersion : Z) (branchID : string) (branchSession : loc)
  | Failed (err : error)
  | Succeeded (text : string) (oldVersion : Z).

(** One step of a call. *)
Definition step (args : ContinueThinkingArgs.t) (st : pc) : M pc :=
  match st with
  | AtLoad =>
      r <- casLoad (ContinueThinkingArgs.SessionID args) ;;
      match r with
      | inl err => ret (Failed err)
      | inr (sessionCopy, oldVersion) => ret (AtUpdate sessionCopy oldVersion)
      end
  | AtUpdate sessionCopy oldVersion =>
      u <- updateOf args sessionCopy ;;
      match u with
      | inl err => ret (Failed err)
      | inr (updated, x) => ret (AtCommit updated oldVersion x)
      end
  | AtCommit updated oldVersion x =>
      c <- casCommit (ContinueThinkingArgs.SessionID args) oldVersion updated ;;
      match c with
      | Gone err => ret (Failed err)
      | Retry => ret AtLoad
      | Swapped =>
          match x with
          | CapBranch branchID branchSession =>
              ret (AtSetSession oldVersion branchID branchSession)
          | _ => ret (Succeeded (response args x) oldVersion)
          end
      end
  | AtSetSession oldVersion branchID branchSession =>
      SetSession branchSession ;;
      ret (Succeeded (response args (CapBranch branchID branchSession)) oldVersion)
  | Failed err => ret (Failed err)
  | Succeeded text oldVersion => ret (Succeeded text oldVersion)
  end.

(** [n] steps of one call, with no other call in between. *)
Fixpoint steps (n : nat) (args : ContinueThinkingArgs.t) (st : pc) : M pc :=
  match n with
  | O => ret st
  | S n => st' <- step args st ;; steps n args st'
  end.

(** The calls in flight, over one world. *)
Record Config := mkConfig {
  world : World;
  calls : list (ContinueThinkingArgs.t * pc);
}.

(** The [i]-th call takes a step; [None] when that step panics. *)
Definition schedule1 (i : nat) (cfg : Config) : option Config :=
  match calls cfg !! i with
  | None => Some cfg
  | Some (args, st) =>
      match step args st (world cfg) with
      | Done st' w' => Some (mkConfig w' (<[i := (args, st')]> (calls cfg)))
      | _ => None
      end
  end.

(** The calls step in the order the schedule gives. *)
Fixpoint schedule (order : list nat) (cfg : Config) : option Config :=
  match order with
  | [] => Some cfg
  | i :: order =>
      match schedule1 i cfg with
      | Some cfg' => schedule order cfg'
      | None => None
      end
  end.

(** All calls about to start. *)
Definition spawn (w : World) (argss : list ContinueThinkingArgs.t) : Config :=
  mkConfig w ((λ args, (args, AtLoad)) <$> argss).

(** The baseline of a call whose [CompareAndSwap] has returned nil. *)
Definition baseline (st : pc) : option Z :=
  match st with
  | AtSetSession oldVersion _ _ => Some oldVersion
  | Succeeded _ oldVersion => Some oldVersion
  | _ => None
  end.

Definition committed (cfg : Config) : list Z :=
  omap (λ c, baseline c.2) (calls cfg).

(** The baselines of the calls that have returned a success. *)
Definition successes (cfg : Config) : list Z :=
  omap (λ c, match c.2 with Succeeded _ oldVersion => Some oldVersion | _ => None end)
       (calls cfg).

Definition returned (st : pc) : Prop :=
  match st with
  | Failed _ | Succeeded _ _ => True
  | _ => False
  end.

(** The version of the session the store holds under [id]. *)
Definition storedVersion (w : World) (id : string) : option Z :=
  p ← sessions w !! id; s ← sessionObjs w !! p; Some (ThinkingSession.Version s).

(** The session objects only this call has a pointer to. *)
Definition private (st : pc) : list loc :=
  match st with
  | AtUpdate sessionCopy _ => [sessionCopy]
  | AtCommit updated _ (CapBranch _ branchSession) => [updated; branchSession]
  | AtCommit updated _ _ => [updated]
  | AtSetSession _ _ branchSession => [branchSession]
  | _ => []
  end.

(** The branch session a call has built and not yet registered. *)
Definition pending (st : pc) : option loc :=
  match st with
  | AtCommit _ _ (CapBranch _ branchSession) => Some branchSession
  | AtSetSession _ _ branchSession => Some branchSession
  | _ => None
  end.

(** What holds of the calls in flight on the session [sid], whose version
    was [v0] when they were spawned. *)
Definition concurrent_inv (sid : string) (v0 : Z) (n : nat) (cfg : Config) : Prop :=
  ∃ p s,
    sessions (world cfg) !! sid = Some p
    ∧ sessionObjs (world cfg) !! p = Some s
    ∧ ThinkingSession.Version s = v0 + len (committed cfg)
    ∧ NoDup (committed cfg)
    ∧ Forall (λ b, v0 ≤ b < ThinkingSession.Version s) (committed cfg)
    ∧ length (calls cfg) = n
    ∧ Forall (λ c, ContinueThinkingArgs.SessionID c.1 = sid) (calls cfg)
    ∧ (∀ i c q, calls cfg !! i = Some c → q ∈ private c.2 →
         q ≠ p ∧ is_Some (sessionObjs (world cfg) !! q))
    ∧ (∀ i c, calls cfg !! i = Some c → NoDup (private c.2))
    ∧ (∀ i j c d q, calls cfg !! i = Some c → calls cfg !! j = Some d →
         q ∈ private c.2 → q ∈ private d.2 → i = j)
    ∧ (∀ i c b, calls cfg !! i = Some c → pending c.2 = Some b →
         ∃ bo, sessionObjs (world cfg) !! b = Some bo ∧ ThinkingSession.ID bo ≠ sid).

(** ** Reading a session through its pointers *)

(** The thought values a slice of pointers leads to. *)
Definition loadThoughts (w : World) (ps : list loc) : option (list Thought.t) :=
  mapM (λ p, thoughtObjs w !! p) ps.

(** The session at [p], with its thoughts. *)
Definition loadSession (w : World) (p : loc) : option ThinkingSession.val :=
  s ← sessionObjs w !! p;
  ts ← loadThoughts w (ThinkingSession.Thoughts s);
  Some (ThinkingSession.set_Thoughts ts s).

(** What the store holds for [id]. *)
Definition stored (w : World) (id : string) : option ThinkingSession.val :=
  sessions w !! id ≫= loadSession w.

(** ** Well-formed worlds *)

(** The slices of a session object: every thought pointer leads to an
    object, and the lengths are ones a slice can have. *)
Definition slices_ok (w : World) (s : ThinkingSession.obj) : Prop :=
  Forall (λ t, is_Some (thoughtObjs w !! t)) (ThinkingSession.Thoughts s)
  ∧ len (ThinkingSession.Thoughts s) ≤ max_int
  ∧ len (ThinkingSession.Branches s) ≤ max_int.

(** No pointer of the store or of a session object is nil or dangling. *)
Definition wf (w : World) : Prop :=
  map_Forall (λ _ p, is_Some (sessionObjs w !! p)) (sessions w)
  ∧ map_Forall (λ _ s, slices_ok w s) (sessionObjs w).

(** [w'] has every object of [w], unchanged. *)
Definition extends (w w' : World) : Prop :=
  thoughtObjs w ⊆ thoughtObjs w' ∧ sessionObjs w ⊆ sessionObjs w'.

(** An update function that writes only to the session object it is given
    and to the thoughts that object points to.  It may read the clock and
    allocate; it does not touch the map of the store, and the pointer it
    returns is the one it was given or one it has allocated. *)
Definition local {X} (f : loc → M (error + loc * X)) : Prop :=
  ∀ c s w r w', sessionObjs w !! c = Some s → f c w = Done r w' →
    sessions w' = sessions w
    ∧ (∀ p, p ≠ c → is_Some (sessionObjs w !! p) →
            sessionObjs w' !! p = sessionObjs w !! p)
    ∧ (∀ t, t ∉ ThinkingSession.Thoughts s → is_Some (thoughtObjs w !! t) →
            thoughtObjs w' !! t = thoughtObjs w !! t)
    ∧ (∀ u x, r = inr (u, x) → u = c ∨ sessionObjs w !! u = None).

(** ** Reachable worlds and what holds in them *)

(** The world a computation leaves, when it ends. *)
Definition after {A} (m : M A) (w : World) : World :=
  match m w with
  | Done _ w' => w'
  | _ => w
  end.

(** The process starts with an empty store; afterwards the handlers run,
    one call after the other, with any arguments.  [SessionSnapshot] is the
    read of [ReviewThinking] and [ThinkingHistory]. *)
Inductive reachable : World → Prop :=
  | reachable_init timeline entropy :
      reachable (NewSessionStore timeline entropy)
  | reachable_start w args r w' :
      reachable w → StartThinking args w = Done r w' → reachable w'
  | reachable_continue w fuel args r w' :
      reachable w → ContinueThinking fuel args w = Done r w' → reachable w'
  | reachable_snapshot w id r w' :
      reachable w → SessionSnapshot id w = Done r w' → reachable w'.

(** A session stored under [id] carries that id, and its thoughts are
    numbered from 1 without gaps. *)
Definition session_ok (id : string) (v : ThinkingSession.val) : Prop :=
  ThinkingSession.ID v = id
  ∧ ∀ i x, ThinkingSession.Thoughts v !! i = Some x → Thought.Index x = Z.of_nat i + 1.

Definition inv (w : World) : Prop :=
  wf w ∧ ∀ id v, stored w id = Some v → session_ok id v.

(** ** A small run, used in the examples

    The end-to-end scenario: start a session with an estimate of three
    steps, add two thoughts, the second one closing the session. *)

Definition example_clock : nat → Time := λ n, Z.of_nat n.
Definition example_rand : nat → string := λ n, "id" +:+ pretty n.

Definition w_empty : World := NewSessionStore example_clock example_rand.

Definition start_trip : StartThinkingArgs.t :=
  {| StartThinkingArgs.Problem := "plan a trip";
     StartThinkingArgs.SessionID := "trip";
     StartThinkingArgs.EstimatedSteps := 3 |}.

Definition think (sessionID thought : string) (nextNeeded : option bool)
  : ContinueThinkingArgs.t :=
  {| ContinueThinkingArgs.SessionID := sessionID;
     ContinueThinkingArgs.Thought := thought;
     ContinueThinkingArgs.NextNeeded := nextNeeded;
     ContinueThinkingArgs.ReviseStep := None;
     ContinueThinkingArgs.CreateBranch := false;
     ContinueThinkingArgs.EstimatedTotal := 0 |}.

Definition revise (sessionID thought : string) (step : Z) : ContinueThinkingArgs.t :=
  {| ContinueThinkingArgs.SessionID := sessionID;
     ContinueThinkingArgs.Thought := thought;
     ContinueThinkingArgs.NextNeeded := None;
     ContinueThinkingArgs.ReviseStep := Some step;
     ContinueThinkingArgs.CreateBranch := false;
     ContinueThinkingArgs.EstimatedTotal := 0 |}.

Definition branch (sessionID : string) : ContinueThinkingArgs.t :=
  {| ContinueThinkingArgs.SessionID := sessionID;
     ContinueThinkingArgs.Thought := "";
     ContinueThinkingArgs.NextNeeded := None;
     ContinueThinkingArgs.ReviseStep := None;
     ContinueThinkingArgs.CreateBranch := true;
     ContinueThinkingArgs.EstimatedTotal := 0 |}.

Definition w_started : World := after (StartThinking start_trip) w_empty.
Definition w_one : World :=
  after (ContinueThinking 1 (think "trip" "pick destination" (Some true))) w_started.
Definition w_two : World :=
  after (ContinueThinking 1 (think "trip" "book flight" (Some false))) w_one.

(** A start request with an empty problem and a negative estimate. *)
Definition start_blank : StartThinkingArgs.t :=
  {| StartThinkingArgs.Problem := "";
     StartThinkingArgs.SessionID := "blank";
     StartThinkingArgs.EstimatedSteps := -1 |}.

(** The texts of [thoughts] appended, one call after the other, to the
    session [sessionID]. *)
Fixpoint appendAll (sessionID : string) (thoughts : list string) (w : World) : World :=
  match thoughts with
  | [] => w
  | t :: rest =>
      appendAll sessionID rest (after (ContinueThinking 1 (think sessionID t None)) w)
  end.

(** Three concurrent calls on the session of the example run (an append,
    a revision, a branch), and an order in which their steps interleave:
    the first round of each reads version 2, the append commits, the other
    two find the version changed and go round again. *)
Definition example_calls : list ContinueThinkingArgs.t :=
  [think "trip" "a" None; revise "trip" "b" 1; branch "trip"].

Definition example_order : list nat :=
  [0; 1; 2; 0; 1; 2; 0; 1; 2; 1; 1; 1; 2; 2; 2; 2]%nat.

(** ** The reads of the whole store, and the review

    [gmap.Values] and a [range] over the map of the store visit its entries
    in an order the runtime chooses; [order] is that order, an enumeration
    of the keys of the map. *)

Definition enumerates (order : list string) (w : World) : Prop :=
  NoDup order ∧ ∀ id, id ∈ order ↔ is_Some (sessions w !! id).

(** [SessionStore.Sessions]: [gmap.Values], the pointers the map holds. *)
Definition Sessions (order : list string) : M (list loc) :=
  λ w, Done (omap (λ id, sessions w !! id) order) w.

(** The loop of [SessionStore.SessionsSnapshot] over the values of the
    map; [sessions] is the slice built so far. *)
Fixpoint snapshotAll (values : list loc) (sessions : list loc) : M (list loc) :=
  match values with
  | [] => ret sessions
  | session :: rest =>
      sessionCopy <- clone session ;;
      sessions <- append sessions sessionCopy ;;
      snapshotAll rest sessions
  end.

(** [SessionStore.SessionsSnapshot]; the nil slice it returns for an empty
    map is the empty list. *)
Definition SessionsSnapshot (order : list string) : M (list loc) :=
  λ w, snapshotAll (omap (λ id, sessions w !! id) order) [] w.

Module ReviewThinkingArgs.
Record t := mk {
  SessionID : string;
}.
End ReviewThinkingArgs.

(** [strings.Join] *)
Fixpoint strings_Join (elems : list string) (sep : string) : string :=
  match elems with
  | [] => ""
  | e :: rest =>
      match rest with
      | [] => e
      | _ => e +:+ sep +:+ strings_Join rest sep
      end
  end.

(** The loop of [ReviewThinking] over the thoughts of the snapshot, from
    position [i] on; [review] is the text written so far. *)
Fixpoint reviewThoughts (i : nat) (thoughts : list loc) (review : string) : M string :=
  match thoughts with
  | [] => ret review
  | thought :: rest =>
      t <- readThought thought ;;
      let status := if Thought.Revised t then " (revised)" else "" in
      reviewThoughts (S i) rest
        (review +:+ pretty (wrap (Z.of_nat i + 1)) +:+ ". "
                +:+ Thought.Content t +:+ status +:+ nl)
  end.

(** [ReviewThinking]; the result is the text of the single content item. *)
Definition ReviewThinking (args : ReviewThinkingArgs.t) : M (error + string) :=
  r <- SessionSnapshot (ReviewThinkingArgs.SessionID args) ;;
  match r with
  | None => ret (inl (ErrSessionNotFound (ReviewThinkingArgs.SessionID args)))
  | Some sessionSnapshot =>
      s <- readSession sessionSnapshot ;;
      let review := "=== Thinking Review: " +:+ ThinkingSession.ID s +:+ " ===" +:+ nl in
      let review := review +:+ "Problem: " +:+ ThinkingSession.Problem s +:+ nl in
      let review := review +:+ "Status: " +:+ ThinkingSession.Status s +:+ nl in
      let review :=
        review +:+ "Steps: " +:+ pretty (len (ThinkingSession.Thoughts s))
               +:+ " of ~" +:+ pretty (ThinkingSession.EstimatedTotal s) +:+ nl in
      let review :=
        if decide (len (ThinkingSession.Branches s) > 0)
        then review +:+ "Branches: "
                    +:+ strings_Join (ThinkingSession.Branches s) ", " +:+ nl
        else review in
      let review := review +:+ nl +:+ "--- Thought Sequence ---" +:+ nl in
      review <- reviewThoughts 0 (ThinkingSession.Thoughts s) review ;;
      ret (inr review)
  end.

(** *** The review of a session value

    What [ReviewThinking] prints, told of the session as a value: the
    header, then one line per thought, numbered by the [Index] field of the
    thought. *)

Definition reviewHeader (v : ThinkingSession.val) : string :=
  "=== Thinking Review: " +:+ ThinkingSession.ID v +:+ " ===" +:+ nl
  +:+ "Problem: " +:+ ThinkingSession.Problem v +:+ nl
  +:+ "Status: " +:+ ThinkingSession.Status v +:+ nl
  +:+ "Steps: " +:+ pretty (len (ThinkingSession.Thoughts v))
  +:+ " of ~" +:+ pretty (ThinkingSession.EstimatedTotal v) +:+ nl
  +:+ (if decide (len (ThinkingSession.Branches v) > 0)
       then "Branches: " +:+ strings_Join (ThinkingSession.Branches v) ", " +:+ nl
       else "")
  +:+ nl +:+ "--- Thought Sequence ---" +:+ nl.

Definition reviewLine (x : Thought.t) : string :=
  pretty (Thought.Index x) +:+ ". " +:+ Thought.Content x
  +:+ (if Thought.Revised x then " (revised)" else "") +:+ nl.

Definition joined (lines : list string) : string := foldr String.app "" lines.

Definition reviewText (v : ThinkingSession.val) : string :=
  reviewHeader v +:+ joined (reviewLine <$> ThinkingSession.Thoughts v).

(** ** The resource handler

    [ThinkingHistory] calls two libraries: [url.Parse], of whose result it
    reads the scheme and the host, and the JSON encoder.  Both are kept as
    they are, functions the handler is given; [None] is their non-nil
    error.  The encoder reads the sessions in the heap, through the
    pointers it is passed. *)

Module URL.
Record t := mk {
  Scheme : string;
  Host : string;
}.
End URL.

Module ResourceContents.
Record t := mk {
  URI : string;
  MIMEType : string;
  Text : string;
}.
End ResourceContents.

(** The errors [ThinkingHistory] builds with [fmt.Errorf]. *)
Inductive history_error :=
  | ErrInvalidURI (uri : string)        (* "invalid thinking resource URI: %s" *)
  | ErrInvalidScheme (scheme : string)  (* "invalid thinking resource URI scheme: %s" *)
  | ErrMarshalSessions                  (* "failed to marshal sessions: %w" *)
  | ErrMarshalSession                   (* "failed to marshal session: %w" *)
  | ErrHistoryNotFound (sessionID : string).   (* "session %s not found" *)

Section ThinkingHistory.
Variable url_Parse : string → option URL.t.
Variable marshalSessions : World → list loc → option string.
Variable marshalSession : World → loc → option string.

(** [ThinkingHistory]; [uri] is [params.URI], the result the [Contents]
    of the [ReadResourceResult]. *)
Definition ThinkingHistory (order : list string) (uri : string)
  : M (history_error + list ResourceContents.t) :=
  match url_Parse uri with
  | None => ret (inl (ErrInvalidURI uri))
  | Some u =>
      if decide (URL.Scheme u ≠ "thinking") then
        ret (inl (ErrInvalidScheme (URL.Scheme u)))
      else
        let sessionID := URL.Host u in
        if decide (sessionID = "sessions") then
          sessions <- SessionsSnapshot order ;;
          λ w, match marshalSessions w sessions with
               | None => Done (inl ErrMarshalSessions) w
               | Some data =>
                   Done (inr [ResourceContents.mk uri "application/json" data]) w
               end
        else
          r <- SessionSnapshot sessionID ;;
          match r with
          | None => ret (inl (ErrHistoryNotFound sessionID))
          | Some session =>
              λ w, match marshalSession w session with
                   | None => Done (inl ErrMarshalSession) w
                   | Some data =>
                       Done (inr [ResourceContents.mk uri "application/json" data]) w
                   end
          end
  end.

End ThinkingHistory.
(** ** More of what holds in reachable worlds *)

(** Of a session stored under [id]: its status is one of the two the
    handlers assign, its current thought is its last one, no thought has a
    parent, and its branches are named after it and numbered from 1. *)
Definition session_tidy (id : string) (v : ThinkingSession.val) : Prop :=
  (ThinkingSession.Status v = "active" ∨ ThinkingSession.Status v = "completed")
  ∧ ThinkingSession.CurrentThought v = len (ThinkingSession.Thoughts v)
  ∧ Forall (λ x, Thought.ParentIndex x = None) (ThinkingSession.Thoughts v)
  ∧ ∀ i b, ThinkingSession.Branches v !! i = Some b →
           b = id +:+ "_branch_" +:+ pretty (Z.of_nat i + 1).

(** Every stored session is tidy, and the store holds a session under each
    branch id a session lists. *)
Definition tidy (w : World) : Prop :=
  ∀ id v, stored w id = Some v →
    session_tidy id v
    ∧ Forall (λ b, is_Some (sessions w !! b)) (ThinkingSession.Branches v).

(** What else holds of the calls in flight on the session [sid], whose
    version was [v0] when they were spawned: the version a call has read is
    one the session has had, and a call that has failed is a revision, of a
    step there is not. *)
Definition inflight_ok (sid : string) (v0 : Z) (cfg : Config) : Prop :=
  ∀ i args st, calls cfg !! i = Some (args, st) →
    match st with
    | AtUpdate _ oldVersion | AtCommit _ oldVersion _ =>
        ∃ V, storedVersion (world cfg) sid = Some V ∧ v0 ≤ oldVersion ≤ V
    | Failed err =>
        ∃ reviseStep,
          ContinueThinkingArgs.ReviseStep args = Some reviseStep
          ∧ err = ErrInvalidStep reviseStep
    | _ => True
    end.

(** What [url.Parse] answers on the URIs of the examples, and an encoder
    that answers with the number of sessions it is given. *)
Definition example_parse (uri : string) : option URL.t :=
  if decide (uri = "thinking://sessions") then Some (URL.mk "thinking" "sessions")
  else if decide (uri = "thinking://trip") then Some (URL.mk "thinking" "trip")
  else if decide (uri = "thinking://nowhere") then Some (URL.mk "thinking" "nowhere")
  else if decide (uri = "https://trip") then Some (URL.mk "https" "trip")
  else None.

Definition example_marshalSessions (w : World) (sessions : list loc) : option string :=
  Some (pretty (len sessions)).

Definition example_marshalSession (w : World) (session : loc) : option string :=
  ThinkingSession.ID <$> sessionObjs w !! session.

(** The example run, continued by a branch of the session. *)
Definition w_branched : World := after (ContinueThinking 1 (branch "trip")) w_two.

(** ** The branch list while calls are in flight *)

(** What holds of a call in flight on the session [sid], whose stored
    object is [s]: a call that has read the version now stored works on a
    copy of the branch list now stored, to which its closure has added the
    id of the branch it builds; a branch session that is built carries the
    id it was built for. *)
Definition branch_work_ok (sid : string) (w : World) (s : ThinkingSession.obj)
    (st : pc) : Prop :=
  match st with
  | AtUpdate c v =>
      v = ThinkingSession.Version s →
      ∃ sc, sessionObjs w !! c = Some sc
            ∧ ThinkingSession.Branches sc = ThinkingSession.Branches s
  | AtCommit u v x =>
      (v = ThinkingSession.Version s →
       ∃ su, sessionObjs w !! u = Some su
             ∧ match x with
               | CapBranch bid _ =>
                   ThinkingSession.Branches su = ThinkingSession.Branches s ++ [bid]
                   ∧ bid = sid +:+ "_branch_"
                             +:+ pretty (len (ThinkingSession.Branches s) + 1)
               | _ => ThinkingSession.Branches su = ThinkingSession.Branches s
               end)
      ∧ match x with
        | CapBranch bid bs =>
            ∃ bo, sessionObjs w !! bs = Some bo ∧ ThinkingSession.ID bo = bid
        | _ => True
        end
  | AtSetSession _ bid bs =>
      ∃ bo, sessionObjs w !! bs = Some bo ∧ ThinkingSession.ID bo = bid
  | _ => True
  end.

(** The store holds under [b] a session that carries the id [b]. *)
Definition registered (w : World) (b : string) : Prop :=
  ∃ q bo, sessions w !! b = Some q ∧ sessionObjs w !! q = Some bo
          ∧ ThinkingSession.ID bo = b.

(** What holds of the branch list of the session [sid] while calls on it
    are in flight: each id it lists is registered, or is the branch of a
    call that has left [CompareAndSwap] and not yet run [SetSession]; the ids
    are numbered in order; the calls work as [branch_work_ok] says; and the
    objects the map leads to are allocated, and none is the private object
    of a call. *)
Definition branches_inv (sid : string) (cfg : Config) : Prop :=
  ∃ p s,
    sessions (world cfg) !! sid = Some p
    ∧ sessionObjs (world cfg) !! p = Some s
    ∧ Forall (λ b, registered (world cfg) b
                   ∨ ∃ i args v bs, calls cfg !! i = Some (args, AtSetSession v b bs))
             (ThinkingSession.Branches s)
    ∧ (∀ i b, ThinkingSession.Branches s !! i = Some b →
              b = sid +:+ "_branch_" +:+ pretty (Z.of_nat i + 1))
    ∧ (∀ i args st, calls cfg !! i = Some (args, st) →
                    branch_work_ok sid (world cfg) s st)
    ∧ ∀ k q, sessions (world cfg) !! k = Some q →
             is_Some (sessionObjs (world cfg) !! q)
             ∧ ∀ i c, calls cfg !! i = Some c → q ∉ private c.2.

(** * Proofs *)

(** ** Running monadic code *)

Ltac munfold :=
  unfold bind, ret, panic, timeNow, randText, newThought, readThought, assignThought,
    newSession, readSession, assignSession, append.

Tactic Notation "wsimpl" :=
  cbn [thoughtObjs sessionObjs sessions ticks timeline draws entropy
       upd_thoughtObjs upd_sessionObjs upd_sessions tick draw].
Tactic Notation "wsimpl" "in" hyp(H) :=
  cbn [thoughtObjs sessionObjs sessions ticks timeline draws entropy
       upd_thoughtObjs upd_sessionObjs upd_sessions tick draw] in H.

Ltac wnorm :=
  unfold upd_thoughtObjs, upd_sessionObjs, upd_sessions, tick, draw; wsimpl;
  rewrite ?insert_insert_eq.

Ltac mrun :=
  repeat first
    [ progress wsimpl
    | rewrite lookup_insert_eq
    | match goal with
      | H : sessionObjs ?w !! ?c = _ |- context [sessionObjs ?w !! ?c] => rewrite H
      | H : thoughtObjs ?w !! ?c = _ |- context [thoughtObjs ?w !! ?c] => rewrite H
      | H : sessions ?w !! ?c = _ |- context [sessions ?w !! ?c] => rewrite H
      end ].

Lemma bind_Done {A B} (m : M A) (k : A → M B) w a w1 :
  m w = Done a w1 → bind m k w = k a w1.
Proof. intros H. unfold bind. by rewrite H. Qed.

Lemma bind_inv {A B} (m : M A) (k : A → M B) w b w2 :
  bind m k w = Done b w2 → ∃ a w1, m w = Done a w1 ∧ k a w1 = Done b w2.
Proof. unfold bind. destruct (m w) as [a w1| |]; [eauto | done | done]. Qed.

(** ** Machine integers *)

Lemma wrap_id z : int_ok z → wrap z = z.
Proof.
  unfold int_ok, wrap, min_int, max_int. intros H.
  rewrite Z.mod_small by lia. lia.
Qed.

Lemma wrap_ok z : int_ok (wrap z).
Proof.
  unfold int_ok, wrap, min_int, max_int.
  pose proof (Z.mod_pos_bound (z + 2 ^ 63) (2 ^ 64) ltac:(lia)). lia.
Qed.

Lemma len_nonneg {A} (s : list A) : 0 ≤ len s.
Proof. unfold len. lia. Qed.

Lemma len_app {A} (s t : list A) : len (s ++ t) = len s + len t.
Proof. unfold len. rewrite length_app. lia. Qed.

(** ** Loading through pointers *)

Lemma loadThoughts_weaken w w' ps ts :
  thoughtObjs w ⊆ thoughtObjs w' →
  loadThoughts w ps = Some ts → loadThoughts w' ps = Some ts.
Proof.
  unfold loadThoughts. intros Hsub H.
  apply mapM_Some in H. apply mapM_Some.
  eapply Forall2_impl; [exact H|]. cbn. intros p x Hp.
  by eapply lookup_weaken.
Qed.

Lemma loadThoughts_is_Some w ps :
  Forall (λ t, is_Some (thoughtObjs w !! t)) ps → is_Some (loadThoughts w ps).
Proof. intros H. unfold loadThoughts. by apply mapM_is_Some. Qed.

Lemma loadThoughts_length w ps ts :
  loadThoughts w ps = Some ts → length ts = length ps.
Proof. intros H. symmetry. by eapply length_mapM. Qed.

Lemma loadThoughts_app w ps qs ts us :
  loadThoughts w ps = Some ts → loadThoughts w qs = Some us →
  loadThoughts w (ps ++ qs) = Some (ts ++ us).
Proof.
  unfold loadThoughts. rewrite !mapM_Some. apply Forall2_app.
Qed.

Lemma loadSession_weaken w w' p v :
  extends w w' → loadSession w p = Some v → loadSession w' p = Some v.
Proof.
  intros [HT HS]. unfold loadSession. intros H.
  destruct (sessionObjs w !! p) as [s|] eqn:Hs; [|done]. cbn in H.
  destruct (loadThoughts w (ThinkingSession.Thoughts s)) as [ts|] eqn:Hts; [|done].
  cbn in H. rewrite (lookup_weaken _ _ _ _ Hs HS). cbn.
  by rewrite (loadThoughts_weaken _ _ _ _ HT Hts).
Qed.

Lemma wf_loadSession w p s :
  wf w → sessionObjs w !! p = Some s →
  ∃ ts, loadThoughts w (ThinkingSession.Thoughts s) = Some ts
        ∧ loadSession w p = Some (ThinkingSession.set_Thoughts ts s).
Proof.
  intros [_ Hobj] Hs. destruct (Hobj _ _ Hs) as (Hts & _).
  destruct (loadThoughts_is_Some _ _ Hts) as [ts Hl].
  exists ts. split; [done|]. unfold loadSession. rewrite Hs. cbn. by rewrite Hl.
Qed.

Lemma stored_inv w id v :
  stored w id = Some v →
  ∃ p s ts, sessions w !! id = Some p ∧ sessionObjs w !! p = Some s
            ∧ loadThoughts w (ThinkingSession.Thoughts s) = Some ts
            ∧ v = ThinkingSession.set_Thoughts ts s.
Proof.
  unfold stored, loadSession. intros H.
  destruct (sessions w !! id) as [p|] eqn:Hp; [|done]. cbn in H.
  destruct (sessionObjs w !! p) as [s|] eqn:Hs; [|done]. cbn in H.
  destruct (loadThoughts w (ThinkingSession.Thoughts s)) as [ts|] eqn:Hts; [|done].
  cbn in H. injection H as <-. by exists p, s, ts.
Qed.

Lemma wf_stored w id p :
  wf w → sessions w !! id = Some p → is_Some (stored w id).
Proof.
  intros Hwf Hp. destruct Hwf as [Hmap Hobj].
  destruct (Hmap _ _ Hp) as [s Hs].
  destruct (wf_loadSession w p s (conj Hmap Hobj) Hs) as (ts & _ & Hl).
  unfold stored. rewrite Hp. cbn. rewrite Hl. eauto.
Qed.

(** ** Copies *)

Lemma deepCopyThoughts_spec ps : ∀ w ts,
  loadThoughts w ps = Some ts →
  ∃ qs h, deepCopyThoughts ps w = Done qs (upd_thoughtObjs (λ _, h) w)
    ∧ thoughtObjs w ⊆ h
    ∧ mapM (λ q, h !! q) qs = Some ts
    ∧ NoDup qs
    ∧ Forall (λ q, thoughtObjs w !! q = None) qs
    ∧ (∀ q, is_Some (h !! q) → is_Some (thoughtObjs w !! q) ∨ q ∈ qs).
Proof.
  induction ps as [|p rest IH]; intros w ts Hl.
  - cbn in Hl. injection Hl as <-. exists [], (thoughtObjs w).
    split; [by destruct w|]. repeat split; try done; try constructor. eauto.
  - unfold loadThoughts in Hl. apply mapM_Some in Hl.
    destruct ts as [|x ts']; [by inversion Hl|].
    apply Forall2_cons in Hl as [Hp Hrest]. apply mapM_Some in Hrest.
    set (q := fresh (dom (thoughtObjs w))).
    assert (Hq : thoughtObjs w !! q = None).
    { apply not_elem_of_dom. apply is_fresh. }
    set (w1 := upd_thoughtObjs <[q := x]> w).
    assert (Hsub1 : thoughtObjs w ⊆ thoughtObjs w1).
    { unfold w1. wsimpl. by apply insert_subseteq. }
    destruct (IH w1 ts') as (qs & h & Hrun & Hsub & Hmap & Hnd & Hfresh & Hdom).
    { eapply loadThoughts_weaken; [exact Hsub1|]. exact Hrest. }
    exists (q :: qs), h. split; [|split; [|split; [|split; [|split]]]].
    + cbn [deepCopyThoughts]. munfold. rewrite Hp. fold q. fold w1.
      unfold deepCopyThoughts in Hrun. fold deepCopyThoughts in Hrun.
      rewrite Hrun. done.
    + by etrans.
    + apply mapM_Some. apply Forall2_cons. split; [|by apply mapM_Some].
      eapply lookup_weaken; [|exact Hsub]. unfold w1. wsimpl. apply lookup_insert_eq.
    + apply NoDup_cons. split; [|done]. intros Hin.
      rewrite Forall_forall in Hfresh. specialize (Hfresh _ Hin).
      unfold w1 in Hfresh. wsimpl in Hfresh. by rewrite lookup_insert_eq in Hfresh.
    + apply Forall_cons. split; [done|].
      eapply Forall_impl; [exact Hfresh|]. cbn. intros q' Hq'.
      unfold w1 in Hq'. wsimpl in Hq'. by apply lookup_insert_None in Hq' as [? _].
    + intros q' Hq'. destruct (Hdom q' Hq') as [Hin|Hin].
      * unfold w1 in Hin. wsimpl in Hin.
        destruct (decide (q = q')) as [<-|Hne].
        -- right. by left.
        -- rewrite lookup_insert_ne in Hin by done. by left.
      * right. by right.
Qed.

Lemma deepCopyThoughts_grows ps : ∀ w qs w',
  deepCopyThoughts ps w = Done qs w' →
  w' = upd_thoughtObjs (λ _, thoughtObjs w') w ∧ thoughtObjs w ⊆ thoughtObjs w'.
Proof.
  induction ps as [|p rest IH]; intros w qs w' Hrun.
  - injection Hrun as <- <-. by destruct w.
  - cbn [deepCopyThoughts] in Hrun.
    apply bind_inv in Hrun as (x & w1 & Hread & Hrun).
    apply bind_inv in Hrun as (q & w2 & Hnew & Hrun).
    apply bind_inv in Hrun as (qs' & w3 & Hrec & Hret).
    injection Hret as <- <-.
    unfold readThought in Hread. destruct (thoughtObjs w !! p) as [x'|] eqn:Hp; [|done].
    injection Hread as <- <-. unfold newThought in Hnew. injection Hnew as <- <-.
    destruct (IH _ _ _ Hrec) as [Hw Hsub]. split.
    + rewrite Hw at 1. done.
    + etrans; [|exact Hsub]. wsimpl. apply insert_subseteq.
      apply not_elem_of_dom. apply is_fresh.
Qed.

Lemma clone_spec w p s ts :
  sessionObjs w !! p = Some s →
  loadThoughts w (ThinkingSession.Thoughts s) = Some ts →
  ∃ qs h,
    clone p w = Done (fresh (dom (sessionObjs w)))
      (upd_sessionObjs <[fresh (dom (sessionObjs w)) := ThinkingSession.set_Thoughts qs s]>
         (upd_thoughtObjs (λ _, h) w))
    ∧ thoughtObjs w ⊆ h
    ∧ mapM (λ q, h !! q) qs = Some ts
    ∧ NoDup qs
    ∧ Forall (λ q, thoughtObjs w !! q = None) qs.
Proof.
  intros Hs Hts.
  destruct (deepCopyThoughts_spec _ _ _ Hts) as (qs & h & Hrun & Hsub & Hmap & Hnd & Hnew & _).
  exists qs, h. split; [|done].
  unfold clone. erewrite bind_Done; [|unfold readSession; by rewrite Hs].
  erewrite bind_Done; [|exact Hrun]. done.
Qed.

(** The session object at the fresh location is not one the store or any
    older pointer can name. *)
Lemma fresh_session_None w : sessionObjs w !! fresh (dom (sessionObjs w)) = None.
Proof. apply not_elem_of_dom. apply is_fresh. Qed.

Lemma fresh_thought_None w : thoughtObjs w !! fresh (dom (thoughtObjs w)) = None.
Proof. apply not_elem_of_dom. apply is_fresh. Qed.

Lemma casLoad_spec w sid p s ts :
  sessions w !! sid = Some p →
  sessionObjs w !! p = Some s →
  loadThoughts w (ThinkingSession.Thoughts s) = Some ts →
  ∃ c qs w1,
    casLoad sid w = Done (inr (c, ThinkingSession.Version s)) w1
    ∧ sessionObjs w !! c = None
    ∧ sessionObjs w1 = <[c := ThinkingSession.set_Thoughts qs s]> (sessionObjs w)
    ∧ sessions w1 = sessions w
    ∧ ticks w1 = ticks w ∧ timeline w1 = timeline w
    ∧ draws w1 = draws w ∧ entropy w1 = entropy w
    ∧ thoughtObjs w ⊆ thoughtObjs w1
    ∧ loadThoughts w1 qs = Some ts
    ∧ NoDup qs
    ∧ Forall (λ q, thoughtObjs w !! q = None) qs.
Proof.
  intros Hp Hs Hts.
  destruct (clone_spec _ _ _ _ Hs Hts) as (qs & h & Hrun & Hsub & Hmap & Hnd & Hnew).
  eexists _, qs, _. split.
  { unfold casLoad. rewrite Hp. erewrite bind_Done; [|exact Hrun].
    erewrite bind_Done; [done|]. unfold readSession. wsimpl.
    rewrite lookup_insert_ne; [by rewrite Hs|].
    intros Heq. pose proof (fresh_session_None w) as Hf. rewrite Heq in Hf. congruence. }
  wsimpl. split; [apply fresh_session_None|]. done.
Qed.

(** ** One round of [CompareAndSwap]

    With an update function that keeps to its copy, the entry read under the
    writer lock is the one that was cloned: the first round decides. *)

Lemma casCommit_swap w sid p cur u su :
  sessions w !! sid = Some p →
  sessionObjs w !! p = Some cur →
  sessionObjs w !! u = Some su →
  casCommit sid (ThinkingSession.Version cur) u w =
    Done Swapped
      (upd_sessions <[sid := u]>
         (upd_sessionObjs
            <[u := ThinkingSession.set_Version (wrap (ThinkingSession.Version cur + 1)) su]> w)).
Proof.
  intros Hp Hcur Hu. unfold casCommit. rewrite Hp. munfold. rewrite Hcur.
  rewrite decide_False by (intros H; by apply H). by rewrite Hu.
Qed.

Lemma casCommit_nil w sid p cur u :
  sessions w !! sid = Some p →
  sessionObjs w !! p = Some cur →
  sessionObjs w !! u = None →
  casCommit sid (ThinkingSession.Version cur) u w = Panic.
Proof.
  intros Hp Hcur Hu. unfold casCommit. rewrite Hp. munfold. rewrite Hcur.
  rewrite decide_False by (intros H; by apply H). by rewrite Hu.
Qed.

Lemma CompareAndSwap_round {X} fuel sid (f : loc → M (error + loc * X)) w c w1 p s sc :
  local f →
  casLoad sid w = Done (inr (c, ThinkingSession.Version s)) w1 →
  sessions w1 !! sid = Some p →
  sessionObjs w1 !! p = Some s →
  sessionObjs w1 !! c = Some sc →
  p ≠ c →
  CompareAndSwap (S fuel) sid f w =
    match f c w1 with
    | Done (inl err) w2 => Done (inl err) w2
    | Done (inr (u, x)) w2 =>
        match sessionObjs w2 !! u with
        | Some su =>
            Done (inr x)
              (upd_sessions <[sid := u]>
                 (upd_sessionObjs
                    <[u := ThinkingSession.set_Version (wrap (ThinkingSession.Version s + 1)) su]>
                    w2))
        | None => Panic
        end
    | Panic => Panic
    | OutOfFuel => OutOfFuel
    end.
Proof.
  intros Hloc Hload Hp Hs Hc Hne. cbn [CompareAndSwap].
  erewrite bind_Done; [|exact Hload]. unfold bind at 1.
  destruct (f c w1) as [[err|[u x]] w2| |] eqn:Hf; [done| |done|done].
  destruct (Hloc _ _ _ _ _ Hc Hf) as (Hmap & Hobjs & _ & _).
  assert (Hp2 : sessions w2 !! sid = Some p) by (by rewrite Hmap).
  assert (Hs2 : sessionObjs w2 !! p = Some s).
  { rewrite Hobjs; [done|done|]. rewrite Hs. eauto. }
  destruct (sessionObjs w2 !! u) as [su|] eqn:Hu.
  - erewrite bind_Done; [|by eapply casCommit_swap]. done.
  - unfold bind. by erewrite casCommit_nil.
Qed.

Lemma CompareAndSwap_not_found {X} fuel sid (f : loc → M (error + loc * X)) w :
  sessions w !! sid = None →
  CompareAndSwap (S fuel) sid f w = Done (inl (ErrSessionNotFound sid)) w.
Proof.
  intros Hp. cbn [CompareAndSwap]. unfold bind, casLoad. by rewrite Hp.
Qed.

(** What a local update function leaves alone, seen from before the clone. *)
Lemma local_extends {X} (f : loc → M (error + loc * X)) w c qs
    (s : ThinkingSession.obj) w1 r w2 :
  local f →
  sessionObjs w !! c = None →
  sessionObjs w1 = <[c := ThinkingSession.set_Thoughts qs s]> (sessionObjs w) →
  thoughtObjs w ⊆ thoughtObjs w1 →
  Forall (λ q, thoughtObjs w !! q = None) qs →
  f c w1 = Done r w2 →
  extends w w2 ∧ sessions w2 = sessions w1.
Proof.
  intros Hloc Hc Hobjs Hsub Hnew Hf.
  assert (Hc1 : sessionObjs w1 !! c = Some (ThinkingSession.set_Thoughts qs s)).
  { rewrite Hobjs. apply lookup_insert_eq. }
  destruct (Hloc _ _ _ _ _ Hc1 Hf) as (Hmap & Hframe & HframeT & _).
  split; [|done]. split.
  - apply map_subseteq_spec. intros t x Ht.
    rewrite HframeT.
    + by eapply lookup_weaken.
    + cbn. intros Hin. rewrite Forall_forall in Hnew.
      specialize (Hnew _ Hin). congruence.
    + exists x. by eapply lookup_weaken.
  - apply map_subseteq_spec. intros p x Hp.
    assert (p ≠ c) by congruence.
    rewrite Hframe; [|done|].
    + rewrite Hobjs. by rewrite lookup_insert_ne.
    + rewrite Hobjs. rewrite lookup_insert_ne by done. eauto.
Qed.

(** ** The three update closures *)

Lemma appendUpdate_run args c w sc :
  sessionObjs w !! c = Some sc →
  len (ThinkingSession.Thoughts sc) < max_int →
  let t := fresh (dom (thoughtObjs w)) in
  let thoughtID := len (ThinkingSession.Thoughts sc) + 1 in
  ∃ progress statusMsg,
    appendUpdate args c w =
      Done (inr (c, (thoughtID, progress, statusMsg)))
        (mkWorld
           (<[t := {| Thought.Index := thoughtID;
                      Thought.Content := ContinueThinkingArgs.Thought args;
                      Thought.Created := timeline w (ticks w);
                      Thought.Revised := false;
                      Thought.ParentIndex := None |}]> (thoughtObjs w))
           (<[c := {| ThinkingSession.ID := ThinkingSession.ID sc;
                      ThinkingSession.Problem := ThinkingSession.Problem sc;
                      ThinkingSession.Thoughts := ThinkingSession.Thoughts sc ++ [t];
                      ThinkingSession.CurrentThought := thoughtID;
                      ThinkingSession.EstimatedTotal :=
                        if decide (ContinueThinkingArgs.EstimatedTotal args > 0)
                        then ContinueThinkingArgs.EstimatedTotal args
                        else ThinkingSession.EstimatedTotal sc;
                      ThinkingSession.Status :=
                        match ContinueThinkingArgs.NextNeeded args with
                        | Some false => "completed"
                        | _ => ThinkingSession.Status sc
                        end;
                      ThinkingSession.Created := ThinkingSession.Created sc;
                      ThinkingSession.LastActivity := timeline w (S (ticks w));
                      ThinkingSession.Branches := ThinkingSession.Branches sc;
                      ThinkingSession.Version := ThinkingSession.Version sc |}]>
              (sessionObjs w))
           (sessions w) (S (S (ticks w))) (timeline w) (draws w) (entropy w)).
Proof.
  intros Hc Hlen t thoughtID.
  assert (Hid : wrap (len (ThinkingSession.Thoughts sc) + 1) = thoughtID).
  { apply wrap_id. pose proof (len_nonneg (ThinkingSession.Thoughts sc)).
    unfold int_ok, min_int, max_int in *. unfold thoughtID. lia. }
  unfold appendUpdate. munfold. mrun. rewrite decide_True by done.
  unfold ret. mrun. rewrite Hid. fold t.
  destruct (decide (ContinueThinkingArgs.EstimatedTotal args > 0)) as [Het|Het];
    destruct (ContinueThinkingArgs.NextNeeded args) as [[]|]; mrun; wnorm;
    eexists _, _; reflexivity.
Qed.

Lemma wrap_below : wrap (min_int - 1) = max_int.
Proof. reflexivity. Qed.

Lemma reviseUpdate_valid args step c w sc t x :
  sessionObjs w !! c = Some sc →
  0 ≤ wrap (step - 1) < len (ThinkingSession.Thoughts sc) →
  ThinkingSession.Thoughts sc !! Z.to_nat (wrap (step - 1)) = Some t →
  thoughtObjs w !! t = Some x →
  reviseUpdate args step c w =
    Done (inr (c, ()))
      (mkWorld
         (<[t := {| Thought.Index := Thought.Index x;
                    Thought.Content := ContinueThinkingArgs.Thought args;
                    Thought.Created := Thought.Created x;
                    Thought.Revised := true;
                    Thought.ParentIndex := Thought.ParentIndex x |}]> (thoughtObjs w))
         (<[c := ThinkingSession.set_LastActivity (timeline w (ticks w)) sc]> (sessionObjs w))
         (sessions w) (S (ticks w)) (timeline w) (draws w) (entropy w)).
Proof.
  intros Hc Hstep Ht Hx.
  unfold reviseUpdate. erewrite bind_Done; [|unfold readSession; by rewrite Hc].
  rewrite decide_False by lia. rewrite Ht.
  munfold. mrun. wnorm. reflexivity.
Qed.

Lemma reviseUpdate_invalid args step c w sc :
  sessionObjs w !! c = Some sc →
  ¬ (0 ≤ wrap (step - 1) < len (ThinkingSession.Thoughts sc)) →
  reviseUpdate args step c w = Done (inl (ErrInvalidStep step)) w.
Proof.
  intros Hc Hstep.
  unfold reviseUpdate. erewrite bind_Done; [|unfold readSession; by rewrite Hc].
  rewrite decide_True; [done|]. lia.
Qed.

(** For a step number that is an [int] and a slice of a length a slice can
    have, the test of the closure is the test on the 1-based step. *)
Lemma step_index step n :
  int_ok step → 0 ≤ n ≤ max_int →
  (0 ≤ wrap (step - 1) < n ↔ 1 ≤ step ≤ n)
  ∧ (1 ≤ step ≤ n → wrap (step - 1) = step - 1).
Proof.
  intros Hok Hn. destruct (decide (step = min_int)) as [->|Hne].
  - rewrite wrap_below. unfold min_int, max_int in *. lia.
  - rewrite wrap_id by (unfold int_ok, min_int, max_int in *; lia). lia.
Qed.

Lemma branchUpdate_run args c w sc :
  sessionObjs w !! c = Some sc →
  len (ThinkingSession.Branches sc) < max_int →
  let branchID :=
    ContinueThinkingArgs.SessionID args +:+ "_branch_"
      +:+ pretty (len (ThinkingSession.Branches sc) + 1) in
  let sc' :=
    ThinkingSession.set_LastActivity (timeline w (ticks w))
      (ThinkingSession.set_Branches (ThinkingSession.Branches sc ++ [branchID]) sc) in
  let w1 :=
    mkWorld (thoughtObjs w) (<[c := sc']> (sessionObjs w)) (sessions w)
            (S (ticks w)) (timeline w) (draws w) (entropy w) in
  branchUpdate args c w =
    match deepCopyThoughts (ThinkingSession.Thoughts sc) w1 with
    | Done thoughtsCopy w2 =>
        let b := fresh (dom (sessionObjs w2)) in
        Done (inr (c, (branchID, b)))
          (mkWorld (thoughtObjs w2)
             (<[b := {| ThinkingSession.ID := branchID;
                        ThinkingSession.Problem :=
                          ThinkingSession.Problem sc +:+ " (Alternative branch)";
                        ThinkingSession.Thoughts := thoughtsCopy;
                        ThinkingSession.CurrentThought := len (ThinkingSession.Thoughts sc);
                        ThinkingSession.EstimatedTotal := ThinkingSession.EstimatedTotal sc;
                        ThinkingSession.Status := "active";
                        ThinkingSession.Created := timeline w2 (ticks w2);
                        ThinkingSession.LastActivity := timeline w2 (S (ticks w2));
                        ThinkingSession.Branches := [];
                        ThinkingSession.Version := 0 |}]> (sessionObjs w2))
             (sessions w2) (S (S (ticks w2))) (timeline w2) (draws w2) (entropy w2))
    | Panic => Panic
    | OutOfFuel => OutOfFuel
    end.
Proof.
  intros Hc Hlen branchID sc' w1.
  assert (Hid : wrap (len (ThinkingSession.Branches sc) + 1)
                = len (ThinkingSession.Branches sc) + 1).
  { apply wrap_id. pose proof (len_nonneg (ThinkingSession.Branches sc)).
    unfold int_ok, min_int, max_int in *. lia. }
  unfold branchUpdate. erewrite bind_Done; [|unfold readSession; by rewrite Hc].
  rewrite Hid. fold branchID.
  erewrite bind_Done; [|unfold append; by rewrite decide_True].
  erewrite bind_Done; [|unfold assignSession; by rewrite Hc].
  erewrite bind_Done; [|reflexivity].
  erewrite bind_Done; [|unfold assignSession; mrun; reflexivity].
  erewrite bind_Done; [|unfold readSession; mrun; reflexivity].
  unfold bind at 1. wnorm. fold sc'. fold w1.
  change (ThinkingSession.Thoughts sc') with (ThinkingSession.Thoughts sc).
  destruct (deepCopyThoughts (ThinkingSession.Thoughts sc) w1) as [qs w2| |]; [|done|done].
  munfold. wnorm. reflexivity.
Qed.

Lemma appendUpdate_local args : local (appendUpdate args).
Proof.
  intros c s w r w' Hc Hrun.
  destruct (decide (len (ThinkingSession.Thoughts s) < max_int)) as [Hlen|Hlen].
  - destruct (appendUpdate_run args c w s Hc Hlen) as (progress & statusMsg & Heq).
    rewrite Heq in Hrun. injection Hrun as <- <-. wsimpl.
    split; [done|]. split; [|split].
    + intros p Hne _. by rewrite lookup_insert_ne.
    + intros t _ [x Hx]. rewrite lookup_insert_ne; [done|].
      intros <-. rewrite fresh_thought_None in Hx. done.
    + intros u y [= <- _]. by left.
  - exfalso. revert Hrun. unfold appendUpdate. munfold. mrun.
    by rewrite decide_False.
Qed.

Lemma reviseUpdate_local args step : local (reviseUpdate args step).
Proof.
  intros c s w r w' Hc Hrun. revert Hrun.
  unfold reviseUpdate. erewrite bind_Done; [|unfold readSession; by rewrite Hc].
  destruct (decide _) as [_|_].
  { intros [= <- <-]. done. }
  destruct (ThinkingSession.Thoughts s !! _) as [t|] eqn:Ht; [|done].
  munfold. destruct (thoughtObjs w !! t) as [x|] eqn:Hx; [|done].
  mrun. intros [= <- <-]. wsimpl. split; [done|]. split; [|split].
  - intros p Hne _. by rewrite lookup_insert_ne.
  - intros t' Hnin _. rewrite !lookup_insert_ne; [done| |].
    + intros <-. apply Hnin. by eapply list_elem_of_lookup_2.
    + intros <-. apply Hnin. by eapply list_elem_of_lookup_2.
  - intros u y [= <- _]. by left.
Qed.

Lemma branchUpdate_local args : local (branchUpdate args).
Proof.
  intros c s w r w' Hc Hrun.
  destruct (decide (len (ThinkingSession.Branches s) < max_int)) as [Hlen|Hlen].
  - rewrite (branchUpdate_run args c w s Hc Hlen) in Hrun. cbv zeta in Hrun.
    destruct (deepCopyThoughts _ _) as [qs w2| |] eqn:Hcopy; [|done|done].
    destruct (deepCopyThoughts_grows _ _ _ _ Hcopy) as [Hw2 Hsub].
    injection Hrun as <- <-. rewrite Hw2. wsimpl. cbn in Hsub.
    split; [done|]. split; [|split].
    + intros p Hne [x Hx]. rewrite lookup_insert_ne.
      * by rewrite lookup_insert_ne.
      * intros <-.
        pose proof (is_fresh (dom (<[c:=ThinkingSession.set_LastActivity
          (timeline w (ticks w)) (ThinkingSession.set_Branches
             (ThinkingSession.Branches s ++
                [ContinueThinkingArgs.SessionID args +:+ "_branch_"
                 +:+ pretty (len (ThinkingSession.Branches s) + 1)]) s)]>
          (sessionObjs w)))) as Hf.
        apply Hf. apply elem_of_dom. rewrite lookup_insert_ne by done. eauto.
    + intros t _ [x Hx]. rewrite Hw2 in Hsub. wsimpl in Hsub.
      rewrite Hx. by eapply lookup_weaken.
    + intros u y [= <- _]. by left.
  - exfalso. revert Hrun. unfold branchUpdate.
    erewrite bind_Done; [|unfold readSession; by rewrite Hc].
    unfold bind, append. by rewrite decide_False.
Qed.

(** ** Frames *)

Lemma extends_refl w : extends w w.
Proof. by split. Qed.

Lemma extends_trans w1 w2 w3 : extends w1 w2 → extends w2 w3 → extends w1 w3.
Proof. intros [] []. split; by etrans. Qed.

Lemma stored_frame w w' id :
  wf w → extends w w' → sessions w' !! id = sessions w !! id →
  stored w' id = stored w id.
Proof.
  intros Hwf Hext Hid. unfold stored. rewrite Hid.
  destruct (sessions w !! id) as [p|] eqn:Hp; [|done]. cbn.
  destruct (wf_stored _ _ _ Hwf Hp) as [v Hv].
  unfold stored in Hv. rewrite Hp in Hv. cbn in Hv. rewrite Hv.
  by eapply loadSession_weaken.
Qed.

Lemma slices_ok_weaken w w' s :
  thoughtObjs w ⊆ thoughtObjs w' → slices_ok w s → slices_ok w' s.
Proof.
  intros Hsub (Hts & Hl1 & Hl2). split; [|done].
  eapply Forall_impl; [exact Hts|]. cbn. intros t [x Hx].
  exists x. by eapply lookup_weaken.
Qed.

Lemma wf_grow w w' :
  wf w → extends w w' →
  (∀ id p, sessions w' !! id = Some p → is_Some (sessionObjs w' !! p)) →
  (∀ p s, sessionObjs w' !! p = Some s → sessionObjs w !! p = None → slices_ok w' s) →
  wf w'.
Proof.
  intros [Hmap Hobj] [HT HS] Hmap' Hnew. split; [exact Hmap'|].
  intros p s Hs. destruct (sessionObjs w !! p) as [s0|] eqn:Hs0.
  - pose proof (lookup_weaken _ _ _ _ Hs0 HS) as Hs'.
    assert (s = s0) as -> by congruence.
    eapply slices_ok_weaken; [exact HT|]. exact (Hobj _ _ Hs0).
  - exact (Hnew _ _ Hs Hs0).
Qed.

Lemma loadThoughts_slices_ok w (s : ThinkingSession.obj) ts :
  loadThoughts w (ThinkingSession.Thoughts s) = Some ts →
  len ts ≤ max_int → len (ThinkingSession.Branches s) ≤ max_int →
  slices_ok w s.
Proof.
  intros Hl Hlen Hb. split; [|split; [|done]].
  - assert (is_Some (loadThoughts w (ThinkingSession.Thoughts s))) as H by eauto.
    unfold loadThoughts in H. apply mapM_is_Some in H. exact H.
  - unfold len in *. by rewrite <- (loadThoughts_length _ _ _ Hl).
Qed.

Lemma loadThoughts_eq h w qs :
  thoughtObjs w = h → mapM (λ q, h !! q) qs = loadThoughts w qs.
Proof. by intros <-. Qed.

(** What the region under the reader lock leaves behind. *)
Lemma casLoad_wf w sid p :
  wf w → sessions w !! sid = Some p →
  ∃ s ts c qs w1,
    sessionObjs w !! p = Some s
    ∧ loadThoughts w (ThinkingSession.Thoughts s) = Some ts
    ∧ casLoad sid w = Done (inr (c, ThinkingSession.Version s)) w1
    ∧ sessionObjs w !! c = None
    ∧ p ≠ c
    ∧ sessionObjs w1 = <[c := ThinkingSession.set_Thoughts qs s]> (sessionObjs w)
    ∧ sessions w1 = sessions w
    ∧ ticks w1 = ticks w ∧ timeline w1 = timeline w
    ∧ draws w1 = draws w ∧ entropy w1 = entropy w
    ∧ loadThoughts w1 qs = Some ts
    ∧ NoDup qs
    ∧ Forall (λ q, thoughtObjs w !! q = None) qs
    ∧ extends w w1
    ∧ wf w1.
Proof.
  intros Hwf Hp. pose proof Hwf as [Hmap Hobj].
  destruct (Hmap _ _ Hp) as [s Hs].
  destruct (wf_loadSession _ _ _ Hwf Hs) as (ts & Hts & _).
  destruct (casLoad_spec _ _ _ _ _ Hp Hs Hts)
    as (c & qs & w1 & Hrun & Hc & Hobjs & Hsess & Htk & Htl & Hdr & Hen & Hsub & Hqs & Hnd & Hnew).
  assert (Hne : p ≠ c) by congruence.
  assert (Hext : extends w w1).
  { split; [done|]. rewrite Hobjs. by apply insert_subseteq. }
  exists s, ts, c, qs, w1. repeat (split; [done|]).
  apply (wf_grow w); [done|done| |].
  - intros id q Hq. rewrite Hsess in Hq. destruct (Hmap _ _ Hq) as [x Hx].
    exists x. destruct Hext as [_ HS]. by eapply lookup_weaken.
  - intros q s' Hq Hq0. rewrite Hobjs in Hq.
    apply lookup_insert_Some in Hq as [[<- <-]|[_ Hq]]; [|congruence].
    destruct (Hobj _ _ Hs) as (_ & Hl1 & Hl2).
    eapply loadThoughts_slices_ok; [exact Hqs| |done].
    unfold len in *. rewrite (loadThoughts_length _ _ _ Hts). done.
Qed.

Lemma loadSession_intro w p (s : ThinkingSession.obj) ts :
  sessionObjs w !! p = Some s →
  loadThoughts w (ThinkingSession.Thoughts s) = Some ts →
  loadSession w p = Some (ThinkingSession.set_Thoughts ts s).
Proof. intros Hs Hts. unfold loadSession. rewrite Hs. cbn. by rewrite Hts. Qed.

Lemma stored_intro w id p v :
  sessions w !! id = Some p → loadSession w p = Some v → stored w id = Some v.
Proof. intros Hp Hv. unfold stored. by rewrite Hp. Qed.

(** ** Claim C3: a round of [CompareAndSwap] commits fully or not at all *)

(** C3.  For an update function that keeps to its copy and a session the
    store holds: [CompareAndSwap] clones the session once and calls the
    update function once on the clone.  If that call fails, its error is
    the result, the world is the one the call left (nothing runs after it:
    no retry, no write), and every stored session, the version included, is
    what it was.  If it succeeds, the store holds under that id what the
    call returned, with the version set to the baseline plus one (in [int]
    arithmetic), and no other id changes.  Any result the loop gives is one
    of these two, for any amount of fuel. *)
Theorem CompareAndSwap_all_or_nothing {X} fuel sessionID
    (updateFunc : loc → M (error + loc * X)) w v :
  wf w → local updateFunc → stored w sessionID = Some v →
  ∃ sessionCopy w1,
    casLoad sessionID w = Done (inr (sessionCopy, ThinkingSession.Version v)) w1
    ∧ loadSession w1 sessionCopy = Some v
    ∧ (∀ err w2, updateFunc sessionCopy w1 = Done (inl err) w2 →
         CompareAndSwap (S fuel) sessionID updateFunc w = Done (inl err) w2
         ∧ sessions w2 = sessions w
         ∧ ∀ id, stored w2 id = stored w id)
    ∧ (∀ updated x w2, updateFunc sessionCopy w1 = Done (inr (updated, x)) w2 →
         is_Some (sessionObjs w2 !! updated) →
         ∃ w', CompareAndSwap (S fuel) sessionID updateFunc w = Done (inr x) w'
           ∧ stored w' sessionID =
               ThinkingSession.set_Version (wrap (ThinkingSession.Version v + 1))
                 <$> loadSession w2 updated
           ∧ ∀ id, id ≠ sessionID → stored w' id = stored w id)
    ∧ (∀ r w', CompareAndSwap (S fuel) sessionID updateFunc w = Done r w' →
         match r with
         | inl err => updateFunc sessionCopy w1 = Done (inl err) w'
         | inr x => ∃ updated w2,
             updateFunc sessionCopy w1 = Done (inr (updated, x)) w2
             ∧ is_Some (sessionObjs w2 !! updated)
         end).
Proof.
  intros Hwf Hloc Hv.
  destruct (stored_inv _ _ _ Hv) as (p & s & ts & Hp & Hs & Hts & ->).
  destruct (casLoad_wf _ _ _ Hwf Hp)
    as (s' & ts' & c & qs & w1 & Hs' & Hts' & Hload & Hc & Hne & Hobjs & Hsess
        & _ & _ & _ & _ & Hqs & Hnd & Hnew & Hext & Hwf1).
  assert (s' = s) as -> by congruence. assert (ts' = ts) as -> by congruence.
  assert (Hc1 : sessionObjs w1 !! c = Some (ThinkingSession.set_Thoughts qs s)).
  { rewrite Hobjs. apply lookup_insert_eq. }
  assert (Hp1 : sessionObjs w1 !! p = Some s).
  { rewrite Hobjs. by rewrite lookup_insert_ne. }
  assert (Hround := CompareAndSwap_round fuel sessionID updateFunc w c w1 p s _
                      Hloc Hload ltac:(by rewrite Hsess) Hp1 Hc1 Hne).
  exists c, w1. split; [exact Hload|]. split.
  { by apply (loadSession_intro w1 c (ThinkingSession.set_Thoughts qs s) ts). }
  split; [|split].
  - intros err w2 Hf. rewrite Hround, Hf. split; [done|].
    destruct Hext as [HextT HextS].
    destruct (local_extends _ _ _ _ _ _ _ _ Hloc Hc Hobjs HextT Hnew Hf) as [Hext2 Hsess2].
    split; [congruence|]. intros id. apply stored_frame; [done|done|congruence].
  - intros u x w2 Hf [su Hu]. rewrite Hround, Hf, Hu. eexists. split; [done|].
    destruct Hext as [HextT HextS].
    destruct (local_extends _ _ _ _ _ _ _ _ Hloc Hc Hobjs HextT Hnew Hf) as [Hext2 Hsess2].
    split.
    + unfold stored. wsimpl. rewrite lookup_insert_eq. cbn.
      unfold loadSession. wsimpl. rewrite lookup_insert_eq, Hu. cbn.
      unfold loadThoughts. wsimpl.
      by destruct (mapM _ (ThinkingSession.Thoughts su)).
    + intros id Hid. apply stored_frame; [done| |].
      * destruct Hext2 as [HT HS]. split; [done|]. wsimpl.
        apply insert_subseteq_r; [|done].
        destruct (Hloc _ _ _ _ _ Hc1 Hf) as (_ & _ & _ & Hret).
        destruct (Hret u x eq_refl) as [->|Hu1]; [done|].
        destruct (sessionObjs w !! u) as [y|] eqn:Hy; [|done].
        rewrite (lookup_weaken _ _ _ _ Hy HextS) in Hu1. done.
      * wsimpl. rewrite lookup_insert_ne by done. congruence.
  - intros r w' Hrun. rewrite Hround in Hrun.
    destruct (updateFunc c w1) as [[err|[u x]] w2| |]; [| |done|done].
    + by injection Hrun as <- <-.
    + destruct (sessionObjs w2 !! u) as [su|] eqn:Hu; [|done].
      injection Hrun as <- <-. eauto.
Qed.

(** ** The handlers, one path at a time *)

Lemma ContinueThinking_not_found fuel args w :
  sessions w !! ContinueThinkingArgs.SessionID args = None →
  ContinueThinking (S fuel) args w
  = Done (inl (ErrSessionNotFound (ContinueThinkingArgs.SessionID args))) w.
Proof.
  intros Hp. unfold ContinueThinking.
  destruct (ContinueThinkingArgs.ReviseStep args) as [step|];
    [|destruct (ContinueThinkingArgs.CreateBranch args)];
    (erewrite bind_Done; [|by apply CompareAndSwap_not_found]); done.
Qed.

Lemma ContinueThinking_append fuel args w v :
  wf w →
  ContinueThinkingArgs.ReviseStep args = None →
  ContinueThinkingArgs.CreateBranch args = false →
  stored w (ContinueThinkingArgs.SessionID args) = Some v →
  len (ThinkingSession.Thoughts v) < max_int →
  ∃ text w',
    ContinueThinking (S fuel) args w = Done (inr text) w'
    ∧ wf w' ∧ extends w w'
    ∧ (∀ id, id ≠ ContinueThinkingArgs.SessionID args →
             sessions w' !! id = sessions w !! id)
    ∧ stored w' (ContinueThinkingArgs.SessionID args) =
        Some {| ThinkingSession.ID := ThinkingSession.ID v;
                ThinkingSession.Problem := ThinkingSession.Problem v;
                ThinkingSession.Thoughts :=
                  ThinkingSession.Thoughts v ++
                    [ {| Thought.Index := len (ThinkingSession.Thoughts v) + 1;
                         Thought.Content := ContinueThinkingArgs.Thought args;
                         Thought.Created := timeline w (ticks w);
                         Thought.Revised := false;
                         Thought.ParentIndex := None |} ];
                ThinkingSession.CurrentThought := len (ThinkingSession.Thoughts v) + 1;
                ThinkingSession.EstimatedTotal :=
                  if decide (ContinueThinkingArgs.EstimatedTotal args > 0)
                  then ContinueThinkingArgs.EstimatedTotal args
                  else ThinkingSession.EstimatedTotal v;
                ThinkingSession.Status :=
                  match ContinueThinkingArgs.NextNeeded args with
                  | Some false => "completed"
                  | _ => ThinkingSession.Status v
                  end;
                ThinkingSession.Created := ThinkingSession.Created v;
                ThinkingSession.LastActivity := timeline w (S (ticks w));
                ThinkingSession.Branches := ThinkingSession.Branches v;
                ThinkingSession.Version := wrap (ThinkingSession.Version v + 1) |}.
Proof.
  intros Hwf Hrev Hbr Hv Hlen.
  set (sid := ContinueThinkingArgs.SessionID args) in *.
  destruct (stored_inv _ _ _ Hv) as (p & s & ts & Hp & Hs & Hts & ->).
  destruct (casLoad_wf _ _ _ Hwf Hp)
    as (s' & ts' & c & qs & w1 & Hs' & Hts' & Hload & Hc & Hne & Hobjs & Hsess
        & Htk & Htl & _ & _ & Hqs & Hnd & Hnew & [HextT HextS] & Hwf1).
  assert (s' = s) as -> by congruence. assert (ts' = ts) as -> by congruence.
  cbn [ThinkingSession.set_Thoughts ThinkingSession.Thoughts] in Hlen.
  assert (Hc1 : sessionObjs w1 !! c = Some (ThinkingSession.set_Thoughts qs s)).
  { rewrite Hobjs. apply lookup_insert_eq. }
  assert (Hp1 : sessionObjs w1 !! p = Some s).
  { rewrite Hobjs. by rewrite lookup_insert_ne. }
  assert (Hlenq : len qs = len ts).
  { unfold len. by rewrite <- (loadThoughts_length _ _ _ Hqs). }
  destruct (appendUpdate_run args c w1 _ Hc1) as (progress & statusMsg & Hrun).
  { cbn. lia. }
  cbn [ThinkingSession.set_Thoughts ThinkingSession.Thoughts ThinkingSession.ID
       ThinkingSession.Problem ThinkingSession.EstimatedTotal ThinkingSession.Status
       ThinkingSession.Created ThinkingSession.Branches ThinkingSession.Version] in Hrun.
  rewrite Hlenq, Htk, Htl in Hrun.
  set (t := fresh (dom (thoughtObjs w1))) in *.
  assert (Ht : thoughtObjs w1 !! t = None) by apply fresh_thought_None.
  pose proof (CompareAndSwap_round fuel sid (appendUpdate args) w c w1 p s _
                (appendUpdate_local args) Hload ltac:(by rewrite Hsess) Hp1 Hc1 Hne) as Hround.
  rewrite Hrun in Hround. wsimpl in Hround. rewrite lookup_insert_eq in Hround.
  unfold ContinueThinking. rewrite Hrev, Hbr. fold sid.
  erewrite bind_Done; [|exact Hround]. unfold ret. eexists _, _. split; [reflexivity|].
  wnorm. cbn [ThinkingSession.set_Version ThinkingSession.ID
       ThinkingSession.Problem ThinkingSession.EstimatedTotal ThinkingSession.Status
       ThinkingSession.Created ThinkingSession.Branches ThinkingSession.Version
       ThinkingSession.Thoughts ThinkingSession.CurrentThought ThinkingSession.LastActivity].
  rewrite Hobjs, Hsess, insert_insert_eq.
  assert (HsubT : thoughtObjs w ⊆
            <[t := {| Thought.Index := len ts + 1;
                      Thought.Content := ContinueThinkingArgs.Thought args;
                      Thought.Created := timeline w (ticks w);
                      Thought.Revised := false;
                      Thought.ParentIndex := None |}]> (thoughtObjs w1)).
  { etrans; [exact HextT|]. by apply insert_subseteq. }
  match goal with |- wf ?W ∧ _ => set (w3 := W) end.
  assert (Hl3 : loadThoughts w3 (qs ++ [t]) =
                Some (ts ++ [ {| Thought.Index := len ts + 1;
                      Thought.Content := ContinueThinkingArgs.Thought args;
                      Thought.Created := timeline w (ticks w);
                      Thought.Revised := false;
                      Thought.ParentIndex := None |} ])).
  { apply loadThoughts_app.
    - eapply loadThoughts_weaken; [|exact Hqs]. unfold w3. wsimpl. by apply insert_subseteq.
    - unfold loadThoughts, w3. wsimpl. cbn. by rewrite lookup_insert_eq. }
  assert (Hext3 : extends w w3).
  { split; [exact HsubT|]. unfold w3. wsimpl. by apply insert_subseteq. }
  split; [|split; [exact Hext3|split]].
  - apply (wf_grow w); [done|done| |].
    + intros id q Hq. unfold w3 in *. wsimpl. wsimpl in Hq.
      apply lookup_insert_Some in Hq as [[_ <-]|[_ Hq]].
      * rewrite lookup_insert_eq. eauto.
      * destruct Hwf as [Hmap _]. destruct (Hmap _ _ Hq) as [y Hy].
        exists y. rewrite lookup_insert_ne; [done|congruence].
    + intros q s' Hq Hq0. unfold w3 in Hq. wsimpl in Hq.
      apply lookup_insert_Some in Hq as [[<- <-]|[_ Hq]]; [|congruence].
      eapply loadThoughts_slices_ok; [exact Hl3| |].
      * rewrite len_app. cbn. unfold len at 2. cbn. lia.
      * cbn. destruct Hwf as [_ Hobj]. by destruct (Hobj _ _ Hs) as (_ & _ & ?).
  - intros id Hid. unfold w3. wsimpl. by rewrite lookup_insert_ne.
  - eapply stored_intro; [unfold w3; wsimpl; apply lookup_insert_eq|].
    erewrite loadSession_intro; [|unfold w3; wsimpl; apply lookup_insert_eq|exact Hl3].
    reflexivity.
Qed.

Lemma mapM_insert_NoDup {A} (h : gmap positive A) qs : ∀ i t y ts,
  NoDup qs → qs !! i = Some t →
  mapM (λ q, h !! q) qs = Some ts →
  mapM (λ q, <[t := y]> h !! q) qs = Some (<[i := y]> ts).
Proof.
  induction qs as [|q qs IH]; intros i t y ts Hnd Hi Hm; [done|].
  apply mapM_Some in Hm. destruct ts as [|x ts]; [by inversion Hm|].
  apply Forall2_cons in Hm as [Hq Hm]. apply mapM_Some in Hm.
  apply NoDup_cons in Hnd as [Hnin Hnd].
  apply mapM_Some. destruct i as [|i]; cbn in Hi.
  - injection Hi as ->. cbn. apply Forall2_cons. split; [apply lookup_insert_eq|].
    apply mapM_Some. rewrite <- Hm. apply Forall_mapM_ext.
    apply Forall_forall. intros q' Hq'. apply lookup_insert_ne. congruence.
  - cbn. apply Forall2_cons. split.
    + rewrite lookup_insert_ne; [done|]. intros ->.
      apply Hnin. by eapply list_elem_of_lookup_2.
    + apply mapM_Some. by apply IH.
Qed.

Lemma mapM_lookup_Some {A B} (f : A → option B) l k i y :
  mapM f l = Some k → k !! i = Some y → ∃ x, l !! i = Some x ∧ f x = Some y.
Proof.
  intros Hm Hy. apply mapM_Some in Hm.
  destruct (Forall2_lookup_r _ _ _ _ _ Hm Hy) as (x & Hx & Hf). eauto.
Qed.

Lemma ContinueThinking_revise fuel args step w v x :
  wf w →
  ContinueThinkingArgs.ReviseStep args = Some step →
  stored w (ContinueThinkingArgs.SessionID args) = Some v →
  0 ≤ wrap (step - 1) < len (ThinkingSession.Thoughts v) →
  ThinkingSession.Thoughts v !! Z.to_nat (wrap (step - 1)) = Some x →
  ∃ text w',
    ContinueThinking (S fuel) args w = Done (inr text) w'
    ∧ wf w' ∧ extends w w'
    ∧ (∀ id, id ≠ ContinueThinkingArgs.SessionID args →
             sessions w' !! id = sessions w !! id)
    ∧ stored w' (ContinueThinkingArgs.SessionID args) =
        Some (ThinkingSession.set_Version (wrap (ThinkingSession.Version v + 1))
               (ThinkingSession.set_LastActivity (timeline w (ticks w))
                 (ThinkingSession.set_Thoughts
                    (<[Z.to_nat (wrap (step - 1)) :=
                         {| Thought.Index := Thought.Index x;
                            Thought.Content := ContinueThinkingArgs.Thought args;
                            Thought.Created := Thought.Created x;
                            Thought.Revised := true;
                            Thought.ParentIndex := Thought.ParentIndex x |}]>
                       (ThinkingSession.Thoughts v)) v))).
Proof.
  intros Hwf Hrev Hv Hstep Hx.
  set (sid := ContinueThinkingArgs.SessionID args) in *.
  destruct (stored_inv _ _ _ Hv) as (p & s & ts & Hp & Hs & Hts & ->).
  destruct (casLoad_wf _ _ _ Hwf Hp)
    as (s' & ts' & c & qs & w1 & Hs' & Hts' & Hload & Hc & Hne & Hobjs & Hsess
        & Htk & Htl & _ & _ & Hqs & Hnd & Hnew & [HextT HextS] & Hwf1).
  assert (s' = s) as -> by congruence. assert (ts' = ts) as -> by congruence.
  cbn [ThinkingSession.set_Thoughts ThinkingSession.Thoughts] in Hstep, Hx.
  assert (Hc1 : sessionObjs w1 !! c = Some (ThinkingSession.set_Thoughts qs s)).
  { rewrite Hobjs. apply lookup_insert_eq. }
  assert (Hp1 : sessionObjs w1 !! p = Some s).
  { rewrite Hobjs. by rewrite lookup_insert_ne. }
  assert (Hlenq : len qs = len ts).
  { unfold len. by rewrite <- (loadThoughts_length _ _ _ Hqs). }
  destruct (mapM_lookup_Some _ _ _ _ _ Hqs Hx) as (t & Ht & Htx).
  assert (Hlents : len ts ≤ max_int).
  { destruct Hwf as [_ Hobj]. destruct (Hobj _ _ Hs) as (_ & Hl & _).
    unfold len in *. by rewrite (loadThoughts_length _ _ _ Hts). }
  pose proof (reviseUpdate_valid args step c w1 _ t x Hc1
                ltac:(cbn; lia) Ht Htx) as Hrun.
  rewrite Htk, Htl in Hrun.
  pose proof (CompareAndSwap_round fuel sid (reviseUpdate args step) w c w1 p s _
                (reviseUpdate_local args step) Hload ltac:(by rewrite Hsess) Hp1 Hc1 Hne)
    as Hround.
  rewrite Hrun in Hround. wsimpl in Hround. rewrite lookup_insert_eq in Hround.
  unfold ContinueThinking. rewrite Hrev. fold sid.
  erewrite bind_Done; [|exact Hround]. unfold ret. eexists _, _. split; [reflexivity|].
  wnorm. rewrite Hobjs, Hsess, insert_insert_eq.
  assert (HtNone : thoughtObjs w !! t = None).
  { rewrite Forall_forall in Hnew. apply Hnew. by eapply list_elem_of_lookup_2. }
  match goal with |- wf ?W ∧ _ => set (w3 := W) end.
  assert (Hl3 : loadThoughts w3 qs =
                Some (<[Z.to_nat (wrap (step - 1)) :=
                         {| Thought.Index := Thought.Index x;
                            Thought.Content := ContinueThinkingArgs.Thought args;
                            Thought.Created := Thought.Created x;
                            Thought.Revised := true;
                            Thought.ParentIndex := Thought.ParentIndex x |}]> ts)).
  { unfold loadThoughts, w3. wsimpl. by apply mapM_insert_NoDup. }
  assert (Hext3 : extends w w3).
  { split; unfold w3; wsimpl.
    - by apply insert_subseteq_r.
    - by apply insert_subseteq. }
  split; [|split; [exact Hext3|split]].
  - apply (wf_grow w); [done|done| |].
    + intros id q Hq. unfold w3 in *. wsimpl. wsimpl in Hq.
      apply lookup_insert_Some in Hq as [[_ <-]|[_ Hq]].
      * rewrite lookup_insert_eq. eauto.
      * destruct Hwf as [Hmap _]. destruct (Hmap _ _ Hq) as [y Hy].
        exists y. rewrite lookup_insert_ne; [done|congruence].
    + intros q s' Hq Hq0. unfold w3 in Hq. wsimpl in Hq.
      apply lookup_insert_Some in Hq as [[<- <-]|[_ Hq]]; [|congruence].
      eapply loadThoughts_slices_ok; [exact Hl3| |].
      * unfold len in *. by rewrite length_insert.
      * cbn. destruct Hwf as [_ Hobj]. by destruct (Hobj _ _ Hs) as (_ & _ & ?).
  - intros id Hid. unfold w3. wsimpl. by rewrite lookup_insert_ne.
  - eapply stored_intro; [unfold w3; wsimpl; apply lookup_insert_eq|].
    erewrite loadSession_intro; [|unfold w3; wsimpl; apply lookup_insert_eq|exact Hl3].
    reflexivity.
Qed.

Lemma ContinueThinking_revise_invalid fuel args step w v :
  wf w →
  ContinueThinkingArgs.ReviseStep args = Some step →
  stored w (ContinueThinkingArgs.SessionID args) = Some v →
  ¬ (0 ≤ wrap (step - 1) < len (ThinkingSession.Thoughts v)) →
  ∃ w',
    ContinueThinking (S fuel) args w = Done (inl (ErrInvalidStep step)) w'
    ∧ wf w' ∧ extends w w' ∧ sessions w' = sessions w.
Proof.
  intros Hwf Hrev Hv Hstep.
  set (sid := ContinueThinkingArgs.SessionID args) in *.
  destruct (stored_inv _ _ _ Hv) as (p & s & ts & Hp & Hs & Hts & ->).
  destruct (casLoad_wf _ _ _ Hwf Hp)
    as (s' & ts' & c & qs & w1 & Hs' & Hts' & Hload & Hc & Hne & Hobjs & Hsess
        & Htk & Htl & _ & _ & Hqs & Hnd & Hnew & Hext & Hwf1).
  assert (s' = s) as -> by congruence. assert (ts' = ts) as -> by congruence.
  cbn [ThinkingSession.set_Thoughts ThinkingSession.Thoughts] in Hstep.
  assert (Hc1 : sessionObjs w1 !! c = Some (ThinkingSession.set_Thoughts qs s)).
  { rewrite Hobjs. apply lookup_insert_eq. }
  assert (Hp1 : sessionObjs w1 !! p = Some s).
  { rewrite Hobjs. by rewrite lookup_insert_ne. }
  assert (Hlenq : len qs = len ts).
  { unfold len. by rewrite <- (loadThoughts_length _ _ _ Hqs). }
  assert (Hlents : len ts ≤ max_int).
  { destruct Hwf as [_ Hobj]. destruct (Hobj _ _ Hs) as (_ & Hl & _).
    unfold len in *. by rewrite (loadThoughts_length _ _ _ Hts). }
  pose proof (reviseUpdate_invalid args step c w1 _ Hc1 ltac:(cbn; lia)) as Hrun.
  pose proof (CompareAndSwap_round fuel sid (reviseUpdate args step) w c w1 p s _
                (reviseUpdate_local args step) Hload ltac:(by rewrite Hsess) Hp1 Hc1 Hne)
    as Hround.
  rewrite Hrun in Hround.
  exists w1. split; [|done].
  unfold ContinueThinking. rewrite Hrev. fold sid.
  erewrite bind_Done; [|exact Hround]. done.
Qed.

Lemma SetSession_run w session s :
  sessionObjs w !! session = Some s →
  SetSession session w = Done () (upd_sessions <[ThinkingSession.ID s := session]> w).
Proof. intros Hs. unfold SetSession, bind, readSession. by rewrite Hs. Qed.

(** ** Branch ids *)

Lemma string_app_empty_r (s : string) : s +:+ "" = s.
Proof.
  induction s as [|a s IH]; [done|].
  change (String a (s +:+ "") = String a s). by f_equal.
Qed.

Lemma branch_id_ne (sid : string) (n : Z) :
  sid +:+ "_branch_" +:+ pretty n ≠ sid.
Proof.
  intros H. rewrite <- (string_app_empty_r sid) in H at 2.
  apply (inj (String.app sid)) in H. done.
Qed.

Lemma branch_id_inj (sid : string) (n m : Z) :
  sid +:+ "_branch_" +:+ pretty n = sid +:+ "_branch_" +:+ pretty m → n = m.
Proof.
  intros H. apply (inj (String.app sid)) in H.
  apply (inj (String.app "_branch_")) in H. by apply (inj pretty) in H.
Qed.

Lemma ContinueThinking_branch fuel args w v :
  wf w →
  ContinueThinkingArgs.ReviseStep args = None →
  ContinueThinkingArgs.CreateBranch args = true →
  stored w (ContinueThinkingArgs.SessionID args) = Some v →
  len (ThinkingSession.Branches v) < max_int →
  let branchID :=
    ContinueThinkingArgs.SessionID args +:+ "_branch_"
      +:+ pretty (len (ThinkingSession.Branches v) + 1) in
  ∃ text w' pc pb oc ob,
    ContinueThinking (S fuel) args w = Done (inr text) w'
    ∧ wf w' ∧ extends w w'
    ∧ (∀ id, id ≠ ContinueThinkingArgs.SessionID args → id ≠ branchID →
             sessions w' !! id = sessions w !! id)
    ∧ stored w' (ContinueThinkingArgs.SessionID args) =
        Some (ThinkingSession.set_Version (wrap (ThinkingSession.Version v + 1))
               (ThinkingSession.set_LastActivity (timeline w (ticks w))
                 (ThinkingSession.set_Branches
                    (ThinkingSession.Branches v ++ [branchID]) v)))
    ∧ stored w' branchID =
        Some {| ThinkingSession.ID := branchID;
                ThinkingSession.Problem :=
                  ThinkingSession.Problem v +:+ " (Alternative branch)";
                ThinkingSession.Thoughts := ThinkingSession.Thoughts v;
                ThinkingSession.CurrentThought := len (ThinkingSession.Thoughts v);
                ThinkingSession.EstimatedTotal := ThinkingSession.EstimatedTotal v;
                ThinkingSession.Status := "active";
                ThinkingSession.Created := timeline w (S (ticks w));
                ThinkingSession.LastActivity := timeline w (S (S (ticks w)));
                ThinkingSession.Branches := [];
                ThinkingSession.Version := 0 |}
    ∧ sessions w' !! ContinueThinkingArgs.SessionID args = Some pc
    ∧ sessions w' !! branchID = Some pb
    ∧ sessionObjs w' !! pc = Some oc
    ∧ sessionObjs w' !! pb = Some ob
    ∧ pc ≠ pb
    ∧ (∀ t, t ∈ ThinkingSession.Thoughts oc → t ∉ ThinkingSession.Thoughts ob).
Proof.
  intros Hwf Hrev Hbr Hv Hlen branchID.
  set (sid := ContinueThinkingArgs.SessionID args) in *.
  destruct (stored_inv _ _ _ Hv) as (p & s & ts & Hp & Hs & Hts & ->).
  destruct (casLoad_wf _ _ _ Hwf Hp)
    as (s' & ts' & c & qs & w1 & Hs' & Hts' & Hload & Hc & Hne & Hobjs & Hsess
        & Htk & Htl & _ & _ & Hqs & Hnd & Hnew & [HextT HextS] & Hwf1).
  assert (s' = s) as -> by congruence. assert (ts' = ts) as -> by congruence.
  cbn [ThinkingSession.set_Thoughts ThinkingSession.Branches] in Hlen, branchID.
  assert (Hc1 : sessionObjs w1 !! c = Some (ThinkingSession.set_Thoughts qs s)).
  { rewrite Hobjs. apply lookup_insert_eq. }
  assert (Hp1 : sessionObjs w1 !! p = Some s).
  { rewrite Hobjs. by rewrite lookup_insert_ne. }
  assert (Hlenq : len qs = len ts).
  { unfold len. by rewrite <- (loadThoughts_length _ _ _ Hqs). }
  assert (Hlents : len ts ≤ max_int).
  { destruct Hwf as [_ Hobj]. destruct (Hobj _ _ Hs) as (_ & Hl & _).
    unfold len in *. by rewrite (loadThoughts_length _ _ _ Hts). }
  pose proof (branchUpdate_run args c w1 _ Hc1 Hlen) as Hrun. cbv zeta in Hrun.
  cbn [ThinkingSession.set_Thoughts ThinkingSession.Thoughts ThinkingSession.ID
       ThinkingSession.Problem ThinkingSession.EstimatedTotal ThinkingSession.Status
       ThinkingSession.Created ThinkingSession.Branches ThinkingSession.Version
       ThinkingSession.set_Branches ThinkingSession.set_LastActivity
       ThinkingSession.CurrentThought ThinkingSession.LastActivity] in Hrun.
  fold sid in Hrun. fold branchID in Hrun. rewrite Hlenq, Htk, Htl, Hsess in Hrun.
  match type of Hrun with
  | context [deepCopyThoughts qs ?W] => set (w1' := W) in *
  end.
  destruct (deepCopyThoughts_spec qs w1' ts Hqs)
    as (qs2 & h & Hcopy & Hsub2 & Hqs2 & Hnd2 & Hnew2 & _).
  rewrite Hcopy in Hrun. unfold w1' in Hrun, Hsub2, Hnew2.
  unfold upd_thoughtObjs in Hrun. wsimpl in Hrun. wsimpl in Hsub2.
  match type of Hrun with
  | context [fresh ?D] => set (b := fresh D) in *
  end.
  assert (sessionObjs w1 !! b = None ∧ c ≠ b) as [Hb1 Hbc].
  { pose proof (is_fresh (dom (<[c:={|
             ThinkingSession.ID := ThinkingSession.ID s;
             ThinkingSession.Problem := ThinkingSession.Problem s;
             ThinkingSession.Thoughts := qs;
             ThinkingSession.CurrentThought := ThinkingSession.CurrentThought s;
             ThinkingSession.EstimatedTotal := ThinkingSession.EstimatedTotal s;
             ThinkingSession.Status := ThinkingSession.Status s;
             ThinkingSession.Created := ThinkingSession.Created s;
             ThinkingSession.LastActivity := timeline w (ticks w);
             ThinkingSession.Branches := ThinkingSession.Branches s ++ [branchID];
             ThinkingSession.Version := ThinkingSession.Version s
           |}]> (sessionObjs w1)))) as Hf.
    fold b in Hf. apply not_elem_of_dom in Hf.
    apply lookup_insert_None in Hf as [? ?]. done. }
  assert (Hb0 : sessionObjs w !! b = None).
  { destruct (sessionObjs w !! b) as [y|] eqn:Hy; [|done].
    by rewrite (lookup_weaken _ _ _ _ Hy HextS) in Hb1. }
  pose proof (CompareAndSwap_round fuel sid (branchUpdate args) w c w1 p s _
                (branchUpdate_local args) Hload ltac:(by rewrite Hsess) Hp1 Hc1 Hne)
    as Hround.
  rewrite Hrun in Hround. wsimpl in Hround.
  rewrite lookup_insert_ne in Hround by congruence.
  rewrite lookup_insert_eq in Hround.
  unfold upd_sessions, upd_sessionObjs in Hround. wsimpl in Hround.
  rewrite (insert_insert_ne _ c b) in Hround by done.
  rewrite insert_insert_eq, Hobjs, insert_insert_eq in Hround.
  unfold ContinueThinking. rewrite Hrev, Hbr. fold sid.
  erewrite bind_Done; [|exact Hround]. cbn beta iota.
  erewrite bind_Done; [|apply SetSession_run; wsimpl; apply lookup_insert_eq].
  unfold ret, upd_sessions. wsimpl.
  cbn [ThinkingSession.ID].
  eexists _, _, c, b, _, _. split; [reflexivity|].
  match goal with |- wf ?W ∧ _ => set (w4 := W) end.
  assert (Hc4 : sessionObjs w4 !! c = Some
     (ThinkingSession.set_Version (wrap (ThinkingSession.Version s + 1))
        (ThinkingSession.set_LastActivity (timeline w (ticks w))
           (ThinkingSession.set_Branches (ThinkingSession.Branches s ++ [branchID])
              (ThinkingSession.set_Thoughts qs s))))).
  { unfold w4. wsimpl. rewrite lookup_insert_ne by congruence. apply lookup_insert_eq. }
  assert (Hb4 : sessionObjs w4 !! b = Some
     {| ThinkingSession.ID := branchID;
        ThinkingSession.Problem := ThinkingSession.Problem s +:+ " (Alternative branch)";
        ThinkingSession.Thoughts := qs2;
        ThinkingSession.CurrentThought := len ts;
        ThinkingSession.EstimatedTotal := ThinkingSession.EstimatedTotal s;
        ThinkingSession.Status := "active";
        ThinkingSession.Created := timeline w (S (ticks w));
        ThinkingSession.LastActivity := timeline w (S (S (ticks w)));
        ThinkingSession.Branches := [];
        ThinkingSession.Version := 0 |}).
  { unfold w4. wsimpl. apply lookup_insert_eq. }
  assert (Hl4 : loadThoughts w4 qs = Some ts).
  { eapply loadThoughts_weaken; [|exact Hqs]. unfold w4. by wsimpl. }
  assert (Hl4' : loadThoughts w4 qs2 = Some ts) by exact Hqs2.
  assert (Hext4 : extends w w4).
  { split; unfold w4; wsimpl.
    - by etrans.
    - apply insert_subseteq_r; [done|]. by apply insert_subseteq. }
  assert (Hidne : branchID ≠ sid) by apply branch_id_ne.
  assert (Hsc : sessions w4 !! sid = Some c).
  { unfold w4. wsimpl. rewrite lookup_insert_ne by done. apply lookup_insert_eq. }
  assert (Hsb : sessions w4 !! branchID = Some b).
  { unfold w4. wsimpl. apply lookup_insert_eq. }
  split; [|split; [exact Hext4|split; [|split; [|split]]]].
  - apply (wf_grow w); [done|done| |].
    + intros id q Hq. unfold w4 in Hq. wsimpl in Hq.
      apply lookup_insert_Some in Hq as [[_ <-]|[_ Hq]]; [eauto|].
      apply lookup_insert_Some in Hq as [[_ <-]|[_ Hq]]; [eauto|].
      destruct Hwf as [Hmap _]. destruct (Hmap _ _ Hq) as [y Hy].
      exists y. destruct Hext4 as [_ HS4]. by eapply lookup_weaken.
    + intros q s' Hq Hq0. unfold w4 in Hq. wsimpl in Hq.
      apply lookup_insert_Some in Hq as [[<- <-]|[_ Hq]].
      { eapply loadThoughts_slices_ok; [exact Hl4'|done|]. cbn. unfold len, max_int. cbn. lia. }
      apply lookup_insert_Some in Hq as [[<- <-]|[_ Hq]]; [|congruence].
      eapply loadThoughts_slices_ok; [exact Hl4|done|].
      cbn. rewrite len_app. unfold len at 2. cbn. lia.
  - intros id Hid1 Hid2. unfold w4. wsimpl. by rewrite !lookup_insert_ne.
  - eapply stored_intro; [exact Hsc|].
    erewrite loadSession_intro; [|exact Hc4|exact Hl4]. reflexivity.
  - eapply stored_intro; [exact Hsb|].
    erewrite loadSession_intro; [|exact Hb4|exact Hl4'].
    cbn. unfold len. by rewrite (loadThoughts_length _ _ _ Hts).
  - split; [exact Hsc|]. split; [exact Hsb|]. split; [exact Hc4|]. split; [exact Hb4|].
    split; [done|]. cbn. intros t Ht Ht2.
    rewrite Forall_forall in Hnew2. specialize (Hnew2 _ Ht2). wsimpl in Hnew2.
    unfold loadThoughts in Hqs. apply mk_is_Some, mapM_is_Some in Hqs.
    rewrite Forall_forall in Hqs. destruct (Hqs _ Ht) as [y Hy]. cbn in Hy. congruence.
Qed.

Lemma StartThinking_run args w :
  let sessionID :=
    if decide (StartThinkingArgs.SessionID args = "") then entropy w (draws w)
    else StartThinkingArgs.SessionID args in
  let estimatedSteps :=
    if decide (StartThinkingArgs.EstimatedSteps args = 0) then 5
    else StartThinkingArgs.EstimatedSteps args in
  ∃ text,
    StartThinking args w =
      Done (inr text)
        (mkWorld (thoughtObjs w)
           (<[fresh (dom (sessionObjs w)) :=
                {| ThinkingSession.ID := sessionID;
                   ThinkingSession.Problem := StartThinkingArgs.Problem args;
                   ThinkingSession.Thoughts := [];
                   ThinkingSession.CurrentThought := 0;
                   ThinkingSession.EstimatedTotal := estimatedSteps;
                   ThinkingSession.Status := "active";
                   ThinkingSession.Created := timeline w (ticks w);
                   ThinkingSession.LastActivity := timeline w (S (ticks w));
                   ThinkingSession.Branches := [];
                   ThinkingSession.Version := 0 |}]> (sessionObjs w))
           (<[sessionID := fresh (dom (sessionObjs w))]> (sessions w))
           (S (S (ticks w))) (timeline w)
           (if decide (StartThinkingArgs.SessionID args = "") then S (draws w) else draws w)
           (entropy w)).
Proof.
  intros sessionID estimatedSteps. unfold StartThinking, SetSession.
  unfold sessionID. destruct (decide (StartThinkingArgs.SessionID args = "")) as [Hid|Hid];
    munfold; mrun; wnorm; eexists; reflexivity.
Qed.

Lemma StartThinking_spec args w :
  wf w →
  let sessionID :=
    if decide (StartThinkingArgs.SessionID args = "") then entropy w (draws w)
    else StartThinkingArgs.SessionID args in
  ∃ text w',
    StartThinking args w = Done (inr text) w'
    ∧ wf w' ∧ extends w w'
    ∧ (∀ id, id ≠ sessionID → sessions w' !! id = sessions w !! id)
    ∧ stored w' sessionID =
        Some {| ThinkingSession.ID := sessionID;
                ThinkingSession.Problem := StartThinkingArgs.Problem args;
                ThinkingSession.Thoughts := [];
                ThinkingSession.CurrentThought := 0;
                ThinkingSession.EstimatedTotal :=
                  if decide (StartThinkingArgs.EstimatedSteps args = 0) then 5
                  else StartThinkingArgs.EstimatedSteps args;
                ThinkingSession.Status := "active";
                ThinkingSession.Created := timeline w (ticks w);
                ThinkingSession.LastActivity := timeline w (S (ticks w));
                ThinkingSession.Branches := [];
                ThinkingSession.Version := 0 |}.
Proof.
  intros Hwf sessionID.
  destruct (StartThinking_run args w) as [text Hrun]. fold sessionID in Hrun.
  eexists _, _. split; [exact Hrun|].
  match goal with |- wf ?W ∧ _ => set (w' := W) end.
  pose proof (fresh_session_None w) as Hp.
  set (p := fresh (dom (sessionObjs w))) in *.
  assert (Hext : extends w w').
  { split; unfold w'; wsimpl; [done|]. by apply insert_subseteq. }
  split; [|split; [exact Hext|split]].
  - apply (wf_grow w); [done|done| |].
    + intros id q Hq. unfold w' in *. wsimpl. wsimpl in Hq.
      apply lookup_insert_Some in Hq as [[_ <-]|[_ Hq]].
      * rewrite lookup_insert_eq. eauto.
      * destruct Hwf as [Hmap _]. destruct (Hmap _ _ Hq) as [y Hy].
        exists y. rewrite lookup_insert_ne; [done|congruence].
    + intros q s' Hq Hq0. unfold w' in Hq. wsimpl in Hq.
      apply lookup_insert_Some in Hq as [[<- <-]|[_ Hq]]; [|congruence].
      split; [by constructor|]. cbn. unfold len, max_int. cbn. lia.
  - intros id Hid. unfold w'. wsimpl. by rewrite lookup_insert_ne.
  - eapply stored_intro; [unfold w'; wsimpl; apply lookup_insert_eq|].
    erewrite loadSession_intro; [|unfold w'; wsimpl; apply lookup_insert_eq|reflexivity].
    reflexivity.
Qed.

(** ** What a finished call says about where it started *)

Lemma appendUpdate_panic args c w sc :
  sessionObjs w !! c = Some sc →
  ¬ len (ThinkingSession.Thoughts sc) < max_int →
  appendUpdate args c w = Panic.
Proof.
  intros Hc Hlen. unfold appendUpdate. munfold. mrun. by rewrite decide_False.
Qed.

Lemma branchUpdate_panic args c w sc :
  sessionObjs w !! c = Some sc →
  ¬ len (ThinkingSession.Branches sc) < max_int →
  branchUpdate args c w = Panic.
Proof.
  intros Hc Hlen. unfold branchUpdate.
  erewrite bind_Done; [|unfold readSession; by rewrite Hc].
  unfold bind, append. by rewrite decide_False.
Qed.

Lemma ContinueThinking_out_of_fuel args w : ContinueThinking 0 args w = OutOfFuel.
Proof.
  unfold ContinueThinking.
  destruct (ContinueThinkingArgs.ReviseStep args);
    [|destruct (ContinueThinkingArgs.CreateBranch args)]; done.
Qed.

Lemma ContinueThinking_Done_inv fuel args w r w' :
  wf w →
  ContinueThinking fuel args w = Done r w' →
  ∃ fuel', fuel = S fuel'
    ∧ (sessions w !! ContinueThinkingArgs.SessionID args = None
       ∨ ∃ v, stored w (ContinueThinkingArgs.SessionID args) = Some v
           ∧ match ContinueThinkingArgs.ReviseStep args with
             | Some _ => True
             | None =>
                 if ContinueThinkingArgs.CreateBranch args
                 then len (ThinkingSession.Branches v) < max_int
                 else len (ThinkingSession.Thoughts v) < max_int
             end).
Proof.
  intros Hwf Hrun. destruct fuel as [|fuel].
  { by rewrite ContinueThinking_out_of_fuel in Hrun. }
  exists fuel. split; [done|].
  set (sid := ContinueThinkingArgs.SessionID args) in *.
  destruct (sessions w !! sid) as [p|] eqn:Hp; [right|by left].
  destruct (wf_stored _ _ _ Hwf Hp) as [v Hv]. exists v. split; [done|].
  destruct (ContinueThinkingArgs.ReviseStep args) as [step|] eqn:Hrev; [done|].
  destruct (stored_inv _ _ _ Hv) as (p' & s & ts & Hp' & Hs & Hts & ->).
  assert (p' = p) as -> by congruence.
  destruct (casLoad_wf _ _ _ Hwf Hp)
    as (s' & ts' & c & qs & w1 & Hs' & Hts' & Hload & Hc & Hne & Hobjs & Hsess
        & _ & _ & _ & _ & Hqs & _ & _ & _ & _).
  assert (s' = s) as -> by congruence. assert (ts' = ts) as -> by congruence.
  assert (Hc1 : sessionObjs w1 !! c = Some (ThinkingSession.set_Thoughts qs s)).
  { rewrite Hobjs. apply lookup_insert_eq. }
  assert (Hp1 : sessionObjs w1 !! p = Some s).
  { rewrite Hobjs. by rewrite lookup_insert_ne. }
  assert (Hlenq : len qs = len ts).
  { unfold len. by rewrite <- (loadThoughts_length _ _ _ Hqs). }
  unfold ContinueThinking in Hrun. rewrite Hrev in Hrun. fold sid in Hrun.
  destruct (ContinueThinkingArgs.CreateBranch args).
  - destruct (decide (len (ThinkingSession.Branches s) < max_int)) as [|Hlen]; [done|].
    exfalso. unfold bind at 1 in Hrun.
    rewrite (CompareAndSwap_round fuel sid (branchUpdate args) w c w1 p s _
               (branchUpdate_local args) Hload ltac:(by rewrite Hsess) Hp1 Hc1 Hne) in Hrun.
    by rewrite (branchUpdate_panic args c w1 _ Hc1 Hlen) in Hrun.
  - destruct (decide (len ts < max_int)) as [|Hlen]; [done|].
    exfalso. unfold bind at 1 in Hrun.
    rewrite (CompareAndSwap_round fuel sid (appendUpdate args) w c w1 p s _
               (appendUpdate_local args) Hload ltac:(by rewrite Hsess) Hp1 Hc1 Hne) in Hrun.
    rewrite (appendUpdate_panic args c w1 _ Hc1) in Hrun; [done|]. cbn. lia.
Qed.

(** ** Snapshots *)

Lemma SessionSnapshot_run w id v :
  stored w id = Some v →
  ∃ c sc w1,
    SessionSnapshot id w = Done (Some c) w1
    ∧ sessionObjs w !! c = None
    ∧ sessionObjs w1 = <[c := sc]> (sessionObjs w)
    ∧ sessions w1 = sessions w
    ∧ thoughtObjs w ⊆ thoughtObjs w1
    ∧ loadSession w1 c = Some v
    ∧ NoDup (ThinkingSession.Thoughts sc)
    ∧ Forall (λ t, thoughtObjs w !! t = None) (ThinkingSession.Thoughts sc).
Proof.
  intros Hv. destruct (stored_inv _ _ _ Hv) as (p & s & ts & Hp & Hs & Hts & ->).
  destruct (clone_spec _ _ _ _ Hs Hts) as (qs & h & Hrun & Hsub & Hmap & Hnd & Hnew).
  eexists _, (ThinkingSession.set_Thoughts qs s), _. split.
  { unfold SessionSnapshot. rewrite Hp. erewrite bind_Done; [|exact Hrun]. done. }
  wsimpl. split; [apply fresh_session_None|]. repeat (split; [done|]). split; [|done].
  apply (loadSession_intro _ _ (ThinkingSession.set_Thoughts qs s) ts).
  - wsimpl. apply lookup_insert_eq.
  - exact Hmap.
Qed.

Lemma SessionSnapshot_wf w id r w' :
  wf w → SessionSnapshot id w = Done r w' →
  wf w' ∧ extends w w' ∧ sessions w' = sessions w.
Proof.
  intros Hwf Hrun. destruct (sessions w !! id) as [p|] eqn:Hp.
  - destruct (wf_stored _ _ _ Hwf Hp) as [v Hv].
    destruct (SessionSnapshot_run _ _ _ Hv)
      as (c & sc & w1 & Hrun' & Hc & Hobjs & Hsess & Hsub & Hl & Hnd & Hnew).
    rewrite Hrun' in Hrun. injection Hrun as <- <-.
    assert (Hext : extends w w1).
    { split; [done|]. rewrite Hobjs. by apply insert_subseteq. }
    split; [|done].
    apply (wf_grow w); [done|done| |].
    + intros id' q Hq. rewrite Hsess in Hq. destruct Hwf as [Hmap _].
      destruct (Hmap _ _ Hq) as [y Hy]. exists y.
      destruct Hext as [_ HS]. by eapply lookup_weaken.
    + intros q s' Hq Hq0. rewrite Hobjs in Hq.
      apply lookup_insert_Some in Hq as [[<- <-]|[_ Hq]]; [|congruence].
      unfold loadSession in Hl. rewrite Hobjs, lookup_insert_eq in Hl. cbn in Hl.
      destruct (loadThoughts w1 (ThinkingSession.Thoughts sc)) as [ts|] eqn:Hts; [|done].
      injection Hl as <-.
      destruct (stored_inv _ _ _ Hv) as (p' & s & ts' & Hp' & Hs & Hts' & Heq).
      destruct Hwf as [_ Hobj]. destruct (Hobj _ _ Hs) as (_ & Hl1 & Hl2).
      assert (ThinkingSession.Branches sc = ThinkingSession.Branches s) as Hbr.
      { by injection Heq. }
      assert (ts = ts') as -> by (by injection Heq).
      eapply loadThoughts_slices_ok; [exact Hts| |by rewrite Hbr].
      unfold len in *. by rewrite (loadThoughts_length _ _ _ Hts').
  - unfold SessionSnapshot in Hrun. rewrite Hp in Hrun. injection Hrun as <- <-.
    split; [done|]. split; [apply extends_refl|done].
Qed.

(** ** The invariant of the store *)

Lemma wf_init timeline entropy : wf (NewSessionStore timeline entropy).
Proof. split; apply map_Forall_empty. Qed.

Lemma inv_init timeline entropy : inv (NewSessionStore timeline entropy).
Proof. split; [apply wf_init|]. intros id v Hv. done. Qed.

Lemma inv_update w w' :
  inv w → wf w' →
  (∀ id v', stored w' id = Some v' → stored w id = Some v' ∨ session_ok id v') →
  inv w'.
Proof.
  intros [Hwf Hok] Hwf' Hch. split; [done|]. intros id v' Hv'.
  destruct (Hch _ _ Hv') as [Hv|Hv]; [by eapply Hok|done].
Qed.

Lemma inv_same_store w w' :
  inv w → wf w' → extends w w' → sessions w' = sessions w → inv w'.
Proof.
  intros Hinv Hwf' Hext Hsess. apply (inv_update w); [done|done|].
  intros id v' Hv'. left. rewrite <- Hv'. symmetry.
  destruct Hinv as [Hwf _]. apply stored_frame; [done|done|by rewrite Hsess].
Qed.

Lemma StartThinking_inv args w r w' :
  inv w → StartThinking args w = Done r w' → inv w'.
Proof.
  intros Hinv Hrun. pose proof Hinv as [Hwf Hok].
  destruct (StartThinking_spec args w Hwf) as (text & w'' & Hrun' & Hwf' & Hext & Hfr & Hst).
  rewrite Hrun' in Hrun. injection Hrun as <- <-.
  apply (inv_update w); [done|done|]. intros id v' Hv'.
  match type of Hst with stored _ ?sid = _ => destruct (decide (id = sid)) as [->|Hne] end.
  - right. rewrite Hst in Hv'. injection Hv' as <-. split; [done|].
    intros i x Hx. done.
  - left. rewrite <- Hv'. symmetry. apply stored_frame; [done|done|by apply Hfr].
Qed.

Lemma session_ok_append id v x :
  session_ok id v →
  Thought.Index x = len (ThinkingSession.Thoughts v) + 1 →
  ∀ i y, (ThinkingSession.Thoughts v ++ [x]) !! i = Some y →
         Thought.Index y = Z.of_nat i + 1.
Proof.
  intros [_ Hidx] Hx i y Hy. apply lookup_app_Some in Hy as [Hy|[Hge Hy]].
  - by apply Hidx.
  - apply list_lookup_singleton_Some in Hy as [Hi ->].
    rewrite Hx. unfold len. lia.
Qed.

Lemma session_ok_insert id v i x y :
  session_ok id v →
  ThinkingSession.Thoughts v !! i = Some x →
  Thought.Index y = Thought.Index x →
  ∀ j z, <[i := y]> (ThinkingSession.Thoughts v) !! j = Some z →
         Thought.Index z = Z.of_nat j + 1.
Proof.
  intros [_ Hidx] Hx Hy j z Hz. destruct (decide (i = j)) as [<-|Hne].
  - rewrite list_lookup_insert_eq in Hz by (by eapply lookup_lt_Some).
    injection Hz as <-. rewrite Hy. by apply Hidx.
  - rewrite list_lookup_insert_ne in Hz by done. by apply Hidx.
Qed.

Lemma lookup_index_Some {A} (l : list A) (z : Z) :
  0 ≤ z < len l → is_Some (l !! Z.to_nat z).
Proof. intros Hz. apply lookup_lt_is_Some. unfold len in Hz. lia. Qed.

Lemma ContinueThinking_inv fuel args w r w' :
  inv w → ContinueThinking fuel args w = Done r w' → inv w'.
Proof.
  intros Hinv Hrun. pose proof Hinv as [Hwf Hok].
  destruct (ContinueThinking_Done_inv _ _ _ _ _ Hwf Hrun) as (fuel' & -> & Hcase).
  destruct Hcase as [Hnone|(v & Hv & Hmode)].
  { rewrite ContinueThinking_not_found in Hrun by done. by injection Hrun as <- <-. }
  pose proof (Hok _ _ Hv) as Hvok.
  destruct (ContinueThinkingArgs.ReviseStep args) as [step|] eqn:Hrev.
  - destruct (decide (0 ≤ wrap (step - 1) < len (ThinkingSession.Thoughts v))) as [Hstep|Hstep].
    + destruct (lookup_index_Some _ _ Hstep) as [x Hx].
      destruct (ContinueThinking_revise fuel' args step w v x Hwf Hrev Hv Hstep Hx)
        as (text & w'' & Hrun' & Hwf' & Hext & Hfr & Hst).
      rewrite Hrun' in Hrun. injection Hrun as <- <-.
      apply (inv_update w); [done|done|]. intros id v' Hv'.
      destruct (decide (id = ContinueThinkingArgs.SessionID args)) as [->|Hne].
      * right. rewrite Hst in Hv'. injection Hv' as <-. split; [apply Hvok|].
        cbn. by eapply session_ok_insert.
      * left. rewrite <- Hv'. symmetry. apply stored_frame; [done|done|by apply Hfr].
    + destruct (ContinueThinking_revise_invalid fuel' args step w v Hwf Hrev Hv Hstep)
        as (w'' & Hrun' & Hwf' & Hext & Hsess).
      rewrite Hrun' in Hrun. injection Hrun as <- <-. by eapply inv_same_store.
  - destruct (ContinueThinkingArgs.CreateBranch args) eqn:Hbr.
    + destruct (ContinueThinking_branch fuel' args w v Hwf Hrev Hbr Hv Hmode)
        as (text & w'' & pc & pb & oc & ob & Hrun' & Hwf' & Hext & Hfr & Hst & Hstb & _).
      rewrite Hrun' in Hrun. injection Hrun as <- <-.
      apply (inv_update w); [done|done|]. intros id v' Hv'.
      destruct (decide (id = ContinueThinkingArgs.SessionID args)) as [->|Hne].
      { right. rewrite Hst in Hv'. injection Hv' as <-. split; apply Hvok. }
      match type of Hstb with stored _ ?bid = _ => destruct (decide (id = bid)) as [->|Hne2] end.
      { right. rewrite Hstb in Hv'. injection Hv' as <-. split; [done|apply Hvok]. }
      left. rewrite <- Hv'. symmetry. apply stored_frame; [done|done|by apply Hfr].
    + destruct (ContinueThinking_append fuel' args w v Hwf Hrev Hbr Hv Hmode)
        as (text & w'' & Hrun' & Hwf' & Hext & Hfr & Hst).
      rewrite Hrun' in Hrun. injection Hrun as <- <-.
      apply (inv_update w); [done|done|]. intros id v' Hv'.
      destruct (decide (id = ContinueThinkingArgs.SessionID args)) as [->|Hne].
      * right. rewrite Hst in Hv'. injection Hv' as <-. split; [apply Hvok|].
        cbn. by eapply session_ok_append.
      * left. rewrite <- Hv'. symmetry. apply stored_frame; [done|done|by apply Hfr].
Qed.

Lemma SessionSnapshot_inv id w r w' :
  inv w → SessionSnapshot id w = Done r w' → inv w'.
Proof.
  intros Hinv Hrun. pose proof Hinv as [Hwf _].
  destruct (SessionSnapshot_wf _ _ _ _ Hwf Hrun) as (Hwf' & Hext & Hsess).
  by eapply inv_same_store.
Qed.

Lemma reachable_inv w : reachable w → inv w.
Proof.
  induction 1 as [| | |].
  - apply inv_init.
  - by eapply StartThinking_inv.
  - by eapply ContinueThinking_inv.
  - by eapply SessionSnapshot_inv.
Qed.

Lemma reachable_after_start args w :
  reachable w → reachable (after (StartThinking args) w).
Proof.
  intros Hw. unfold after. destruct (StartThinking args w) eqn:Hrun; [|done|done].
  by eapply reachable_start.
Qed.

Lemma reachable_after_continue fuel args w :
  reachable w → reachable (after (ContinueThinking fuel args) w).
Proof.
  intros Hw. unfold after. destruct (ContinueThinking fuel args w) eqn:Hrun; [|done|done].
  by eapply reachable_continue.
Qed.

Lemma reachable_w_two : reachable w_two.
Proof.
  unfold w_two, w_one, w_started.
  do 2 apply reachable_after_continue. apply reachable_after_start. constructor.
Qed.

Lemma wf_w_two : wf w_two.
Proof. apply reachable_inv, reachable_w_two. Qed.

(** A call that does not branch changes no other id. *)
Lemma ContinueThinking_frame_other fuel args w r w' :
  wf w →
  ContinueThinking fuel args w = Done r w' →
  is_Some (ContinueThinkingArgs.ReviseStep args)
    ∨ ContinueThinkingArgs.CreateBranch args = false →
  ∀ id, id ≠ ContinueThinkingArgs.SessionID args → stored w' id = stored w id.
Proof.
  intros Hwf Hrun Hmode id Hid.
  destruct (ContinueThinking_Done_inv _ _ _ _ _ Hwf Hrun) as (fuel' & -> & Hcase).
  destruct Hcase as [Hnone|(v & Hv & Hm)].
  { rewrite ContinueThinking_not_found in Hrun by done. by injection Hrun as <- <-. }
  destruct (ContinueThinkingArgs.ReviseStep args) as [step|] eqn:Hrev.
  - destruct (decide (0 ≤ wrap (step - 1) < len (ThinkingSession.Thoughts v))) as [Hstep|Hstep].
    + destruct (lookup_index_Some _ _ Hstep) as [x Hx].
      destruct (ContinueThinking_revise fuel' args step w v x Hwf Hrev Hv Hstep Hx)
        as (text & w'' & Hrun' & Hwf' & Hext & Hfr & Hst).
      rewrite Hrun' in Hrun. injection Hrun as <- <-.
      apply stored_frame; [done|done|by apply Hfr].
    + destruct (ContinueThinking_revise_invalid fuel' args step w v Hwf Hrev Hv Hstep)
        as (w'' & Hrun' & Hwf' & Hext & Hsess).
      rewrite Hrun' in Hrun. injection Hrun as <- <-.
      apply stored_frame; [done|done|by rewrite Hsess].
  - destruct Hmode as [[? ?]|Hbr]; [done|]. rewrite Hbr in Hm.
    destruct (ContinueThinking_append fuel' args w v Hwf Hrev Hbr Hv Hm)
      as (text & w'' & Hrun' & Hwf' & Hext & Hfr & Hst).
    rewrite Hrun' in Hrun. injection Hrun as <- <-.
    apply stored_frame; [done|done|by apply Hfr].
Qed.

(** * The claims *)

(** ** Claim C8: what [StartThinking] registers *)

(** C8.  Every call of [StartThinking] succeeds and registers, under the
    supplied session id (or, when that is empty, under the text drawn from
    [rand.Text]), a new session with status "active", no thoughts, no
    branches, version 0, the supplied problem, and as estimate the supplied
    one, or 5 when it is 0 (unspecified).  Whatever the store held under
    that id is replaced by the new session; every other id keeps its
    session.  [SetSession] itself stores its argument under the id the
    argument carries, whether or not the id was present. *)
Theorem StartThinking_registers args w :
  wf w →
  ∃ text w',
    StartThinking args w = Done (inr text) w'
    ∧ stored w'
        (if decide (StartThinkingArgs.SessionID args = "") then entropy w (draws w)
         else StartThinkingArgs.SessionID args)
      = Some {| ThinkingSession.ID :=
                  if decide (StartThinkingArgs.SessionID args = "")
                  then entropy w (draws w)
                  else StartThinkingArgs.SessionID args;
                ThinkingSession.Problem := StartThinkingArgs.Problem args;
                ThinkingSession.Thoughts := [];
                ThinkingSession.CurrentThought := 0;
                ThinkingSession.EstimatedTotal :=
                  if decide (StartThinkingArgs.EstimatedSteps args = 0) then 5
                  else StartThinkingArgs.EstimatedSteps args;
                ThinkingSession.Status := "active";
                ThinkingSession.Created := timeline w (ticks w);
                ThinkingSession.LastActivity := timeline w (S (ticks w));
                ThinkingSession.Branches := [];
                ThinkingSession.Version := 0 |}
    ∧ (∀ id,
         id ≠ (if decide (StartThinkingArgs.SessionID args = "") then entropy w (draws w)
               else StartThinkingArgs.SessionID args) →
         stored w' id = stored w id)
    ∧ (∀ session s,
         sessionObjs w !! session = Some s →
         ∃ w1, SetSession session w = Done () w1
               ∧ sessions w1 = <[ThinkingSession.ID s := session]> (sessions w)
               ∧ stored w1 (ThinkingSession.ID s) = loadSession w session).
Proof.
  intros Hwf.
  destruct (StartThinking_spec args w Hwf) as (text & w' & Hrun & Hwf' & Hext & Hfr & Hst).
  exists text, w'. split; [done|]. split; [done|]. split.
  - intros id Hid. apply stored_frame; [done|done|by apply Hfr].
  - intros session s Hs. eexists. split; [by apply SetSession_run|].
    split; [done|]. unfold stored. wsimpl. by rewrite lookup_insert_eq.
Qed.

Lemma StartThinking_registers_witness :
  ∃ text w',
    StartThinking start_trip w_two = Done (inr text) w'
    ∧ stored w' "trip"
      = Some {| ThinkingSession.ID := "trip";
                ThinkingSession.Problem := "plan a trip";
                ThinkingSession.Thoughts := [];
                ThinkingSession.CurrentThought := 0;
                ThinkingSession.EstimatedTotal := 3;
                ThinkingSession.Status := "active";
                ThinkingSession.Created := 6;
                ThinkingSession.LastActivity := 7;
                ThinkingSession.Branches := [];
                ThinkingSession.Version := 0 |}.
Proof.
  destruct (StartThinking_registers start_trip w_two wf_w_two)
    as (text & w' & Hrun & Hst & _).
  exists text, w'. split; [exact Hrun|exact Hst].
Defined.

(** ** Claim C9: [StartThinking] validates nothing *)

(** C9, counterexample.  A start request with an empty problem and the
    step count -1 does not fail: it returns a text, and the store, which
    held nothing under the id, now holds a session there. *)
Lemma StartThinking_accepts_blank :
  ∃ text w',
    StartThinking start_blank w_empty = Done (inr text) w'
    ∧ stored w_empty "blank" = None
    ∧ stored w' "blank"
      = Some {| ThinkingSession.ID := "blank";
                ThinkingSession.Problem := "";
                ThinkingSession.Thoughts := [];
                ThinkingSession.CurrentThought := 0;
                ThinkingSession.EstimatedTotal := -1;
                ThinkingSession.Status := "active";
                ThinkingSession.Created := 0;
                ThinkingSession.LastActivity := 1;
                ThinkingSession.Branches := [];
                ThinkingSession.Version := 0 |}.
Proof.
  eexists _, _. split; [vm_compute; reflexivity|]. split; vm_compute; reflexivity.
Qed.

(** C9, as amended.  [StartThinking] has no failing path: for every
    request, an empty problem and a zero or negative step count included,
    it returns a text and registers a session that carries the problem as
    given and, as estimate, the step count as given, or 5 when it is 0. *)
Theorem StartThinking_never_rejects args w :
  ∃ text w' v,
    StartThinking args w = Done (inr text) w'
    ∧ stored w'
        (if decide (StartThinkingArgs.SessionID args = "") then entropy w (draws w)
         else StartThinkingArgs.SessionID args) = Some v
    ∧ ThinkingSession.Problem v = StartThinkingArgs.Problem args
    ∧ ThinkingSession.EstimatedTotal v =
        (if decide (StartThinkingArgs.EstimatedSteps args = 0) then 5
         else StartThinkingArgs.EstimatedSteps args)
    ∧ ThinkingSession.Status v = "active".
Proof.
  destruct (StartThinking_run args w) as [text Hrun]. cbv zeta in Hrun.
  eexists text, _, _. split; [exact Hrun|]. split.
  { eapply stored_intro; [wsimpl; apply lookup_insert_eq|].
    erewrite loadSession_intro; [|wsimpl; apply lookup_insert_eq|reflexivity].
    reflexivity. }
  done.
Qed.

(** ** Claim C4: revising a step *)

(** C4.  For a stored session and a step number that is an [int]: when
    1 <= stepNumber <= len(thoughts), the call succeeds and the stored
    session differs from the old one in exactly this: the thought at
    position stepNumber-1 has the supplied text as content and its revised
    flag set (its index, creation time and parent index are kept, and so is
    every other thought), the last activity is the time read from the clock,
    and the version is one more.  Otherwise the call fails with the
    invalid-step error, the map of the store is untouched and every stored
    session, its version included, is what it was. *)
Theorem revise_correct fuel args stepNumber w v :
  wf w →
  ContinueThinkingArgs.ReviseStep args = Some stepNumber →
  int_ok stepNumber →
  stored w (ContinueThinkingArgs.SessionID args) = Some v →
  (1 ≤ stepNumber ≤ len (ThinkingSession.Thoughts v) →
   ∃ text w' x,
     ContinueThinking (S fuel) args w = Done (inr text) w'
     ∧ ThinkingSession.Thoughts v !! Z.to_nat (stepNumber - 1) = Some x
     ∧ stored w' (ContinueThinkingArgs.SessionID args)
       = Some {| ThinkingSession.ID := ThinkingSession.ID v;
                 ThinkingSession.Problem := ThinkingSession.Problem v;
                 ThinkingSession.Thoughts :=
                   <[Z.to_nat (stepNumber - 1) :=
                       {| Thought.Index := Thought.Index x;
                          Thought.Content := ContinueThinkingArgs.Thought args;
                          Thought.Created := Thought.Created x;
                          Thought.Revised := true;
                          Thought.ParentIndex := Thought.ParentIndex x |}]>
                     (ThinkingSession.Thoughts v);
                 ThinkingSession.CurrentThought := ThinkingSession.CurrentThought v;
                 ThinkingSession.EstimatedTotal := ThinkingSession.EstimatedTotal v;
                 ThinkingSession.Status := ThinkingSession.Status v;
                 ThinkingSession.Created := ThinkingSession.Created v;
                 ThinkingSession.LastActivity := timeline w (ticks w);
                 ThinkingSession.Branches := ThinkingSession.Branches v;
                 ThinkingSession.Version := wrap (ThinkingSession.Version v + 1) |}
     ∧ ∀ id, id ≠ ContinueThinkingArgs.SessionID args → stored w' id = stored w id)
  ∧ (¬ (1 ≤ stepNumber ≤ len (ThinkingSession.Thoughts v)) →
     ∃ w',
       ContinueThinking (S fuel) args w = Done (inl (ErrInvalidStep stepNumber)) w'
       ∧ sessions w' = sessions w
       ∧ ∀ id, stored w' id = stored w id).
Proof.
  intros Hwf Hrev Hok Hv.
  assert (Hlen : 0 ≤ len (ThinkingSession.Thoughts v) ≤ max_int).
  { split; [apply len_nonneg|].
    destruct (stored_inv _ _ _ Hv) as (p & s & ts & Hp & Hs & Hts & ->).
    destruct Hwf as [_ Hobj]. destruct (Hobj _ _ Hs) as (_ & Hl & _).
    cbn. unfold len in *. by rewrite (loadThoughts_length _ _ _ Hts). }
  destruct (step_index stepNumber _ Hok Hlen) as [Hiff Hidx]. split.
  - intros Hstep. pose proof (proj2 Hiff Hstep) as Hstep'.
    destruct (lookup_index_Some _ _ Hstep') as [x Hx].
    destruct (ContinueThinking_revise fuel args stepNumber w v x Hwf Hrev Hv Hstep' Hx)
      as (text & w' & Hrun & Hwf' & Hext & Hfr & Hst).
    rewrite (Hidx Hstep) in Hx, Hst.
    exists text, w', x. split; [done|]. split; [done|]. split; [exact Hst|].
    intros id Hid. apply stored_frame; [done|done|by apply Hfr].
  - intros Hstep. assert (Hstep' : ¬ (0 ≤ wrap (stepNumber - 1) < len (ThinkingSession.Thoughts v))).
    { intros H. by apply Hstep, Hiff. }
    destruct (ContinueThinking_revise_invalid fuel args stepNumber w v Hwf Hrev Hv Hstep')
      as (w' & Hrun & Hwf' & Hext & Hsess).
    exists w'. split; [done|]. split; [done|].
    intros id. apply stored_frame; [done|done|by rewrite Hsess].
Qed.

Lemma revise_correct_witness :
  (∃ text w',
     ContinueThinking 1 (revise "trip" "x" 1) w_two = Done (inr text) w'
     ∧ stored w' "trip"
       = Some {| ThinkingSession.ID := "trip";
                 ThinkingSession.Problem := "plan a trip";
                 ThinkingSession.Thoughts :=
                   [ {| Thought.Index := 1; Thought.Content := "x";
                        Thought.Created := 2; Thought.Revised := true;
                        Thought.ParentIndex := None |};
                     {| Thought.Index := 2; Thought.Content := "book flight";
                        Thought.Created := 4; Thought.Revised := false;
                        Thought.ParentIndex := None |} ];
                 ThinkingSession.CurrentThought := 2;
                 ThinkingSession.EstimatedTotal := 3;
                 ThinkingSession.Status := "completed";
                 ThinkingSession.Created := 0;
                 ThinkingSession.LastActivity := 6;
                 ThinkingSession.Branches := [];
                 ThinkingSession.Version := 3 |})
  ∧ (∃ w',
       ContinueThinking 1 (revise "trip" "x" 3) w_two = Done (inl (ErrInvalidStep 3)) w'
       ∧ stored w' "trip" = stored w_two "trip")
  ∧ (∃ w',
       ContinueThinking 1 (revise "trip" "x" 0) w_two = Done (inl (ErrInvalidStep 0)) w'
       ∧ stored w' "trip" = stored w_two "trip").
Proof.
  split; [|split].
  - destruct (revise_correct 0 (revise "trip" "x" 1) 1 w_two _ wf_w_two eq_refl
                ltac:(unfold int_ok, min_int, max_int; lia)
                ltac:(vm_compute; reflexivity)) as [Hvalid _].
    destruct (Hvalid ltac:(unfold len; cbn; lia)) as (text & w' & x & Hrun & Hx & Hst & _).
    cbn in Hx. injection Hx as <-. exists text, w'. split; [exact Hrun|exact Hst].
  - destruct (revise_correct 0 (revise "trip" "x" 3) 3 w_two _ wf_w_two eq_refl
                ltac:(unfold int_ok, min_int, max_int; lia)
                ltac:(vm_compute; reflexivity)) as [_ Hinvalid].
    destruct (Hinvalid ltac:(unfold len; cbn; lia)) as (w' & Hrun & _ & Hst).
    exists w'. split; [exact Hrun|apply Hst].
  - destruct (revise_correct 0 (revise "trip" "x" 0) 0 w_two _ wf_w_two eq_refl
                ltac:(unfold int_ok, min_int, max_int; lia)
                ltac:(vm_compute; reflexivity)) as [_ Hinvalid].
    destruct (Hinvalid ltac:(unfold len; cbn; lia)) as (w' & Hrun & _ & Hst).
    exists w'. split; [exact Hrun|apply Hst].
Defined.

(** ** Claim C5: appending a thought *)

(** C5, counterexample.  The session of the example run is completed.  A
    further append with nextNeeded = true succeeds, the session has three
    thoughts, and its status is "completed": the caller did not signal the
    end, and the status is not "active". *)
Lemma append_to_completed_session :
  ∃ text w' v',
    ThinkingSession.Status <$> stored w_two "trip" = Some "completed"
    ∧ ContinueThinking 1 (think "trip" "one more" (Some true)) w_two = Done (inr text) w'
    ∧ stored w' "trip" = Some v'
    ∧ length (ThinkingSession.Thoughts v') = 3%nat
    ∧ ThinkingSession.Status v' = "completed"
    ∧ ThinkingSession.Status v' ≠ "active".
Proof.
  eexists _, _, _. split; [vm_compute; reflexivity|].
  split; [vm_compute; reflexivity|]. split; [vm_compute; reflexivity|].
  split; [reflexivity|]. split; [reflexivity|]. discriminate.
Qed.

(** C5, as amended.  A continue call that appends (reviseStep unset,
    createBranch false) to a stored session whose slice can still grow
    succeeds, and the stored session differs from the old one in exactly
    this: a new thought with index len(thoughts)+1, the supplied text, the
    time read from the clock, not revised, is appended; currentThought is
    that index; lastActivity is the next time read; estimatedTotal is the
    supplied value when that is positive and is kept otherwise; status is
    "completed" when nextNeeded is explicitly false and is kept as it was
    otherwise (an active session stays active, a completed one stays
    completed); the version is one more.  No other id changes. *)
Theorem append_post fuel args w v :
  wf w →
  ContinueThinkingArgs.ReviseStep args = None →
  ContinueThinkingArgs.CreateBranch args = false →
  stored w (ContinueThinkingArgs.SessionID args) = Some v →
  len (ThinkingSession.Thoughts v) < max_int →
  ∃ text w',
    ContinueThinking (S fuel) args w = Done (inr text) w'
    ∧ stored w' (ContinueThinkingArgs.SessionID args) =
        Some {| ThinkingSession.ID := ThinkingSession.ID v;
                ThinkingSession.Problem := ThinkingSession.Problem v;
                ThinkingSession.Thoughts :=
                  ThinkingSession.Thoughts v ++
                    [ {| Thought.Index := len (ThinkingSession.Thoughts v) + 1;
                         Thought.Content := ContinueThinkingArgs.Thought args;
                         Thought.Created := timeline w (ticks w);
                         Thought.Revised := false;
                         Thought.ParentIndex := None |} ];
                ThinkingSession.CurrentThought := len (ThinkingSession.Thoughts v) + 1;
                ThinkingSession.EstimatedTotal :=
                  if decide (ContinueThinkingArgs.EstimatedTotal args > 0)
                  then ContinueThinkingArgs.EstimatedTotal args
                  else ThinkingSession.EstimatedTotal v;
                ThinkingSession.Status :=
                  match ContinueThinkingArgs.NextNeeded args with
                  | Some false => "completed"
                  | _ => ThinkingSession.Status v
                  end;
                ThinkingSession.Created := ThinkingSession.Created v;
                ThinkingSession.LastActivity := timeline w (S (ticks w));
                ThinkingSession.Branches := ThinkingSession.Branches v;
                ThinkingSession.Version := wrap (ThinkingSession.Version v + 1) |}
    ∧ ∀ id, id ≠ ContinueThinkingArgs.SessionID args → stored w' id = stored w id.
Proof.
  intros Hwf Hrev Hbr Hv Hlen.
  destruct (ContinueThinking_append fuel args w v Hwf Hrev Hbr Hv Hlen)
    as (text & w' & Hrun & Hwf' & Hext & Hfr & Hst).
  exists text, w'. split; [done|]. split; [done|].
  intros id Hid. apply stored_frame; [done|done|by apply Hfr].
Qed.

Lemma reachable_w_one : reachable w_one.
Proof.
  unfold w_one, w_started.
  apply reachable_after_continue. apply reachable_after_start. constructor.
Qed.

Lemma append_post_witness :
  ∃ text w',
    ContinueThinking 1 (think "trip" "book flight" (Some false)) w_one = Done (inr text) w'
    ∧ stored w' "trip"
      = Some {| ThinkingSession.ID := "trip";
                ThinkingSession.Problem := "plan a trip";
                ThinkingSession.Thoughts :=
                  [ {| Thought.Index := 1; Thought.Content := "pick destination";
                       Thought.Created := 2; Thought.Revised := false;
                       Thought.ParentIndex := None |};
                    {| Thought.Index := 2; Thought.Content := "book flight";
                       Thought.Created := 4; Thought.Revised := false;
                       Thought.ParentIndex := None |} ];
                ThinkingSession.CurrentThought := 2;
                ThinkingSession.EstimatedTotal := 3;
                ThinkingSession.Status := "completed";
                ThinkingSession.Created := 0;
                ThinkingSession.LastActivity := 5;
                ThinkingSession.Branches := [];
                ThinkingSession.Version := 2 |}.
Proof.
  destruct (append_post 0 (think "trip" "book flight" (Some false)) w_one _
              (proj1 (reachable_inv _ reachable_w_one)) eq_refl eq_refl
              ltac:(vm_compute; reflexivity)
              ltac:(unfold len, max_int; cbn; lia))
    as (text & w' & Hrun & Hst & _).
  exists text, w'. split; [exact Hrun|exact Hst].
Defined.

(** ** Claim C7: branching *)

(** C7.  In a world that satisfies the store invariant, a branch call on a
    stored session P whose branch list can still grow succeeds.  The new
    id is P.id followed by "_branch_" and the decimal of len(branches)+1;
    it is appended to P's branches (P's last activity and version move on,
    nothing else of P changes).  Under the new id the store holds a session
    with status "active", P's thoughts, currentThought equal to their
    number, no branches and version 0.  The two stored objects are
    different objects and share no thought object.  No other id changes.
    Afterwards a continue call that appends or revises on P leaves what is
    stored under the branch id as it is, and one on the branch leaves P as
    it is. *)
Theorem branch_correct fuel args w P :
  inv w →
  ContinueThinkingArgs.ReviseStep args = None →
  ContinueThinkingArgs.CreateBranch args = true →
  stored w (ContinueThinkingArgs.SessionID args) = Some P →
  len (ThinkingSession.Branches P) < max_int →
  ∃ text w' pP pB oP oB,
    ContinueThinking (S fuel) args w = Done (inr text) w'
    ∧ ThinkingSession.ID P = ContinueThinkingArgs.SessionID args
    ∧ stored w' (ThinkingSession.ID P) =
        Some {| ThinkingSession.ID := ThinkingSession.ID P;
                ThinkingSession.Problem := ThinkingSession.Problem P;
                ThinkingSession.Thoughts := ThinkingSession.Thoughts P;
                ThinkingSession.CurrentThought := ThinkingSession.CurrentThought P;
                ThinkingSession.EstimatedTotal := ThinkingSession.EstimatedTotal P;
                ThinkingSession.Status := ThinkingSession.Status P;
                ThinkingSession.Created := ThinkingSession.Created P;
                ThinkingSession.LastActivity := timeline w (ticks w);
                ThinkingSession.Branches :=
                  ThinkingSession.Branches P ++
                    [ThinkingSession.ID P +:+ "_branch_"
                       +:+ pretty (len (ThinkingSession.Branches P) + 1)];
                ThinkingSession.Version := wrap (ThinkingSession.Version P + 1) |}
    ∧ stored w' (ThinkingSession.ID P +:+ "_branch_"
                   +:+ pretty (len (ThinkingSession.Branches P) + 1)) =
        Some {| ThinkingSession.ID :=
                  ThinkingSession.ID P +:+ "_branch_"
                    +:+ pretty (len (ThinkingSession.Branches P) + 1);
                ThinkingSession.Problem :=
                  ThinkingSession.Problem P +:+ " (Alternative branch)";
                ThinkingSession.Thoughts := ThinkingSession.Thoughts P;
                ThinkingSession.CurrentThought := len (ThinkingSession.Thoughts P);
                ThinkingSession.EstimatedTotal := ThinkingSession.EstimatedTotal P;
                ThinkingSession.Status := "active";
                ThinkingSession.Created := timeline w (S (ticks w));
                ThinkingSession.LastActivity := timeline w (S (S (ticks w)));
                ThinkingSession.Branches := [];
                ThinkingSession.Version := 0 |}
    ∧ (sessions w' !! ThinkingSession.ID P = Some pP
       ∧ sessions w' !! (ThinkingSession.ID P +:+ "_branch_"
                           +:+ pretty (len (ThinkingSession.Branches P) + 1)) = Some pB
       ∧ sessionObjs w' !! pP = Some oP
       ∧ sessionObjs w' !! pB = Some oB
       ∧ pP ≠ pB
       ∧ ∀ t, t ∈ ThinkingSession.Thoughts oP → t ∉ ThinkingSession.Thoughts oB)
    ∧ (∀ id,
         id ≠ ThinkingSession.ID P →
         id ≠ ThinkingSession.ID P +:+ "_branch_"
                +:+ pretty (len (ThinkingSession.Branches P) + 1) →
         stored w' id = stored w id)
    ∧ (∀ fuel2 args2 r w'',
         is_Some (ContinueThinkingArgs.ReviseStep args2)
           ∨ ContinueThinkingArgs.CreateBranch args2 = false →
         ContinueThinking fuel2 args2 w' = Done r w'' →
         (ContinueThinkingArgs.SessionID args2 = ThinkingSession.ID P →
            stored w'' (ThinkingSession.ID P +:+ "_branch_"
                          +:+ pretty (len (ThinkingSession.Branches P) + 1))
            = stored w' (ThinkingSession.ID P +:+ "_branch_"
                           +:+ pretty (len (ThinkingSession.Branches P) + 1)))
         ∧ (ContinueThinkingArgs.SessionID args2
              = ThinkingSession.ID P +:+ "_branch_"
                  +:+ pretty (len (ThinkingSession.Branches P) + 1) →
            stored w'' (ThinkingSession.ID P) = stored w' (ThinkingSession.ID P))).
Proof.
  intros [Hwf Hok] Hrev Hbr HP Hlen.
  destruct (Hok _ _ HP) as [Hid _].
  destruct (ContinueThinking_branch fuel args w P Hwf Hrev Hbr HP Hlen)
    as (text & w' & pP & pB & oP & oB & Hrun & Hwf' & Hext & Hfr & Hst & Hstb & Hptr).
  cbv zeta in Hfr, Hstb, Hptr. rewrite <- Hid in Hfr, Hst, Hstb, Hptr.
  exists text, w', pP, pB, oP, oB.
  split; [done|]. split; [done|]. split; [exact Hst|]. split; [exact Hstb|].
  split; [exact Hptr|]. split.
  - intros id Hid1 Hid2. apply stored_frame; [done|done|by apply Hfr].
  - intros fuel2 args2 r w'' Hmode Hrun2. split; intros Hsid.
    + eapply ContinueThinking_frame_other; [done|exact Hrun2|done|].
      rewrite Hsid. apply branch_id_ne.
    + eapply ContinueThinking_frame_other; [done|exact Hrun2|done|].
      rewrite Hsid. intros Heq. by eapply branch_id_ne.
Qed.

Lemma branch_correct_witness :
  ∃ text w',
    ContinueThinking 1 (branch "trip") w_two = Done (inr text) w'
    ∧ ThinkingSession.Branches <$> stored w' "trip" = Some ["trip_branch_1"]
    ∧ stored w' "trip_branch_1"
      = Some {| ThinkingSession.ID := "trip_branch_1";
                ThinkingSession.Problem := "plan a trip (Alternative branch)";
                ThinkingSession.Thoughts :=
                  [ {| Thought.Index := 1; Thought.Content := "pick destination";
                       Thought.Created := 2; Thought.Revised := false;
                       Thought.ParentIndex := None |};
                    {| Thought.Index := 2; Thought.Content := "book flight";
                       Thought.Created := 4; Thought.Revised := false;
                       Thought.ParentIndex := None |} ];
                ThinkingSession.CurrentThought := 2;
                ThinkingSession.EstimatedTotal := 3;
                ThinkingSession.Status := "active";
                ThinkingSession.Created := 7;
                ThinkingSession.LastActivity := 8;
                ThinkingSession.Branches := [];
                ThinkingSession.Version := 0 |}
    ∧ (∀ r w'',
         ContinueThinking 1 (think "trip" "a third step" None) w' = Done r w'' →
         length <$> (ThinkingSession.Thoughts <$> stored w'' "trip_branch_1") = Some 2%nat).
Proof.
  destruct (branch_correct 0 (branch "trip") w_two _
              (reachable_inv _ reachable_w_two) eq_refl eq_refl
              ltac:(vm_compute; reflexivity)
              ltac:(unfold len, max_int; cbn; lia))
    as (text & w' & pP & pB & oP & oB & Hrun & _ & Hst & Hstb & _ & _ & Hiso).
  exists text, w'. split; [exact Hrun|]. split.
  { change (ThinkingSession.Branches <$> stored w' "trip" = Some ["trip_branch_1"]).
    cbn in Hst. rewrite Hst. reflexivity. }
  split; [exact Hstb|].
  intros r w'' Hrun2.
  destruct (Hiso 1%nat (think "trip" "a third step" None) r w'' (or_intror eq_refl) Hrun2)
    as [Hkeep _].
  pose proof (Hkeep eq_refl) as Hk.
  change (stored w'' "trip_branch_1" = stored w' "trip_branch_1") in Hk.
  assert (∃ B, stored w' "trip_branch_1" = Some B
               ∧ length (ThinkingSession.Thoughts B) = 2%nat) as (B & HB & HlenB).
  { eexists. split; [exact Hstb|reflexivity]. }
  rewrite Hk, HB. cbn. by rewrite HlenB.
Defined.

(** ** Claim C10: which path a continue call takes *)

(** C10.  With reviseStep set, the call is the revision and nothing else:
    it is the same computation as the one with createBranch false,
    nextNeeded unset and estimatedTotal 0, and on a stored session it
    returns: for a step the session has, with a success, and the stored
    session is then the one it was with the content of that thought
    replaced and the thought marked revised, its time of last activity and
    its version moved on, and as many thoughts, the same branches, status,
    estimate and current thought as before, every other id being as it
    was (no branch is registered); for a step the session has not, with
    the error of an invalid step, and the store is as it was.  With
    reviseStep unset and createBranch true, the call is the branching and
    nothing else: it is the same computation as the one with an empty
    thought text, nextNeeded unset and estimatedTotal 0, and on a stored
    session it returns a success; the parent is then the session it was
    with the id of the branch added to its branches, its time of last
    activity and its version moved on, and the thoughts, status, estimate
    and current thought it had; the branch is stored under its id, an
    active session with the thoughts of the parent and no others; and
    every other id is as it was. *)
Theorem mode_precedence fuel args w :
  (∀ reviseStep,
     ContinueThinkingArgs.ReviseStep args = Some reviseStep →
     ContinueThinking fuel args w
     = ContinueThinking fuel
         (revise (ContinueThinkingArgs.SessionID args)
                 (ContinueThinkingArgs.Thought args) reviseStep) w
     ∧ ∀ v,
     wf w →
     stored w (ContinueThinkingArgs.SessionID args) = Some v →
     int_ok reviseStep →
     (1 ≤ reviseStep ≤ len (ThinkingSession.Thoughts v) →
        ∃ text w' x,
          ContinueThinking (S fuel) args w = Done (inr text) w'
          ∧ ThinkingSession.Thoughts v !! Z.to_nat (reviseStep - 1) = Some x
          ∧ stored w' (ContinueThinkingArgs.SessionID args)
            = Some {| ThinkingSession.ID := ThinkingSession.ID v;
                      ThinkingSession.Problem := ThinkingSession.Problem v;
                      ThinkingSession.Thoughts :=
                        <[Z.to_nat (reviseStep - 1) :=
                            {| Thought.Index := Thought.Index x;
                               Thought.Content := ContinueThinkingArgs.Thought args;
                               Thought.Created := Thought.Created x;
                               Thought.Revised := true;
                               Thought.ParentIndex := Thought.ParentIndex x |}]>
                          (ThinkingSession.Thoughts v);
                      ThinkingSession.CurrentThought := ThinkingSession.CurrentThought v;
                      ThinkingSession.EstimatedTotal := ThinkingSession.EstimatedTotal v;
                      ThinkingSession.Status := ThinkingSession.Status v;
                      ThinkingSession.Created := ThinkingSession.Created v;
                      ThinkingSession.LastActivity := timeline w (ticks w);
                      ThinkingSession.Branches := ThinkingSession.Branches v;
                      ThinkingSession.Version := wrap (ThinkingSession.Version v + 1) |}
          ∧ ∀ id, id ≠ ContinueThinkingArgs.SessionID args → stored w' id = stored w id)
     ∧ (¬ (1 ≤ reviseStep ≤ len (ThinkingSession.Thoughts v)) →
        ∃ w',
          ContinueThinking (S fuel) args w = Done (inl (ErrInvalidStep reviseStep)) w'
          ∧ ∀ id, stored w' id = stored w id))
  ∧ (ContinueThinkingArgs.ReviseStep args = None →
     ContinueThinkingArgs.CreateBranch args = true →
     ContinueThinking fuel args w
     = ContinueThinking fuel (branch (ContinueThinkingArgs.SessionID args)) w
     ∧ ∀ v,
     wf w →
     stored w (ContinueThinkingArgs.SessionID args) = Some v →
     len (ThinkingSession.Branches v) < max_int →
     ∃ text w',
         ContinueThinking (S fuel) args w = Done (inr text) w'
         ∧ stored w' (ContinueThinkingArgs.SessionID args)
           = Some {| ThinkingSession.ID := ThinkingSession.ID v;
                     ThinkingSession.Problem := ThinkingSession.Problem v;
                     ThinkingSession.Thoughts := ThinkingSession.Thoughts v;
                     ThinkingSession.CurrentThought := ThinkingSession.CurrentThought v;
                     ThinkingSession.EstimatedTotal := ThinkingSession.EstimatedTotal v;
                     ThinkingSession.Status := ThinkingSession.Status v;
                     ThinkingSession.Created := ThinkingSession.Created v;
                     ThinkingSession.LastActivity := timeline w (ticks w);
                     ThinkingSession.Branches :=
                       ThinkingSession.Branches v ++
                         [ContinueThinkingArgs.SessionID args +:+ "_branch_"
                            +:+ pretty (len (ThinkingSession.Branches v) + 1)];
                     ThinkingSession.Version := wrap (ThinkingSession.Version v + 1) |}
         ∧ stored w' (ContinueThinkingArgs.SessionID args +:+ "_branch_"
                        +:+ pretty (len (ThinkingSession.Branches v) + 1))
           = Some {| ThinkingSession.ID :=
                       ContinueThinkingArgs.SessionID args +:+ "_branch_"
                         +:+ pretty (len (ThinkingSession.Branches v) + 1);
                     ThinkingSession.Problem :=
                       ThinkingSession.Problem v +:+ " (Alternative branch)";
                     ThinkingSession.Thoughts := ThinkingSession.Thoughts v;
                     ThinkingSession.CurrentThought := len (ThinkingSession.Thoughts v);
                     ThinkingSession.EstimatedTotal := ThinkingSession.EstimatedTotal v;
                     ThinkingSession.Status := "active";
                     ThinkingSession.Created := timeline w (S (ticks w));
                     ThinkingSession.LastActivity := timeline w (S (S (ticks w)));
                     ThinkingSession.Branches := [];
                     ThinkingSession.Version := 0 |}
         ∧ ∀ id,
             id ≠ ContinueThinkingArgs.SessionID args →
             id ≠ ContinueThinkingArgs.SessionID args +:+ "_branch_"
                    +:+ pretty (len (ThinkingSession.Branches v) + 1) →
             stored w' id = stored w id).
Proof.
  split.
  - intros step Hrev. split.
    { destruct args as [sid thought nn rs cb et]. cbn in Hrev. subst rs. reflexivity. }
    intros v Hwf Hv Hok.
    assert (Hlen : 0 ≤ len (ThinkingSession.Thoughts v) ≤ max_int).
    { split; [apply len_nonneg|].
      destruct (stored_inv _ _ _ Hv) as (p & s & ts & Hp & Hs & Hts & ->).
      destruct Hwf as [_ Hobj]. destruct (Hobj _ _ Hs) as (_ & Hl & _).
      cbn. unfold len in *. by rewrite (loadThoughts_length _ _ _ Hts). }
    destruct (step_index step _ Hok Hlen) as [Hiff Hidx]. split.
    + intros Hstep. pose proof (proj2 Hiff Hstep) as Hstep'.
      destruct (lookup_index_Some _ _ Hstep') as [x Hx].
      destruct (ContinueThinking_revise fuel args step w v x Hwf Hrev Hv Hstep' Hx)
        as (text & w' & Hrun & Hwf' & Hext & Hfr & Hst).
      rewrite (Hidx Hstep) in Hx, Hst.
      exists text, w', x. split; [done|]. split; [done|]. split; [exact Hst|].
      intros id Hid. apply stored_frame; [done|done|by apply Hfr].
    + intros Hstep.
      assert (Hstep' : ¬ (0 ≤ wrap (step - 1) < len (ThinkingSession.Thoughts v))).
      { intros H. by apply Hstep, Hiff. }
      destruct (ContinueThinking_revise_invalid fuel args step w v Hwf Hrev Hv Hstep')
        as (w' & Hrun & Hwf' & Hext & Hsess).
      exists w'. split; [done|].
      intros id. apply stored_frame; [done|done|by rewrite Hsess].
  - intros Hrev Hbr. split.
    { destruct args as [sid thought nn rs cb et]. cbn in Hrev, Hbr. subst rs cb.
      reflexivity. }
    intros v Hwf Hv Hlen.
    destruct (ContinueThinking_branch fuel args w v Hwf Hrev Hbr Hv Hlen)
      as (text & w' & pP & pB & oP & oB & Hrun & Hwf' & Hext & Hfr & Hst & Hstb & _).
    exists text, w'. split; [done|]. split; [exact Hst|]. split; [exact Hstb|].
    intros id Hid1 Hid2. apply stored_frame; [done|done|by apply Hfr].
Qed.

Lemma mode_precedence_witness :
  (∃ text w',
     ContinueThinking 1
       {| ContinueThinkingArgs.SessionID := "trip";
          ContinueThinkingArgs.Thought := "x";
          ContinueThinkingArgs.NextNeeded := Some false;
          ContinueThinkingArgs.ReviseStep := Some 1;
          ContinueThinkingArgs.CreateBranch := true;
          ContinueThinkingArgs.EstimatedTotal := 9 |} w_one = Done (inr text) w'
     ∧ stored w' "trip"
       = Some {| ThinkingSession.ID := "trip";
                 ThinkingSession.Problem := "plan a trip";
                 ThinkingSession.Thoughts :=
                   [ {| Thought.Index := 1; Thought.Content := "x";
                        Thought.Created := 2; Thought.Revised := true;
                        Thought.ParentIndex := None |} ];
                 ThinkingSession.CurrentThought := 1;
                 ThinkingSession.EstimatedTotal := 3;
                 ThinkingSession.Status := "active";
                 ThinkingSession.Created := 0;
                 ThinkingSession.LastActivity := 4;
                 ThinkingSession.Branches := [];
                 ThinkingSession.Version := 2 |}
     ∧ stored w' "trip_branch_1" = None)
  ∧ (∃ text w',
       ContinueThinking 1
         {| ContinueThinkingArgs.SessionID := "trip";
            ContinueThinkingArgs.Thought := "x";
            ContinueThinkingArgs.NextNeeded := Some false;
            ContinueThinkingArgs.ReviseStep := None;
            ContinueThinkingArgs.CreateBranch := true;
            ContinueThinkingArgs.EstimatedTotal := 9 |} w_one = Done (inr text) w'
       ∧ stored w' "trip"
         = Some {| ThinkingSession.ID := "trip";
                   ThinkingSession.Problem := "plan a trip";
                   ThinkingSession.Thoughts :=
                     [ {| Thought.Index := 1; Thought.Content := "pick destination";
                          Thought.Created := 2; Thought.Revised := false;
                          Thought.ParentIndex := None |} ];
                   ThinkingSession.CurrentThought := 1;
                   ThinkingSession.EstimatedTotal := 3;
                   ThinkingSession.Status := "active";
                   ThinkingSession.Created := 0;
                   ThinkingSession.LastActivity := 4;
                   ThinkingSession.Branches := ["trip_branch_1"];
                   ThinkingSession.Version := 2 |}
       ∧ stored w' "trip_branch_1"
         = Some {| ThinkingSession.ID := "trip_branch_1";
                   ThinkingSession.Problem := "plan a trip (Alternative branch)";
                   ThinkingSession.Thoughts :=
                     [ {| Thought.Index := 1; Thought.Content := "pick destination";
                          Thought.Created := 2; Thought.Revised := false;
                          Thought.ParentIndex := None |} ];
                   ThinkingSession.CurrentThought := 1;
                   ThinkingSession.EstimatedTotal := 3;
                   ThinkingSession.Status := "active";
                   ThinkingSession.Created := 5;
                   ThinkingSession.LastActivity := 6;
                   ThinkingSession.Branches := [];
                   ThinkingSession.Version := 0 |}).
Proof.
  set (v := {| ThinkingSession.ID := "trip";
               ThinkingSession.Problem := "plan a trip";
               ThinkingSession.Thoughts :=
                 [ {| Thought.Index := 1; Thought.Content := "pick destination";
                      Thought.Created := 2; Thought.Revised := false;
                      Thought.ParentIndex := None |} ];
               ThinkingSession.CurrentThought := 1;
               ThinkingSession.EstimatedTotal := 3;
               ThinkingSession.Status := "active";
               ThinkingSession.Created := 0;
               ThinkingSession.LastActivity := 3;
               ThinkingSession.Branches := [];
               ThinkingSession.Version := 1 |}).
  assert (Hv : stored w_one "trip" = Some v) by (vm_compute; reflexivity).
  assert (Hnow : timeline w_one (ticks w_one) = 4
                 ∧ timeline w_one (S (ticks w_one)) = 5
                 ∧ timeline w_one (S (S (ticks w_one))) = 6).
  { vm_compute. split; [reflexivity|]. split; reflexivity. }
  destruct Hnow as (Hn0 & Hn1 & Hn2).
  assert (Hnone : stored w_one "trip_branch_1" = None) by (vm_compute; reflexivity).
  pose proof (reachable_inv _ reachable_w_one) as [Hwf _].
  split.
  - destruct (mode_precedence 0
                {| ContinueThinkingArgs.SessionID := "trip";
                   ContinueThinkingArgs.Thought := "x";
                   ContinueThinkingArgs.NextNeeded := Some false;
                   ContinueThinkingArgs.ReviseStep := Some 1;
                   ContinueThinkingArgs.CreateBranch := true;
                   ContinueThinkingArgs.EstimatedTotal := 9 |} w_one) as [Hrevise _].
    destruct (Hrevise 1 eq_refl) as [_ Hstate].
    destruct (Hstate v Hwf Hv ltac:(unfold int_ok, min_int, max_int; lia))
      as (Hvalid & _).
    destruct (Hvalid ltac:(unfold v, len; cbn; lia)) as (text & w' & x & Hrun & Hx & Hst & Hfr).
    injection Hx as <-.
    exists text, w'. split; [exact Hrun|]. split.
    + rewrite Hn0 in Hst. exact Hst.
    + rewrite <- Hnone. apply Hfr. discriminate.
  - destruct (mode_precedence 0
                {| ContinueThinkingArgs.SessionID := "trip";
                   ContinueThinkingArgs.Thought := "x";
                   ContinueThinkingArgs.NextNeeded := Some false;
                   ContinueThinkingArgs.ReviseStep := None;
                   ContinueThinkingArgs.CreateBranch := true;
                   ContinueThinkingArgs.EstimatedTotal := 9 |} w_one) as [_ Hbranch].
    destruct (Hbranch eq_refl eq_refl) as [_ Hstate].
    destruct (Hstate v Hwf Hv ltac:(unfold v, len, max_int; cbn; lia))
      as (text & w' & Hrun & Hst & Hstb & _).
    exists text, w'. split; [exact Hrun|]. split.
    + rewrite Hn0 in Hst. exact Hst.
    + rewrite Hn1, Hn2 in Hstb. exact Hstb.
Defined.

(** ** Claim C6: thought indices *)

Lemma reachable_appendAll sid thoughts : ∀ w,
  reachable w → reachable (appendAll sid thoughts w).
Proof.
  induction thoughts as [|t rest IH]; intros w Hw; [done|].
  cbn [appendAll]. apply IH. by apply reachable_after_continue.
Qed.

Lemma appendAll_contents sid thoughts : ∀ w v,
  wf w → stored w sid = Some v →
  len (ThinkingSession.Thoughts v) + len thoughts ≤ max_int →
  ∃ v', stored (appendAll sid thoughts w) sid = Some v'
        ∧ Thought.Content <$> ThinkingSession.Thoughts v'
          = (Thought.Content <$> ThinkingSession.Thoughts v) ++ thoughts.
Proof.
  induction thoughts as [|t rest IH]; intros w v Hwf Hv Hlen.
  - exists v. split; [done|]. by rewrite app_nil_r.
  - assert (Hlt : len (ThinkingSession.Thoughts v) < max_int).
    { unfold len in *. cbn in Hlen. lia. }
    destruct (ContinueThinking_append 0 (think sid t None) w v Hwf eq_refl eq_refl Hv Hlt)
      as (text & w' & Hrun & Hwf' & _ & _ & Hst).
    cbn [appendAll]. unfold after. rewrite Hrun.
    destruct (IH w' _ Hwf' Hst) as (v' & Hv' & Hc).
    { cbn. rewrite len_app. unfold len in *. cbn in *. lia. }
    exists v'. split; [done|]. rewrite Hc. cbn. rewrite fmap_app. cbn.
    by rewrite <- app_assoc.
Qed.

Lemma ContinueThinking_keeps_indices fuel args w r w' v i x :
  wf w →
  ContinueThinking fuel args w = Done r w' →
  stored w (ContinueThinkingArgs.SessionID args) = Some v →
  ThinkingSession.Thoughts v !! i = Some x →
  ∃ v' x',
    stored w' (ContinueThinkingArgs.SessionID args) = Some v'
    ∧ ThinkingSession.Thoughts v' !! i = Some x'
    ∧ Thought.Index x' = Thought.Index x.
Proof.
  intros Hwf Hrun Hv Hx.
  destruct (ContinueThinking_Done_inv _ _ _ _ _ Hwf Hrun) as (fuel' & -> & Hcase).
  destruct Hcase as [Hnone|(v0 & Hv0 & Hm)].
  { unfold stored in Hv. by rewrite Hnone in Hv. }
  assert (v0 = v) as -> by congruence.
  destruct (ContinueThinkingArgs.ReviseStep args) as [step|] eqn:Hrev.
  - destruct (decide (0 ≤ wrap (step - 1) < len (ThinkingSession.Thoughts v))) as [Hstep|Hstep].
    + destruct (lookup_index_Some _ _ Hstep) as [y Hy].
      destruct (ContinueThinking_revise fuel' args step w v y Hwf Hrev Hv Hstep Hy)
        as (text & w'' & Hrun' & _ & _ & _ & Hst).
      rewrite Hrun' in Hrun. injection Hrun as <- <-.
      eexists. cbn. destruct (decide (Z.to_nat (wrap (step - 1)) = i)) as [<-|Hne].
      * eexists. split; [exact Hst|]. cbn.
        rewrite list_lookup_insert_eq by (by eapply lookup_lt_Some).
        split; [done|]. cbn. congruence.
      * exists x. split; [exact Hst|]. cbn.
        by rewrite list_lookup_insert_ne.
    + destruct (ContinueThinking_revise_invalid fuel' args step w v Hwf Hrev Hv Hstep)
        as (w'' & Hrun' & _ & Hext & Hsess).
      rewrite Hrun' in Hrun. injection Hrun as <- <-.
      exists v, x. split; [|done]. rewrite <- Hv.
      apply stored_frame; [done|done|by rewrite Hsess].
  - destruct (ContinueThinkingArgs.CreateBranch args) eqn:Hbr.
    + destruct (ContinueThinking_branch fuel' args w v Hwf Hrev Hbr Hv Hm)
        as (text & w'' & pP & pB & oP & oB & Hrun' & _ & _ & _ & Hst & _).
      rewrite Hrun' in Hrun. injection Hrun as <- <-.
      eexists _, x. split; [exact Hst|]. done.
    + destruct (ContinueThinking_append fuel' args w v Hwf Hrev Hbr Hv Hm)
        as (text & w'' & Hrun' & _ & _ & _ & Hst).
      rewrite Hrun' in Hrun. injection Hrun as <- <-.
      eexists _, x. split; [exact Hst|]. cbn. split; [|done].
      by apply lookup_app_l_Some.
Qed.

(** C6.  In every world the handlers can reach, every stored session has
    thoughts[i].index = i+1 at every position i, so no two thoughts of a
    session share an index.  Starting a session under a given id and
    appending K texts one after the other leaves a session with exactly
    those K texts, in order, numbered 1 to K.  And a continue call, of any
    kind, keeps every thought of the session it targets at its position
    with its index. *)
Theorem thought_indices w :
  reachable w →
  (∀ id v i x,
     stored w id = Some v → ThinkingSession.Thoughts v !! i = Some x →
     Thought.Index x = Z.of_nat i + 1)
  ∧ (∀ id v i j x y,
       stored w id = Some v →
       ThinkingSession.Thoughts v !! i = Some x →
       ThinkingSession.Thoughts v !! j = Some y →
       Thought.Index x = Thought.Index y → i = j)
  ∧ (∀ args thoughts,
       StartThinkingArgs.SessionID args ≠ "" →
       len thoughts ≤ max_int →
       ∃ v,
         stored (appendAll (StartThinkingArgs.SessionID args) thoughts
                   (after (StartThinking args) w))
                (StartThinkingArgs.SessionID args) = Some v
         ∧ Thought.Content <$> ThinkingSession.Thoughts v = thoughts
         ∧ ∀ i x, ThinkingSession.Thoughts v !! i = Some x →
                  Thought.Index x = Z.of_nat i + 1)
  ∧ (∀ fuel args r w' v i x,
       ContinueThinking fuel args w = Done r w' →
       stored w (ContinueThinkingArgs.SessionID args) = Some v →
       ThinkingSession.Thoughts v !! i = Some x →
       ∃ v' x',
         stored w' (ContinueThinkingArgs.SessionID args) = Some v'
         ∧ ThinkingSession.Thoughts v' !! i = Some x'
         ∧ Thought.Index x' = Thought.Index x).
Proof.
  intros Hreach. pose proof (reachable_inv _ Hreach) as [Hwf Hok].
  split; [|split; [|split]].
  - intros id v i x Hv Hx. destruct (Hok _ _ Hv) as [_ Hidx]. by apply Hidx.
  - intros id v i j x y Hv Hx Hy Heq. destruct (Hok _ _ Hv) as [_ Hidx].
    rewrite (Hidx _ _ Hx), (Hidx _ _ Hy) in Heq. lia.
  - intros args thoughts Hsid Hlen.
    destruct (StartThinking_spec args w Hwf) as (text & w' & Hrun & Hwf' & _ & _ & Hst).
    cbv zeta in Hst. rewrite decide_False in Hst by done.
    unfold after at 1. rewrite Hrun.
    destruct (appendAll_contents (StartThinkingArgs.SessionID args) thoughts w' _ Hwf' Hst)
      as (v & Hv & Hc).
    { cbn. unfold len at 1. cbn. lia. }
    exists v. split; [done|]. split; [done|].
    assert (Hr : reachable (appendAll (StartThinkingArgs.SessionID args) thoughts w')).
    { apply reachable_appendAll. by eapply reachable_start. }
    destruct (reachable_inv _ Hr) as [_ Hok']. destruct (Hok' _ _ Hv) as [_ Hidx].
    exact Hidx.
  - intros fuel args r w' v i x Hrun Hv Hx. by eapply ContinueThinking_keeps_indices.
Qed.

Lemma thought_indices_witness :
  (∀ id v i x,
     stored w_two id = Some v → ThinkingSession.Thoughts v !! i = Some x →
     Thought.Index x = Z.of_nat i + 1)
  ∧ ∃ v,
      stored (appendAll "k" ["a"; "b"; "c"]
                (after (StartThinking
                          {| StartThinkingArgs.Problem := "p";
                             StartThinkingArgs.SessionID := "k";
                             StartThinkingArgs.EstimatedSteps := 0 |}) w_two)) "k" = Some v
      ∧ Thought.Index <$> ThinkingSession.Thoughts v = [1; 2; 3].
Proof.
  destruct (thought_indices w_two reachable_w_two) as (Hidx & _ & Hseq & _).
  split; [exact Hidx|].
  destruct (Hseq {| StartThinkingArgs.Problem := "p";
                    StartThinkingArgs.SessionID := "k";
                    StartThinkingArgs.EstimatedSteps := 0 |} ["a"; "b"; "c"]
              ltac:(discriminate) ltac:(unfold len, max_int; cbn; lia))
    as (v & Hv & Hc & Hi).
  exists v. split; [exact Hv|].
  destruct (ThinkingSession.Thoughts v) as [|x1 [|x2 [|x3 [|x4 rest]]]]; try discriminate Hc.
  cbn. rewrite (Hi 0%nat x1 eq_refl), (Hi 1%nat x2 eq_refl), (Hi 2%nat x3 eq_refl).
  reflexivity.
Defined.

(** ** Claim C2: what a read hands out *)

Lemma loadSession_inv w p v :
  loadSession w p = Some v →
  ∃ s ts, sessionObjs w !! p = Some s
          ∧ loadThoughts w (ThinkingSession.Thoughts s) = Some ts
          ∧ v = ThinkingSession.set_Thoughts ts s.
Proof.
  unfold loadSession. intros H.
  destruct (sessionObjs w !! p) as [s|] eqn:Hs; [|done]. cbn in H.
  destruct (loadThoughts w (ThinkingSession.Thoughts s)) as [ts|] eqn:Hts; [|done].
  cbn in H. injection H as <-. by exists s, ts.
Qed.





(** ** Witness for claim C3 *)

Lemma CompareAndSwap_all_or_nothing_witness :
  ∃ w2,
    CompareAndSwap 1 "trip" (reviseUpdate (revise "trip" "x" 7) 7) w_two
    = Done (inl (ErrInvalidStep 7)) w2
    ∧ sessions w2 = sessions w_two
    ∧ ∀ id, stored w2 id = stored w_two id.
Proof.
  destruct (CompareAndSwap_all_or_nothing 0 "trip" (reviseUpdate (revise "trip" "x" 7) 7)
              w_two _ wf_w_two (reviseUpdate_local _ _) ltac:(vm_compute; reflexivity))
    as (c & w1 & Hload & Hl & Hfail & _).
  destruct (loadSession_inv _ _ _ Hl) as (s & ts & Hs & Hts & Hv).
  assert (Hlen : length (ThinkingSession.Thoughts s) = 2%nat).
  { rewrite <- (loadThoughts_length _ _ _ Hts).
    apply (f_equal (λ v, length (ThinkingSession.Thoughts v))) in Hv. cbn in Hv. lia. }
  assert (Hrun : reviseUpdate (revise "trip" "x" 7) 7 c w1 = Done (inl (ErrInvalidStep 7)) w1).
  { apply (reviseUpdate_invalid _ _ _ _ s Hs). unfold len. rewrite Hlen.
    change (wrap (7 - 1)) with 6. lia. }
  exists w1. exact (Hfail _ _ Hrun).
Defined.

(** ** Claim C1: concurrent calls on one session *)

Lemma omap_insert_same {A B} (f : A → option B) (l : list A) i a y :
  l !! i = Some a → f a = f y → omap f (<[i := y]> l) = omap f l.
Proof.
  revert i. induction l as [|x l IH]; intros i Hi Hf; [done|].
  destruct i as [|i]; cbn in *.
  - injection Hi as ->. by rewrite Hf.
  - pose proof (IH i Hi Hf) as IH'. destruct (f x) as [b|]; [|exact IH'].
    f_equal. exact IH'.
Qed.

Lemma omap_insert_new {A B} (f : A → option B) (l : list A) i a y v :
  l !! i = Some a → f a = None → f y = Some v →
  omap f (<[i := y]> l) ≡ₚ v :: omap f l.
Proof.
  revert i. induction l as [|x l IH]; intros i Hi Ha Hy; [done|].
  destruct i as [|i]; cbn in *.
  - injection Hi as ->. by rewrite Ha, Hy.
  - pose proof (IH i Hi Ha Hy) as IH'. destruct (f x) as [b|]; [|exact IH'].
    etrans; [apply perm_skip; exact IH'|apply perm_swap].
Qed.

Lemma omap_length_le {A B} (f : A → option B) (l : list A) :
  (length (omap f l) ≤ length l)%nat.
Proof.
  induction l as [|x l IH]; [done|]. cbn. destruct (f x); cbn; lia.
Qed.

Lemma pending_private st b : pending st = Some b → b ∈ private st.
Proof.
  destruct st as [| | u v [| bid b' |] | v bid b' | |]; cbn; try done;
    intros [= ->]; set_solver.
Qed.

(** The reader-locked region, without assumptions on the rest of the heap. *)
Lemma casLoad_inv w sid p s r w1 :
  sessions w !! sid = Some p →
  sessionObjs w !! p = Some s →
  casLoad sid w = Done r w1 →
  ∃ c sc,
    r = inr (c, ThinkingSession.Version s)
    ∧ sessionObjs w !! c = None
    ∧ sessionObjs w1 = <[c := sc]> (sessionObjs w)
    ∧ sessions w1 = sessions w.
Proof.
  intros Hp Hs Hrun. unfold casLoad in Hrun. rewrite Hp in Hrun.
  apply bind_inv in Hrun as (c & wa & Hclone & Hrun).
  apply bind_inv in Hrun as (cur & wb & Hread & Hret).
  injection Hret as <- <-.
  unfold clone in Hclone.
  apply bind_inv in Hclone as (s' & w' & Hread' & Hclone).
  unfold readSession in Hread'. rewrite Hs in Hread'. injection Hread' as <- <-.
  apply bind_inv in Hclone as (qs & wc & Hcopy & Hnew).
  destruct (deepCopyThoughts_grows _ _ _ _ Hcopy) as [Hwc _].
  unfold newSession in Hnew. injection Hnew as <- <-.
  rewrite Hwc in Hread |- *. wsimpl. wsimpl in Hread.
  assert (Hc : sessionObjs w !! fresh (dom (sessionObjs w)) = None) by apply fresh_session_None.
  unfold readSession in Hread. wsimpl in Hread.
  rewrite lookup_insert_ne in Hread by congruence. rewrite Hs in Hread.
  injection Hread as <- <-. wsimpl.
  eexists _, _. split; [done|]. split; [exact Hc|]. done.
Qed.

(** What the closure of a call does to the session objects. *)
Lemma updateOf_spec args c sc w r w' :
  sessionObjs w !! c = Some sc →
  updateOf args c w = Done r w' →
  sessions w' = sessions w
  ∧ (∀ q, q ≠ c → is_Some (sessionObjs w !! q) → sessionObjs w' !! q = sessionObjs w !! q)
  ∧ is_Some (sessionObjs w' !! c)
  ∧ (∀ u x, r = inr (u, x) →
       u = c
       ∧ ∀ bid b, x = CapBranch bid b →
           sessionObjs w !! b = None ∧ b ≠ c
           ∧ ∃ bo, sessionObjs w' !! b = Some bo
                   ∧ ThinkingSession.ID bo ≠ ContinueThinkingArgs.SessionID args).
Proof.
  intros Hc Hrun. unfold updateOf in Hrun.
  destruct (ContinueThinkingArgs.ReviseStep args) as [step|].
  - apply bind_inv in Hrun as (r0 & w0 & Hf & Hret).
    destruct (reviseUpdate_local args step _ _ _ _ _ Hc Hf) as (Hsess & Hobjs & _ & Hptr).
    assert (Hc' : is_Some (sessionObjs w0 !! c)).
    { revert Hf. unfold reviseUpdate.
      erewrite bind_Done; [|unfold readSession; by rewrite Hc].
      destruct (decide _) as [_|_].
      { intros [= <- <-]. eauto. }
      destruct (ThinkingSession.Thoughts sc !! _) as [t|]; [|done].
      munfold. destruct (thoughtObjs w !! t) as [x|]; [|done].
      mrun. intros [= <- <-]. wsimpl. rewrite lookup_insert_eq. eauto. }
    destruct r0 as [err|[u []]]; injection Hret as <- <-.
    + do 3 (split; [done|]). intros u' x' [=].
    + do 3 (split; [done|]). intros u' x' [= <- <-].
      destruct (Hptr u () eq_refl) as [->|Hu]; [|].
      * split; [done|]. intros bid b [=].
      * exfalso. revert Hf. unfold reviseUpdate.
        erewrite bind_Done; [|unfold readSession; by rewrite Hc].
        destruct (decide _) as [_|_]; [done|].
        destruct (ThinkingSession.Thoughts sc !! _) as [t|]; [|done].
        munfold. destruct (thoughtObjs w !! t) as [x|]; [|done].
        mrun. intros [= -> _]. rewrite Hc in Hu. done.
  - destruct (ContinueThinkingArgs.CreateBranch args).
    + apply bind_inv in Hrun as (r0 & w0 & Hf & Hret).
      destruct (decide (len (ThinkingSession.Branches sc) < max_int)) as [Hlen|Hlen];
        [|by rewrite (branchUpdate_panic args c w sc Hc Hlen) in Hf].
      rewrite (branchUpdate_run args c w sc Hc Hlen) in Hf. cbv zeta in Hf.
      destruct (deepCopyThoughts _ _) as [qs w2| |] eqn:Hcopy; [|done|done].
      destruct (deepCopyThoughts_grows _ _ _ _ Hcopy) as [Hw2 _].
      injection Hf as <- <-. injection Hret as <- <-.
      rewrite Hw2. wsimpl.
      match goal with |- context [fresh ?D] => set (b := fresh D) end.
      assert (Hb : b ∉ dom (<[c:=ThinkingSession.set_LastActivity (timeline w (ticks w))
                  (ThinkingSession.set_Branches
                     (ThinkingSession.Branches sc ++
                        [ContinueThinkingArgs.SessionID args +:+ "_branch_"
                           +:+ pretty (len (ThinkingSession.Branches sc) + 1)]) sc)]>
                  (sessionObjs w))) by apply is_fresh.
      apply not_elem_of_dom in Hb. apply lookup_insert_None in Hb as [Hb Hcb].
      split; [done|]. split; [|split].
      * intros q Hq [x Hx]. rewrite lookup_insert_ne by congruence.
        by rewrite lookup_insert_ne.
      * rewrite lookup_insert_ne by done. rewrite lookup_insert_eq. eauto.
      * intros u x [= <- <-]. split; [done|]. intros bid b' [= <- <-].
        split; [done|]. split; [done|].
        eexists. split; [apply lookup_insert_eq|]. cbn. apply branch_id_ne.
    + apply bind_inv in Hrun as (r0 & w0 & Hf & Hret).
      destruct (decide (len (ThinkingSession.Thoughts sc) < max_int)) as [Hlen|Hlen];
        [|by rewrite (appendUpdate_panic args c w sc Hc Hlen) in Hf].
      destruct (appendUpdate_run args c w sc Hc Hlen) as (progress & statusMsg & Heq).
      rewrite Heq in Hf. injection Hf as <- <-. injection Hret as <- <-. wsimpl.
      split; [done|]. split; [|split].
      * intros q Hq _. by rewrite lookup_insert_ne.
      * rewrite lookup_insert_eq. eauto.
      * intros u x [= <- <-]. split; [done|]. intros bid b [=].
Qed.

(** A step that does not commit: the entry of the store and every object
    outside the private ones of the stepping call are left alone. *)
Lemma concurrent_inv_same sid v0 n w calls0 i args a y w' p :
  concurrent_inv sid v0 n (mkConfig w calls0) →
  calls0 !! i = Some (args, a) →
  sessions w !! sid = Some p →
  sessions w' !! sid = Some p →
  baseline y = baseline a →
  (∀ q, is_Some (sessionObjs w !! q) → is_Some (sessionObjs w' !! q)) →
  (∀ q, q ∈ private y →
        (q ∈ private a ∨ sessionObjs w !! q = None) ∧ is_Some (sessionObjs w' !! q)) →
  NoDup (private y) →
  (∀ q, q ∉ private a → is_Some (sessionObjs w !! q) →
        sessionObjs w' !! q = sessionObjs w !! q) →
  (∀ b, pending y = Some b →
        ∃ bo, sessionObjs w' !! b = Some bo ∧ ThinkingSession.ID bo ≠ sid) →
  concurrent_inv sid v0 n (mkConfig w' (<[i := (args, y)]> calls0)).
Proof.
  intros (p0 & s & Hp & Hs & Hver & Hnd & Hlt & Hlen & Hsid & Hpriv & Hpnd & Hdis & Hpend)
         Hi Hp0 Hp' Hbase Hdom Hnew Hndy Hkeep Hpendy.
  cbn [world calls] in *. assert (p0 = p) as -> by congruence.
  assert (Hpa : p ∉ private a).
  { intros Hin. by destruct (Hpriv _ _ _ Hi Hin). }
  assert (Hcomm : committed (mkConfig w' (<[i := (args, y)]> calls0))
                  = committed (mkConfig w calls0)).
  { unfold committed. cbn [calls]. by eapply omap_insert_same. }
  exists p, s. rewrite Hcomm. cbn [world calls].
  split; [done|]. split.
  { rewrite Hkeep; [done|done|]. rewrite Hs. eauto. }
  split; [done|]. split; [done|]. split; [done|].
  split; [by rewrite length_insert|]. split.
  { apply Forall_insert; [done|]. cbn. rewrite Forall_forall in Hsid.
    apply (Hsid (args, a)). by eapply list_elem_of_lookup_2. }
  split; [|split; [|split]].
  - intros j c q Hj Hq. apply list_lookup_insert_Some in Hj as [(<- & <- & _)|[Hne Hj]].
    + cbn in Hq. destruct (Hnew _ Hq) as [[Hqa|Hqn] Hq']; split; try done.
      * by destruct (Hpriv _ _ _ Hi Hqa).
      * intros ->. rewrite Hs in Hqn. done.
    + destruct (Hpriv _ _ _ Hj Hq) as [Hqp Hq']. split; [done|by apply Hdom].
  - intros j c Hj. apply list_lookup_insert_Some in Hj as [(<- & <- & _)|[Hne Hj]]; [done|].
    by eapply Hpnd.
  - intros j k c d q Hj Hk Hqc Hqd.
    apply list_lookup_insert_Some in Hj as [(<- & <- & _)|[Hnej Hj]];
      apply list_lookup_insert_Some in Hk as [(<- & <- & _)|[Hnek Hk]]; try done.
    + cbn in Hqc. destruct (Hnew _ Hqc) as [[Hqa|Hqn] _].
      * by eapply (Hdis _ _ _ _ _ Hi Hk).
      * destruct (Hpriv _ _ _ Hk Hqd) as [_ [x Hx]]. congruence.
    + cbn in Hqd. destruct (Hnew _ Hqd) as [[Hqa|Hqn] _].
      * by eapply (Hdis _ _ _ _ _ Hj Hi).
      * destruct (Hpriv _ _ _ Hj Hqc) as [_ [x Hx]]. congruence.
    + by eapply Hdis.
  - intros j c b Hj Hb. apply list_lookup_insert_Some in Hj as [(<- & <- & _)|[Hne Hj]].
    + by apply Hpendy.
    + destruct (Hpend _ _ _ Hj Hb) as (bo & Hbo & Hid). exists bo. split; [|done].
      rewrite Hkeep; [done| |rewrite Hbo; eauto].
      intros Hin. apply Hne. symmetry.
      eapply (Hdis _ _ _ _ _ Hj Hi); [|exact Hin]. by apply pending_private.
Qed.

(** The step that commits: the stepping call read, under the writer lock,
    the version it had remembered. *)
Lemma concurrent_inv_commit sid v0 n w calls0 i args u v x p s su :
  concurrent_inv sid v0 n (mkConfig w calls0) →
  min_int ≤ v0 → v0 + Z.of_nat n ≤ max_int →
  calls0 !! i = Some (args, AtCommit u v x) →
  sessions w !! sid = Some p →
  sessionObjs w !! p = Some s →
  ThinkingSession.Version s = v →
  sessionObjs w !! u = Some su →
  concurrent_inv sid v0 n
    (mkConfig
       (upd_sessions <[sid := u]>
          (upd_sessionObjs <[u := ThinkingSession.set_Version (wrap (v + 1)) su]> w))
       (<[i := (args, match x with
                      | CapBranch branchID branchSession =>
                          AtSetSession v branchID branchSession
                      | _ => Succeeded (response args x) v
                      end)]> calls0)).
Proof.
  intros (p0 & s0 & Hp & Hs & Hver & Hnd & Hlt & Hlen & Hsid & Hpriv & Hpnd & Hdis & Hpend)
         Hmin Hmax Hi Hp0 Hs0 Hv Hu.
  cbn [world calls] in *. assert (p0 = p) as -> by congruence.
  assert (s0 = s) as -> by congruence.
  set (y := match x with
            | CapBranch branchID branchSession => AtSetSession v branchID branchSession
            | _ => Succeeded (response args x) v
            end).
  assert (Hby : baseline y = Some v) by (unfold y; by destruct x).
  assert (Hperm : committed (mkConfig
       (upd_sessions <[sid := u]>
          (upd_sessionObjs <[u := ThinkingSession.set_Version (wrap (v + 1)) su]> w))
       (<[i := (args, y)]> calls0)) ≡ₚ v :: committed (mkConfig w calls0)).
  { unfold committed. cbn [calls]. by eapply omap_insert_new. }
  assert (Hcount : (length (committed (mkConfig w calls0)) < n)%nat).
  { pose proof (omap_length_le (λ c : ContinueThinkingArgs.t * pc, baseline c.2)
                  (<[i := (args, y)]> calls0)) as Hle.
    rewrite length_insert in Hle.
    change (omap _ (<[i := (args, y)]> calls0))
      with (committed (mkConfig
       (upd_sessions <[sid := u]>
          (upd_sessionObjs <[u := ThinkingSession.set_Version (wrap (v + 1)) su]> w))
       (<[i := (args, y)]> calls0))) in Hle.
    rewrite Hperm in Hle. cbn [length] in Hle. lia. }
  remember (committed (mkConfig w calls0)) as old eqn:Hold.
  assert (Hvk : v = v0 + Z.of_nat (length old)).
  { rewrite <- Hv, Hver. done. }
  assert (Hv1 : wrap (v + 1) = v + 1).
  { apply wrap_id. unfold int_ok. lia. }
  assert (Hpy : ∀ q, q ∈ private y → q ∈ private (AtCommit u v x) ∧ q ≠ u).
  { intros q Hq. pose proof (Hpnd _ _ Hi) as Hndp. cbn in Hndp.
    unfold y in Hq. destruct x as [|bid b|]; cbn in Hq, Hndp |- *; [set_solver| |set_solver].
    apply list_elem_of_singleton in Hq as ->.
    apply NoDup_cons in Hndp as [Hnin _].
    split; [right; by left|]. intros ->. apply Hnin. by left. }
  exists u, (ThinkingSession.set_Version (wrap (v + 1)) su). cbn [world calls]. wsimpl.
  split; [apply lookup_insert_eq|]. split; [apply lookup_insert_eq|].
  split.
  { cbn [ThinkingSession.set_Version ThinkingSession.Version].
    rewrite Hv1. unfold len. rewrite Hperm. cbn [length]. lia. }
  split.
  { rewrite Hperm. apply NoDup_cons. split; [|done].
    intros Hin. rewrite Forall_forall in Hlt. specialize (Hlt _ Hin). lia. }
  split.
  { rewrite Hperm. cbn [ThinkingSession.set_Version ThinkingSession.Version].
    rewrite Hv1. apply Forall_cons. split; [lia|].
    eapply Forall_impl; [exact Hlt|]. cbn. intros b Hb. lia. }
  split; [by rewrite length_insert|]. split.
  { apply Forall_insert; [done|]. cbn. rewrite Forall_forall in Hsid.
    apply (Hsid (args, AtCommit u v x)). by eapply list_elem_of_lookup_2. }
  assert (Hother : ∀ j c q, j ≠ i → calls0 !! j = Some c → q ∈ private c.2 → q ≠ u).
  { intros j c q Hne Hj Hq ->. apply Hne.
    eapply (Hdis _ _ _ _ _ Hj Hi); [exact Hq|]. cbn. destruct x; by left. }
  split; [|split; [|split]].
  - intros j c q Hj Hq. apply list_lookup_insert_Some in Hj as [(<- & <- & _)|[Hne Hj]].
    + destruct (Hpy _ Hq) as [Hqa Hqu]. split; [done|].
      rewrite lookup_insert_ne by done. by destruct (Hpriv _ _ _ Hi Hqa).
    + split; [by eapply Hother|].
      rewrite lookup_insert_ne by (symmetry; by eapply Hother).
      by destruct (Hpriv _ _ _ Hj Hq).
  - intros j c Hj. apply list_lookup_insert_Some in Hj as [(<- & <- & _)|[Hne Hj]].
    + cbn. unfold y. destruct x; cbn; [constructor|apply NoDup_singleton|constructor].
    + by eapply Hpnd.
  - intros j k c d q Hj Hk Hqc Hqd.
    apply list_lookup_insert_Some in Hj as [(<- & <- & _)|[Hnej Hj]];
      apply list_lookup_insert_Some in Hk as [(<- & <- & _)|[Hnek Hk]]; try done.
    + destruct (Hpy _ Hqc) as [Hqa _]. by eapply (Hdis _ _ _ _ _ Hi Hk).
    + destruct (Hpy _ Hqd) as [Hqa _]. by eapply (Hdis _ _ _ _ _ Hj Hi).
    + by eapply Hdis.
  - intros j c b Hj Hb. apply list_lookup_insert_Some in Hj as [(<- & <- & _)|[Hne Hj]].
    + cbn in Hb. assert (Hba : pending (AtCommit u v x) = Some b).
      { unfold y in Hb. by destruct x. }
      destruct (Hpend _ _ _ Hi Hba) as (bo & Hbo & Hid). exists bo. split; [|done].
      rewrite lookup_insert_ne; [done|].
      destruct (Hpy b) as [_ Hbu]; [by apply pending_private|done].
    + destruct (Hpend _ _ _ Hj Hb) as (bo & Hbo & Hid). exists bo. split; [|done].
      rewrite lookup_insert_ne; [done|]. symmetry.
      eapply (Hother j); [congruence|exact Hj|]. by apply pending_private.
Qed.

Lemma schedule1_inv sid v0 n i cfg cfg' :
  min_int ≤ v0 → v0 + Z.of_nat n ≤ max_int →
  concurrent_inv sid v0 n cfg →
  schedule1 i cfg = Some cfg' →
  concurrent_inv sid v0 n cfg'.
Proof.
  intros Hmin Hmax Hinv Hstep. destruct cfg as [w calls0].
  unfold schedule1 in Hstep. cbn [world calls] in Hstep.
  destruct (calls0 !! i) as [[args a]|] eqn:Hi; [|by injection Hstep as <-].
  destruct (step args a w) as [y w'| |] eqn:Hrun; [|done|done].
  injection Hstep as <-.
  pose proof Hinv as (p & s & Hp & Hs & Hver & Hnd & Hlt & Hlen & Hsid & Hpriv & Hpnd
                      & Hdis & Hpend).
  cbn [world calls] in *.
  assert (Hargs : ContinueThinkingArgs.SessionID args = sid).
  { rewrite Forall_forall in Hsid. apply (Hsid (args, a)). by eapply list_elem_of_lookup_2. }
  destruct a as [|c v|u v x|v bid b|err|text v]; cbn [step] in Hrun.
  - (* the reader-locked region *)
    apply bind_inv in Hrun as (r & w1 & Hload & Hret). rewrite Hargs in Hload.
    destruct (casLoad_inv _ _ _ _ _ _ Hp Hs Hload) as (c & sc & -> & Hc & Hobjs & Hsess).
    injection Hret as <- <-.
    eapply (concurrent_inv_same _ _ _ w); [exact Hinv|exact Hi|exact Hp| | | | | | |].
    + by rewrite Hsess.
    + done.
    + intros q Hq. rewrite Hobjs. apply lookup_insert_is_Some'. by right.
    + intros q Hq. cbn in Hq. apply list_elem_of_singleton in Hq as ->.
      split; [by right|]. rewrite Hobjs, lookup_insert_eq. eauto.
    + apply NoDup_singleton.
    + intros q _ [x Hx]. rewrite Hobjs. apply lookup_insert_ne. congruence.
    + done.
  - (* the update closure *)
    apply bind_inv in Hrun as (r & w1 & Hupd & Hret).
    destruct (Hpriv _ _ c Hi ltac:(cbn; by left)) as [Hcp [sc Hc]].
    destruct (updateOf_spec _ _ _ _ _ _ Hc Hupd) as (Hsess & Hkeep & Hc1 & Hres).
    assert (Hdom : ∀ q, is_Some (sessionObjs w !! q) → is_Some (sessionObjs w1 !! q)).
    { intros q Hq. destruct (decide (q = c)) as [->|Hne]; [done|]. by rewrite Hkeep. }
    assert (Hout : ∀ q, q ∉ private (AtUpdate c v) → is_Some (sessionObjs w !! q) →
                        sessionObjs w1 !! q = sessionObjs w !! q).
    { intros q Hq Hq'. apply Hkeep; [|done]. cbn in Hq. intros ->. apply Hq. by left. }
    destruct r as [err|[u x]]; injection Hret as <- <-.
    + eapply (concurrent_inv_same _ _ _ w); [exact Hinv|exact Hi|exact Hp| |done|done| | |done|done].
      * by rewrite Hsess.
      * intros q Hq. cbn in Hq. set_solver.
      * constructor.
    + destruct (Hres u x eq_refl) as [-> Hbr].
      eapply (concurrent_inv_same _ _ _ w); [exact Hinv|exact Hi|exact Hp| |done|done| | |done|].
      * by rewrite Hsess.
      * intros q Hq. destruct x as [|bid b|]; cbn in Hq.
        -- apply list_elem_of_singleton in Hq as ->. split; [left; cbn; by left|done].
        -- destruct (Hbr bid b eq_refl) as (Hb & Hbc & bo & Hbo & _).
           apply elem_of_cons in Hq as [->|Hq]; [split; [left; cbn; by left|done]|].
           apply list_elem_of_singleton in Hq as ->. split; [by right|]. rewrite Hbo. eauto.
        -- apply list_elem_of_singleton in Hq as ->. split; [left; cbn; by left|done].
      * destruct x as [|bid b|]; cbn; [apply NoDup_singleton| |apply NoDup_singleton].
        destruct (Hbr bid b eq_refl) as (Hb & Hbc & _).
        apply NoDup_cons. split; [|apply NoDup_singleton].
        intros Hin. apply list_elem_of_singleton in Hin. congruence.
      * intros b Hb. destruct x as [|bid b'|]; cbn in Hb; [done| |done].
        injection Hb as ->. destruct (Hbr bid b eq_refl) as (_ & _ & bo & Hbo & Hid).
        exists bo. split; [done|]. by rewrite <- Hargs.
  - (* the writer-locked region *)
    apply bind_inv in Hrun as (c0 & w1 & Hcommit & Hret). rewrite Hargs in Hcommit.
    destruct (Hpriv _ _ u Hi ltac:(cbn; destruct x; by left)) as [Hup [su Hu]].
    unfold casCommit in Hcommit. rewrite Hp in Hcommit.
    apply bind_inv in Hcommit as (cur & w2 & Hread & Hcommit).
    unfold readSession in Hread. rewrite Hs in Hread. injection Hread as <- <-.
    destruct (decide (ThinkingSession.Version s ≠ v)) as [Hne|Heq].
    + unfold ret in Hcommit. injection Hcommit as <- <-.
      unfold ret in Hret. injection Hret as <- <-.
      eapply (concurrent_inv_same _ _ _ w); [exact Hinv|exact Hi|exact Hp|done| |done| | |done|done].
      * by destruct x.
      * intros q Hq. cbn in Hq. set_solver.
      * constructor.
    + apply dec_stable in Heq.
      apply bind_inv in Hcommit as ([] & w3 & Hassign & Hcommit).
      unfold assignSession in Hassign. rewrite Hu in Hassign. injection Hassign as <-.
      apply bind_inv in Hcommit as ([] & w4 & Hins & Hcommit).
      injection Hins as <-. unfold ret in Hcommit. injection Hcommit as <- <-.
      unfold ret in Hret.
      assert (y = match x with
                  | CapBranch branchID branchSession => AtSetSession v branchID branchSession
                  | _ => Succeeded (response args x) v
                  end
              ∧ w' = upd_sessions <[sid := u]>
                (upd_sessionObjs <[u := ThinkingSession.set_Version (wrap (v + 1)) su]> w))
        as [-> ->].
      { destruct x; by injection Hret as <- <-. }
      by eapply concurrent_inv_commit.
  - (* registering the branch *)
    apply bind_inv in Hrun as ([] & w1 & Hset & Hret). injection Hret as <- <-.
    destruct (Hpend _ _ b Hi eq_refl) as (bo & Hbo & Hid).
    rewrite (SetSession_run _ _ _ Hbo) in Hset. injection Hset as <-.
    eapply (concurrent_inv_same _ _ _ w); [exact Hinv|exact Hi|exact Hp| |done|done| | |done|done].
    + wsimpl. by rewrite lookup_insert_ne.
    + intros q Hq. cbn in Hq. set_solver.
    + constructor.
  - injection Hrun as <- <-. by rewrite list_insert_id.
  - injection Hrun as <- <-. by rewrite list_insert_id.
Qed.

Lemma schedule_inv sid v0 n order : ∀ cfg cfg',
  min_int ≤ v0 → v0 + Z.of_nat n ≤ max_int →
  concurrent_inv sid v0 n cfg →
  schedule order cfg = Some cfg' →
  concurrent_inv sid v0 n cfg'.
Proof.
  induction order as [|i order IH]; intros cfg cfg' Hmin Hmax Hinv Hrun.
  - by injection Hrun as <-.
  - cbn in Hrun. destruct (schedule1 i cfg) as [cfg1|] eqn:H1; [|done].
    eapply IH; [done|done| |exact Hrun]. by eapply schedule1_inv.
Qed.

Lemma spawn_inv sid w argss p s :
  sessions w !! sid = Some p →
  sessionObjs w !! p = Some s →
  Forall (λ args, ContinueThinkingArgs.SessionID args = sid) argss →
  concurrent_inv sid (ThinkingSession.Version s) (length argss) (spawn w argss).
Proof.
  intros Hp Hs Hsid.
  assert (Hst : ∀ i c, calls (spawn w argss) !! i = Some c → c.2 = AtLoad).
  { intros i c Hc. unfold spawn in Hc. cbn in Hc.
    apply list_lookup_fmap_Some in Hc as (a & -> & _). done. }
  assert (Hcomm : committed (spawn w argss) = []).
  { unfold committed, spawn. cbn [calls]. induction argss as [|a l IH]; [done|].
    cbn. apply IH.
    - by apply Forall_inv_tail in Hsid.
    - intros i c Hc. apply (Hst (S i)). exact Hc. }
  exists p, s. rewrite Hcomm. cbn [world spawn].
  split; [done|]. split; [done|]. split; [unfold len; cbn; lia|].
  split; [constructor|]. split; [constructor|].
  split; [cbn; by rewrite length_fmap|]. split.
  { cbn. apply Forall_fmap. eapply Forall_impl; [exact Hsid|]. done. }
  split; [|split; [|split]].
  - intros i c q Hc Hq. rewrite (Hst _ _ Hc) in Hq. cbn in Hq. set_solver.
  - intros i c Hc. rewrite (Hst _ _ Hc). constructor.
  - intros i j c d q Hc _ Hq. rewrite (Hst _ _ Hc) in Hq. cbn in Hq. set_solver.
  - intros i c b Hc Hb. by rewrite (Hst _ _ Hc) in Hb.
Qed.

(** A call that runs alone takes its steps one after the other, and they
    are [ContinueThinking] with a single round: same result, same world. *)
Lemma steps_alone args w r w' :
  ContinueThinking 1 args w = Done r w' →
  ∃ st, steps 4 args AtLoad w = Done st w'
        ∧ match r with
          | inl err => st = Failed err
          | inr text => ∃ oldVersion, st = Succeeded text oldVersion
          end.
Proof.
  unfold ContinueThinking, updateOf, steps, step, updateOf, response, CompareAndSwap, bind, ret.
  destruct (ContinueThinkingArgs.ReviseStep args) as [reviseStep|];
    [|destruct (ContinueThinkingArgs.CreateBranch args)];
    (destruct (casLoad _ w) as [[err|[sessionCopy oldVersion]] w1| |]; [| |done|done];
     [intros [= <- <-]; eauto|]).
  - destruct (reviseUpdate _ _ _ w1) as [[err|[updated []]] w2| |]; [| |done|done];
      [intros [= <- <-]; eauto|].
    destruct (casCommit _ _ _ w2) as [[| |err] w3| |]; [| | |done|done];
      [|done|intros [= <- <-]; eauto].
    intros [= <- <-]. eauto.
  - destruct (branchUpdate _ _ w1) as [[err|[updated [branchID branchSession]]] w2| |];
      [| |done|done]; [intros [= <- <-]; eauto|].
    destruct (casCommit _ _ _ w2) as [[| |err] w3| |]; [| | |done|done];
      [|done|intros [= <- <-]; eauto].
    destruct (SetSession _ w3) as [[] w4| |]; [|done|done].
    intros [= <- <-]. eauto.
  - destruct (appendUpdate _ _ w1) as [[err|[updated [[thoughtID progress] statusMsg]]] w2| |];
      [| |done|done]; [intros [= <- <-]; eauto|].
    destruct (casCommit _ _ _ w2) as [[| |err] w3| |]; [| | |done|done];
      [|done|intros [= <- <-]; eauto].
    intros [= <- <-]. eauto.
Qed.

Lemma concurrent_inv_version sid v0 n cfg :
  concurrent_inv sid v0 n cfg →
  storedVersion (world cfg) sid = Some (v0 + len (committed cfg)).
Proof.
  intros (p & s & Hp & Hs & Hver & _). unfold storedVersion.
  rewrite Hp. cbn. rewrite Hs. cbn. by rewrite Hver.
Qed.

(** The step at which a call gets its baseline is the commit: the store
    held the baseline as version before it, and holds the next one after. *)
Lemma commit_stores_next sid v0 n i cfg cfg' c c' b :
  min_int ≤ v0 → v0 + Z.of_nat n ≤ max_int →
  concurrent_inv sid v0 n cfg →
  schedule1 i cfg = Some cfg' →
  calls cfg !! i = Some c → calls cfg' !! i = Some c' →
  baseline c.2 = None → baseline c'.2 = Some b →
  storedVersion (world cfg) sid = Some b
  ∧ storedVersion (world cfg') sid = Some (b + 1).
Proof.
  intros Hmin Hmax Hinv Hstep Hc Hc' Hb Hb'.
  pose proof (schedule1_inv _ _ _ _ _ _ Hmin Hmax Hinv Hstep) as Hinv'.
  rewrite (concurrent_inv_version _ _ _ _ Hinv), (concurrent_inv_version _ _ _ _ Hinv').
  destruct cfg as [w calls0]. unfold schedule1 in Hstep. cbn [world calls] in *.
  rewrite Hc in Hstep. destruct c as [args a]. cbn in Hb.
  destruct (step args a w) as [y w'| |] eqn:Hrun; [|done|done].
  injection Hstep as <-. cbn [calls] in Hc'.
  rewrite list_lookup_insert_eq in Hc' by (by eapply lookup_lt_Some).
  injection Hc' as <-. cbn in Hb'.
  assert (Hperm : committed (mkConfig w' (<[i := (args, y)]> calls0))
                  ≡ₚ b :: committed (mkConfig w calls0)).
  { unfold committed. cbn [calls]. by eapply omap_insert_new. }
  unfold len. rewrite Hperm. cbn [length].
  destruct Hinv as (p & s & Hp & Hs & Hver & _ & _ & _ & Hsid & _). cbn [world calls] in *.
  assert (Hargs : ContinueThinkingArgs.SessionID args = sid).
  { rewrite Forall_forall in Hsid. apply (Hsid (args, a)). by eapply list_elem_of_lookup_2. }
  assert (Hvb : ThinkingSession.Version s = b).
  { destruct a as [|c v|u v x|v bid b0|err|text v]; cbn [step] in Hrun; try done.
    - apply bind_inv in Hrun as (r & w1 & _ & Hret).
      destruct r as [err|[c v]]; unfold ret in Hret; by injection Hret as <- <-.
    - apply bind_inv in Hrun as (r & w1 & _ & Hret).
      destruct r as [err|[u x]]; unfold ret in Hret; by injection Hret as <- <-.
    - apply bind_inv in Hrun as (c0 & w1 & Hcommit & Hret). rewrite Hargs in Hcommit.
      unfold casCommit in Hcommit. rewrite Hp in Hcommit.
      apply bind_inv in Hcommit as (cur & w2 & Hread & Hcommit).
      unfold readSession in Hread. rewrite Hs in Hread. injection Hread as <- <-.
      destruct (decide (ThinkingSession.Version s ≠ v)) as [Hne|Heq].
      + unfold ret in Hcommit. injection Hcommit as <- <-.
        unfold ret in Hret. by injection Hret as <- <-.
      + apply dec_stable in Heq.
        apply bind_inv in Hcommit as ([] & w3 & _ & Hcommit).
        apply bind_inv in Hcommit as ([] & w4 & _ & Hcommit).
        unfold ret in Hcommit. injection Hcommit as <- <-.
        destruct x; unfold ret in Hret; injection Hret as <- <-; cbn in Hb'; congruence.
    - unfold ret in Hrun. by injection Hrun as <- <-. }
  unfold len in Hver. split; f_equal; lia.
Qed.

(** C1.  Any number of concurrent [ContinueThinking] calls (appends,
    revisions, branches) on one stored session, their steps interleaved in
    any order, as long as the version stays an [int]: at every moment the
    version of the stored session is its initial version plus the number of
    calls whose [CompareAndSwap] has committed; the baselines these calls
    observed are pairwise distinct (two calls that read the same version
    never both commit) and lie between the initial version and the current
    one; the step that commits finds its baseline in the store and leaves
    the baseline plus one there; and once all calls have returned, the calls
    that committed are exactly the calls that report success. *)
Theorem no_lost_updates sid argss w p s order cfg :
  sessions w !! sid = Some p →
  sessionObjs w !! p = Some s →
  Forall (λ args, ContinueThinkingArgs.SessionID args = sid) argss →
  min_int ≤ ThinkingSession.Version s →
  ThinkingSession.Version s + len argss ≤ max_int →
  schedule order (spawn w argss) = Some cfg →
  storedVersion (world cfg) sid
    = Some (ThinkingSession.Version s + len (committed cfg))
  ∧ NoDup (committed cfg)
  ∧ Forall (λ b, ThinkingSession.Version s ≤ b
                 < ThinkingSession.Version s + len (committed cfg)) (committed cfg)
  ∧ (∀ i cfg' c c' b,
       schedule1 i cfg = Some cfg' →
       calls cfg !! i = Some c → calls cfg' !! i = Some c' →
       baseline c.2 = None → baseline c'.2 = Some b →
       storedVersion (world cfg) sid = Some b
       ∧ storedVersion (world cfg') sid = Some (b + 1))
  ∧ (Forall (λ c, returned c.2) (calls cfg) → committed cfg = successes cfg).
Proof.
  intros Hp Hs Hsid Hmin Hmax Hrun.
  pose proof (spawn_inv sid w argss p s Hp Hs Hsid) as Hinv0.
  pose proof (schedule_inv _ _ _ _ _ _ Hmin Hmax Hinv0 Hrun) as Hinv.
  split; [by eapply concurrent_inv_version|].
  pose proof Hinv as (p' & s' & _ & _ & Hver & Hnd & Hlt & _). rewrite Hver in Hlt.
  split; [done|]. split; [done|]. split.
  - intros i cfg' c c' b. by eapply commit_stores_next.
  - intros Hret. unfold committed, successes.
    induction (calls cfg) as [|[args st] l IH]; [done|].
    apply Forall_cons in Hret as [Hst Hret]. cbn in Hst |- *.
    rewrite (IH Hret). by destruct st.
Qed.

Lemma no_lost_updates_witness :
  ∃ cfg,
    schedule example_order (spawn w_two example_calls) = Some cfg
    ∧ storedVersion w_two "trip" = Some 2
    ∧ committed cfg = [2; 3; 4]
    ∧ storedVersion (world cfg) "trip" = Some 5.
Proof.
  destruct (schedule example_order (spawn w_two example_calls)) as [cfg|] eqn:Hrun;
    [|by vm_compute in Hrun].
  exists cfg. split; [done|]. split; [vm_compute; reflexivity|].
  assert (Hc : committed cfg = [2; 3; 4]).
  { apply (f_equal (fmap committed)) in Hrun. vm_compute in Hrun. by injection Hrun. }
  split; [exact Hc|].
  destruct (no_lost_updates "trip" example_calls w_two _ _ example_order cfg
              ltac:(vm_compute; reflexivity) ltac:(vm_compute; reflexivity)
              ltac:(repeat constructor)
              ltac:(vm_compute; discriminate)
              ltac:(vm_compute; discriminate)
              Hrun) as (Hver & _).
  rewrite Hc in Hver. exact Hver.
Defined.

(** * Further properties

    The reads of the store and the two handlers built on them, more
    invariants of the reachable worlds, more on concurrent calls, and what
    the responses say. *)

(** ** The review *)

Lemma string_app_assoc (a b c : string) : (a +:+ b) +:+ c = a +:+ (b +:+ c).
Proof.
  induction a as [|x a IH]; [done|].
  change (String x ((a +:+ b) +:+ c) = String x (a +:+ (b +:+ c))). by rewrite IH.
Qed.

Lemma loadThoughts_cons_inv w p ps ts :
  loadThoughts w (p :: ps) = Some ts →
  ∃ x ts', thoughtObjs w !! p = Some x ∧ loadThoughts w ps = Some ts' ∧ ts = x :: ts'.
Proof.
  unfold loadThoughts. cbn. intros H.
  destruct (thoughtObjs w !! p) as [x|]; [|done]. cbn in H.
  destruct (mapM _ ps) as [ts'|]; [|done]. cbn in H. injection H as <-. eauto.
Qed.

(** The loop prints one line per thought, numbered by position. *)
Lemma reviewThoughts_run ps : ∀ i review w ts,
  loadThoughts w ps = Some ts →
  reviewThoughts i ps review w =
    Done (review +:+
            joined (imap (λ k x, pretty (wrap (Z.of_nat (i + k) + 1)) +:+ ". "
                                   +:+ Thought.Content x
                                   +:+ (if Thought.Revised x then " (revised)" else "")
                                   +:+ nl) ts)) w.
Proof.
  induction ps as [|p ps IH]; intros i review w ts Hts.
  - injection Hts as <-. cbn. by rewrite string_app_empty_r.
  - apply loadThoughts_cons_inv in Hts as (x & ts' & Hx & Hts' & ->).
    cbn [reviewThoughts]. erewrite bind_Done; [|unfold readThought; by rewrite Hx].
    rewrite (IH _ _ _ _ Hts'). f_equal.
    rewrite imap_cons. cbn [joined foldr]. rewrite !string_app_assoc.
    rewrite Nat.add_0_r. do 6 f_equal. unfold joined. f_equal.
    apply imap_ext. intros k y _. cbn. do 3 f_equal. lia.
Qed.

Lemma ReviewThinking_run args w v :
  stored w (ReviewThinkingArgs.SessionID args) = Some v →
  ∃ c w',
    SessionSnapshot (ReviewThinkingArgs.SessionID args) w = Done (Some c) w'
    ∧ ReviewThinking args w =
        Done (inr (reviewHeader v +:+
                     joined (imap (λ k x, pretty (wrap (Z.of_nat k + 1)) +:+ ". "
                                            +:+ Thought.Content x
                                            +:+ (if Thought.Revised x then " (revised)" else "")
                                            +:+ nl) (ThinkingSession.Thoughts v)))) w'.
Proof.
  intros Hv.
  destruct (SessionSnapshot_run _ _ _ Hv) as (c & sc & w1 & Hrun & _ & _ & _ & _ & Hl & _).
  destruct (loadSession_inv _ _ _ Hl) as (s & ts & Hs & Hts & ->).
  exists c, w1. split; [done|].
  unfold ReviewThinking. erewrite bind_Done; [|exact Hrun]. cbv beta iota.
  erewrite bind_Done; [|unfold readSession; by rewrite Hs]. cbv beta zeta.
  erewrite bind_Done; [|by apply reviewThoughts_run].
  unfold ret. do 2 f_equal. unfold reviewHeader.
  cbn [ThinkingSession.set_Thoughts ThinkingSession.ID ThinkingSession.Problem
       ThinkingSession.Status ThinkingSession.Thoughts ThinkingSession.EstimatedTotal
       ThinkingSession.Branches].
  assert (len (ThinkingSession.Thoughts s) = len ts) as ->.
  { unfold len. by rewrite (loadThoughts_length _ _ _ Hts). }
  destruct (decide (len (ThinkingSession.Branches s) > 0)); rewrite !string_app_assoc; done.
Qed.

Lemma ReviewThinking_missing args w :
  sessions w !! ReviewThinkingArgs.SessionID args = None →
  ReviewThinking args w
  = Done (inl (ErrSessionNotFound (ReviewThinkingArgs.SessionID args))) w.
Proof.
  intros Hnone. unfold ReviewThinking, SessionSnapshot, bind. by rewrite Hnone.
Qed.

(** In a session of the store the position of a thought and its [Index]
    agree, so the review can be told of the session value alone. *)
Lemma ReviewThinking_reviewText args w v :
  inv w →
  stored w (ReviewThinkingArgs.SessionID args) = Some v →
  ∃ c w',
    SessionSnapshot (ReviewThinkingArgs.SessionID args) w = Done (Some c) w'
    ∧ ReviewThinking args w = Done (inr (reviewText v)) w'.
Proof.
  intros [Hwf Hok] Hv.
  destruct (ReviewThinking_run _ _ _ Hv) as (c & w' & Hsnap & Hrun).
  exists c, w'. split; [done|]. rewrite Hrun. do 2 f_equal. unfold reviewText. f_equal.
  f_equal. rewrite <- imap_const. apply imap_ext. intros k x Hx. cbn.
  unfold reviewLine. destruct (Hok _ _ Hv) as [_ Hidx]. rewrite (Hidx _ _ Hx).
  destruct (stored_inv _ _ _ Hv) as (p & s & ts & Hp & Hs & Hts & ->).
  destruct Hwf as [_ Hobj]. destruct (Hobj _ _ Hs) as (_ & Hlen & _).
  cbn in Hx. apply lookup_lt_Some in Hx.
  rewrite (loadThoughts_length _ _ _ Hts) in Hx. unfold len in Hlen.
  rewrite wrap_id; [done|]. unfold int_ok, min_int. lia.
Qed.

Lemma ReviewThinking_reads_only_aux args w :
  wf w → ∃ r w', ReviewThinking args w = Done r w' ∧ extends w w'.
Proof.
  intros Hwf. destruct (sessions w !! ReviewThinkingArgs.SessionID args) as [p|] eqn:Hp.
  - destruct (wf_stored _ _ _ Hwf Hp) as [v Hv].
    destruct (ReviewThinking_run _ _ _ Hv) as (c & w' & Hsnap & Hrun).
    destruct (SessionSnapshot_wf _ _ _ _ Hwf Hsnap) as (_ & Hext & _).
    by eexists _, w'.
  - eexists _, w. split; [by apply ReviewThinking_missing|apply extends_refl].
Qed.

(** X1.  [ReviewThinking] only reads.  In a well-formed world it always
    returns: the error "session <id> not found", with the world as it was,
    when the store holds nothing under the id, and a text otherwise.  The
    map of the store is the same afterwards, no object that existed is
    changed, and every stored session reads as before. *)
Theorem ReviewThinking_reads_only args w :
  wf w →
  ∃ r w',
    ReviewThinking args w = Done r w'
    ∧ match sessions w !! ReviewThinkingArgs.SessionID args with
      | None => r = inl (ErrSessionNotFound (ReviewThinkingArgs.SessionID args)) ∧ w' = w
      | Some _ => ∃ text, r = inr text
      end
    ∧ wf w' ∧ extends w w' ∧ sessions w' = sessions w
    ∧ ∀ id, stored w' id = stored w id.
Proof.
  intros Hwf. destruct (sessions w !! ReviewThinkingArgs.SessionID args) as [p|] eqn:Hp.
  - destruct (wf_stored _ _ _ Hwf Hp) as [v Hv].
    destruct (ReviewThinking_run _ _ _ Hv) as (c & w' & Hsnap & Hrun).
    destruct (SessionSnapshot_wf _ _ _ _ Hwf Hsnap) as (Hwf' & Hext & Hsess).
    eexists _, w'. split; [exact Hrun|]. split; [eauto|].
    do 3 (split; [done|]). intros id. apply stored_frame; [done|done|by rewrite Hsess].
  - eexists _, w. split; [by apply ReviewThinking_missing|].
    do 2 (split; [done|]). split; [apply extends_refl|done].
Qed.

Lemma ReviewThinking_reads_only_witness :
  ∃ text w',
    ReviewThinking {| ReviewThinkingArgs.SessionID := "trip" |} w_two = Done (inr text) w'
    ∧ stored w' "trip" = stored w_two "trip".
Proof.
  destruct (ReviewThinking_reads_only {| ReviewThinkingArgs.SessionID := "trip" |}
              w_two wf_w_two) as (r & w' & Hrun & Hr & _ & _ & _ & Hst).
  assert (Hp : is_Some (sessions w_two !! "trip")) by (vm_compute; eauto).
  destruct Hp as [p Hp]. cbn in Hr. rewrite Hp in Hr. destruct Hr as [text ->].
  exists text, w'. split; [exact Hrun|apply Hst].
Defined.

(** X2.  In every state the handlers can reach, the review of a stored
    session is the header (id, problem, status, number of steps and
    estimate, branches when there are some) followed by one line per
    thought, in order, where the number printed in front of a thought is
    its [Index] field and a revised thought is marked " (revised)". *)
Theorem ReviewThinking_text args w v :
  reachable w →
  stored w (ReviewThinkingArgs.SessionID args) = Some v →
  ∃ w', ReviewThinking args w = Done (inr (reviewText v)) w'.
Proof.
  intros Hw Hv.
  destruct (ReviewThinking_reviewText args w v (reachable_inv _ Hw) Hv) as (c & w' & _ & Hrun).
  by exists w'.
Qed.

Lemma ReviewThinking_text_witness :
  ∃ w',
    ReviewThinking {| ReviewThinkingArgs.SessionID := "trip" |} w_two
    = Done (inr ("=== Thinking Review: trip ===" +:+ nl
                 +:+ "Problem: plan a trip" +:+ nl
                 +:+ "Status: completed" +:+ nl
                 +:+ "Steps: 2 of ~3" +:+ nl
                 +:+ nl +:+ "--- Thought Sequence ---" +:+ nl
                 +:+ "1. pick destination" +:+ nl
                 +:+ "2. book flight" +:+ nl)) w'.
Proof.
  destruct (ReviewThinking_text {| ReviewThinkingArgs.SessionID := "trip" |} w_two _
              reachable_w_two ltac:(vm_compute; reflexivity)) as (w' & Hrun).
  exists w'. rewrite Hrun. vm_compute. reflexivity.
Defined.

(** X3.  A revision shows in the review.  In a reachable state, after
    [ContinueThinking] has revised step [k] of a session (1 <= k <= number
    of thoughts), the review of the session has the same header and the
    same lines as before, except line [k], which reads
    "k. <the new text> (revised)". *)
Theorem revise_shows_in_review fuel args stepNumber w v :
  reachable w →
  ContinueThinkingArgs.ReviseStep args = Some stepNumber →
  int_ok stepNumber →
  stored w (ContinueThinkingArgs.SessionID args) = Some v →
  1 ≤ stepNumber ≤ len (ThinkingSession.Thoughts v) →
  ∃ text w1 w2,
    ContinueThinking (S fuel) args w = Done (inr text) w1
    ∧ ReviewThinking
        {| ReviewThinkingArgs.SessionID := ContinueThinkingArgs.SessionID args |} w1
      = Done (inr (reviewHeader v +:+
                     joined (<[Z.to_nat (stepNumber - 1) :=
                                 pretty stepNumber +:+ ". "
                                   +:+ ContinueThinkingArgs.Thought args
                                   +:+ " (revised)" +:+ nl]>
                               (reviewLine <$> ThinkingSession.Thoughts v)))) w2.
Proof.
  intros Hw Hrev Hok Hv Hstep.
  pose proof (reachable_inv _ Hw) as Hinv. pose proof Hinv as [Hwf Hsok].
  assert (Hlen : 0 ≤ len (ThinkingSession.Thoughts v) ≤ max_int).
  { split; [apply len_nonneg|].
    destruct (stored_inv _ _ _ Hv) as (p & s & ts & Hp & Hs & Hts & ->).
    destruct Hwf as [_ Hobj]. destruct (Hobj _ _ Hs) as (_ & Hl & _).
    cbn. unfold len in *. by rewrite (loadThoughts_length _ _ _ Hts). }
  destruct (step_index stepNumber _ Hok Hlen) as [Hiff Hwrap].
  pose proof (Hwrap Hstep) as Hw1.
  assert (Hidx : 0 ≤ wrap (stepNumber - 1) < len (ThinkingSession.Thoughts v)) by by apply Hiff.
  destruct (lookup_index_Some _ _ Hidx) as [x Hx].
  destruct (ContinueThinking_revise fuel args stepNumber w v x Hwf Hrev Hv Hidx Hx)
    as (text & w1 & Hrun & Hwf1 & Hext & Hfr & Hst).
  assert (Hinv1 : inv w1) by (by eapply ContinueThinking_inv).
  destruct (ReviewThinking_reviewText
              {| ReviewThinkingArgs.SessionID := ContinueThinkingArgs.SessionID args |}
              w1 _ Hinv1 Hst) as (c & w2 & _ & Hreview).
  exists text, w1, w2. split; [exact Hrun|]. rewrite Hreview. do 2 f_equal.
  unfold reviewText, reviewHeader.
  cbn [ThinkingSession.set_Thoughts ThinkingSession.set_LastActivity
       ThinkingSession.set_Version ThinkingSession.ID ThinkingSession.Problem
       ThinkingSession.Status ThinkingSession.Thoughts ThinkingSession.EstimatedTotal
       ThinkingSession.Branches].
  assert (len (<[Z.to_nat (wrap (stepNumber - 1)) :=
                   {| Thought.Index := Thought.Index x;
                      Thought.Content := ContinueThinkingArgs.Thought args;
                      Thought.Created := Thought.Created x;
                      Thought.Revised := true;
                      Thought.ParentIndex := Thought.ParentIndex x |}]>
                 (ThinkingSession.Thoughts v))
          = len (ThinkingSession.Thoughts v)) as ->.
  { unfold len. by rewrite length_insert. }
  rewrite !string_app_assoc. do 14 f_equal.
  rewrite list_fmap_insert, Hw1. do 2 f_equal.
  unfold reviewLine. cbn. destruct Hsok with (1 := Hv) as [_ Hnum].
  rewrite (Hnum _ _ Hx), Hw1.
  by replace (Z.of_nat (Z.to_nat (stepNumber - 1)) + 1) with stepNumber by lia.
Qed.

Lemma revise_shows_in_review_witness :
  ∃ text w1 w2,
    ContinueThinking 1 (revise "trip" "pick a season" 1) w_two = Done (inr text) w1
    ∧ ReviewThinking {| ReviewThinkingArgs.SessionID := "trip" |} w1
      = Done (inr ("=== Thinking Review: trip ===" +:+ nl
                   +:+ "Problem: plan a trip" +:+ nl
                   +:+ "Status: completed" +:+ nl
                   +:+ "Steps: 2 of ~3" +:+ nl
                   +:+ nl +:+ "--- Thought Sequence ---" +:+ nl
                   +:+ "1. pick a season (revised)" +:+ nl
                   +:+ "2. book flight" +:+ nl)) w2.
Proof.
  destruct (revise_shows_in_review 0 (revise "trip" "pick a season" 1) 1 w_two _
              reachable_w_two eq_refl ltac:(unfold int_ok, min_int, max_int; lia)
              ltac:(vm_compute; reflexivity) ltac:(vm_compute; split; discriminate))
    as (text & w1 & w2 & Hrun & Hreview).
  exists text, w1, w2. split; [exact Hrun|]. cbn in Hreview. rewrite Hreview.
  vm_compute. reflexivity.
Defined.

(** ** Snapshots of the whole store *)

Lemma SessionSnapshot_clone w id p c w1 :
  sessions w !! id = Some p →
  SessionSnapshot id w = Done (Some c) w1 → clone p w = Done c w1.
Proof.
  intros Hp Hrun. unfold SessionSnapshot in Hrun. rewrite Hp in Hrun.
  apply bind_inv in Hrun as (c' & w' & Hclone & Hret). by injection Hret as <- <-.
Qed.

Lemma snapshotAll_run order : ∀ acc w,
  wf w →
  Forall (λ id, is_Some (sessions w !! id)) order →
  len acc + len order ≤ max_int →
  ∃ cs w',
    snapshotAll (omap (λ id, sessions w !! id) order) acc w = Done (acc ++ cs) w'
    ∧ wf w' ∧ extends w w' ∧ sessions w' = sessions w
    ∧ Forall2 (λ id c, is_Some (stored w id) ∧ loadSession w' c = stored w id) order cs
    ∧ NoDup cs
    ∧ Forall (λ c, sessionObjs w !! c = None) cs
    ∧ (∀ c sc t, c ∈ cs → sessionObjs w' !! c = Some sc →
         t ∈ ThinkingSession.Thoughts sc → thoughtObjs w !! t = None).
Proof.
  induction order as [|id order IH]; intros acc w Hwf Hall Hlen.
  - exists [], w. cbn. rewrite app_nil_r. split; [done|]. split; [done|].
    split; [apply extends_refl|]. split; [done|]. split; [constructor|].
    split; [constructor|]. split; [constructor|]. intros c sc t Hc. by apply elem_of_nil in Hc.
  - apply Forall_cons in Hall as [[p Hp] Hall].
    destruct (wf_stored _ _ _ Hwf Hp) as [v Hv].
    destruct (SessionSnapshot_run _ _ _ Hv)
      as (c & sc & w1 & Hrun & Hc & Hobjs & Hsess & Hsub & Hl & Hnd & Hnew).
    destruct (SessionSnapshot_wf _ _ _ _ Hwf Hrun) as (Hwf1 & Hext1 & _).
    pose proof (SessionSnapshot_clone _ _ _ _ _ Hp Hrun) as Hclone.
    assert (Hlen' : len (id :: order) = len order + 1) by (unfold len; cbn; lia).
    pose proof (len_nonneg order) as Hpos.
    destruct (IH (acc ++ [c]) w1 Hwf1) as (cs & w' & Hrest & Hwf' & Hext & Hsess' & Hcopies
                                           & Hnd' & Hfresh & Hth).
    { by rewrite Hsess. }
    { rewrite len_app. unfold len at 2. cbn. lia. }
    exists (c :: cs), w'. split.
    { cbn [omap list_omap]. rewrite Hp. cbn [snapshotAll].
      erewrite bind_Done; [|exact Hclone].
      unfold append. rewrite decide_True by lia. unfold ret at 1, bind at 1.
      rewrite <- Hsess, Hrest. by rewrite <- app_assoc. }
    assert (Hcw1 : sessionObjs w1 !! c = Some sc) by (rewrite Hobjs; apply lookup_insert_eq).
    split; [done|]. split; [by eapply extends_trans|]. split; [congruence|].
    split.
    { constructor.
      - rewrite Hv. split; [eauto|]. by eapply loadSession_weaken.
      - eapply Forall2_impl; [exact Hcopies|]. cbn. intros id' c'.
        by rewrite (stored_frame w w1 id' Hwf Hext1 ltac:(by rewrite Hsess)). }
    split.
    { constructor; [|done]. intros Hin. rewrite Forall_forall in Hfresh.
      specialize (Hfresh _ Hin). congruence. }
    split.
    { constructor; [done|]. eapply Forall_impl; [exact Hfresh|]. cbn. intros c' Hc'.
      destruct Hext1 as [_ HS]. destruct (sessionObjs w !! c') as [y|] eqn:Hy; [|done].
      pose proof (lookup_weaken _ _ _ _ Hy HS). congruence. }
    intros c' sc' t Hin Hsc' Ht. apply elem_of_cons in Hin as [->|Hin].
    + destruct Hext as [_ HS]. pose proof (lookup_weaken _ _ _ _ Hcw1 HS) as Hcw'.
      assert (sc' = sc) as -> by congruence.
      rewrite Forall_forall in Hnew. by apply Hnew.
    + pose proof (Hth _ _ _ Hin Hsc' Ht) as Ht1. destruct Hext1 as [HT _].
      destruct (thoughtObjs w !! t) as [y|] eqn:Hy; [|done].
      pose proof (lookup_weaken _ _ _ _ Hy HT). congruence.
Qed.

Lemma enumerates_length order w :
  enumerates order w → length order = size (sessions w).
Proof.
  intros [Hnd Hin]. rewrite <- size_dom. unfold size, set_size. cbn.
  apply Permutation_length. apply NoDup_Permutation; [done|apply NoDup_elements|].
  intros id. rewrite Hin, elem_of_elements. symmetry. apply elem_of_dom.
Qed.

(** X4.  [SessionsSnapshot] copies every session.  In a well-formed world it
    returns one pointer per entry of the map, in the order the map is
    ranged over.  Each pointer is to a new session object whose thoughts
    are new objects too, and which reads as the stored session does; none
    of them is a pointer [Sessions] returns, those being the pointers of
    the map itself.  The store is left as it was. *)
Theorem SessionsSnapshot_copies order w :
  wf w → enumerates order w → len order ≤ max_int →
  ∃ copies w' live,
    SessionsSnapshot order w = Done copies w'
    ∧ Sessions order w = Done live w
    ∧ length copies = size (sessions w)
    ∧ Forall2 (λ id c, is_Some (stored w id) ∧ loadSession w' c = stored w id) order copies
    ∧ Forall2 (λ id p, sessions w !! id = Some p) order live
    ∧ NoDup copies
    ∧ Forall (λ c, sessionObjs w !! c = None ∧ c ∉ live) copies
    ∧ (∀ c sc t, c ∈ copies → sessionObjs w' !! c = Some sc →
         t ∈ ThinkingSession.Thoughts sc → thoughtObjs w !! t = None)
    ∧ sessions w' = sessions w
    ∧ extends w w'
    ∧ ∀ id, stored w' id = stored w id.
Proof.
  intros Hwf Henum Hlen. pose proof Henum as [Hnd Hin].
  assert (Hall : Forall (λ id, is_Some (sessions w !! id)) order).
  { apply Forall_forall. intros id Hid. by apply Hin. }
  destruct (snapshotAll_run order [] w Hwf Hall) as (cs & w' & Hrun & Hwf' & Hext & Hsess
                                                   & Hcopies & Hnd' & Hfresh & Hth).
  { unfold len at 1. cbn. lia. }
  assert (Hlive : Forall2 (λ id p, sessions w !! id = Some p) order
                    (omap (λ id, sessions w !! id) order)).
  { clear -Hall. induction order as [|id order IH]; [constructor|].
    apply Forall_cons in Hall as [[p Hp] Hall]. cbn. rewrite Hp. constructor; [done|].
    by apply IH. }
  exists cs, w', (omap (λ id, sessions w !! id) order).
  split; [exact Hrun|]. split; [done|]. split.
  { rewrite <- (enumerates_length _ _ Henum). symmetry. by eapply Forall2_length. }
  split; [done|]. split; [done|]. split; [done|]. split.
  { apply Forall_forall. intros c Hc. rewrite Forall_forall in Hfresh.
    split; [by apply Hfresh|]. intros Hlv.
    apply list_elem_of_omap in Hlv as (id & _ & Hp).
    destruct Hwf as [Hmap _]. destruct (Hmap _ _ Hp) as [y Hy].
    rewrite (Hfresh _ Hc) in Hy. done. }
  split; [done|]. split; [done|]. split; [done|].
  intros id. apply stored_frame; [done|done|by rewrite Hsess].
Qed.

Lemma reachable_w_branched : reachable w_branched.
Proof. apply reachable_after_continue, reachable_w_two. Qed.

Lemma enumerates_w_branched : enumerates ["trip_branch_1"; "trip"] w_branched.
Proof.
  assert (Hsess : sessions w_branched
                  = {[ "trip" := 4%positive; "trip_branch_1" := 5%positive ]}).
  { vm_compute. reflexivity. }
  split.
  { apply NoDup_cons. split; [|apply NoDup_singleton].
    intros Hin. by apply list_elem_of_singleton in Hin. }
  intros id. rewrite Hsess. split.
  - intros Hin. apply elem_of_cons in Hin as [->|Hin];
      [|apply list_elem_of_singleton in Hin as ->]; vm_compute; eauto.
  - intros [p Hp]. apply lookup_insert_Some in Hp as [[<- _]|[_ Hp]]; [right; by left|].
    apply lookup_singleton_Some in Hp as [<- _]. by left.
Qed.

Lemma SessionsSnapshot_copies_witness :
  ∃ c1 c2 w',
    SessionsSnapshot ["trip_branch_1"; "trip"] w_branched = Done [c1; c2] w'
    ∧ loadSession w' c1 = stored w_branched "trip_branch_1"
    ∧ loadSession w' c2 = stored w_branched "trip"
    ∧ c1 ≠ c2
    ∧ sessions w_branched !! "trip" ≠ Some c2.
Proof.
  destruct (SessionsSnapshot_copies ["trip_branch_1"; "trip"] w_branched
              (proj1 (reachable_inv _ reachable_w_branched)) enumerates_w_branched
              ltac:(vm_compute; discriminate))
    as (copies & w' & live & Hrun & _ & _ & Hcopies & _ & Hnd & Hfresh & _).
  destruct copies as [|c1 [|c2 [|c3 rest]]];
    try (apply Forall2_length in Hcopies; discriminate Hcopies).
  apply Forall2_cons in Hcopies as [[_ H1] Hcopies].
  apply Forall2_cons in Hcopies as [[_ H2] _].
  exists c1, c2, w'. split; [exact Hrun|]. split; [exact H1|]. split; [exact H2|].
  split.
  - apply NoDup_cons in Hnd as [Hnin _]. intros ->. apply Hnin. by left.
  - apply Forall_cons in Hfresh as [_ Hfresh]. apply Forall_cons in Hfresh as [[Hc2 _] _].
    intros Hp. destruct (proj1 (reachable_inv _ reachable_w_branched)) as [Hmap _].
    destruct (Hmap _ _ Hp) as [y Hy]. rewrite Hc2 in Hy. discriminate Hy.
Defined.

(** ** The resource handler *)

Lemma SessionsSnapshot_frame order w :
  wf w → enumerates order w → len order ≤ max_int →
  ∃ copies w',
    SessionsSnapshot order w = Done copies w'
    ∧ wf w' ∧ extends w w' ∧ sessions w' = sessions w.
Proof.
  intros Hwf [_ Hin] Hlen.
  assert (Hall : Forall (λ id, is_Some (sessions w !! id)) order).
  { apply Forall_forall. intros id Hid. by apply Hin. }
  destruct (snapshotAll_run order [] w Hwf Hall) as (cs & w' & Hrun & Hwf' & Hext & Hsess & _).
  { unfold len at 1. cbn. lia. }
  by exists cs, w'.
Qed.

(** X5.  [ThinkingHistory] only reads, and says why it fails.  Whatever the
    URL parser and the JSON encoder answer, in a well-formed world the
    handler returns, the map of the store is the same afterwards and every
    stored session reads as before.  A URI that does not parse, a scheme
    other than "thinking", and a host that is no stored id are refused
    with the world untouched; the host "sessions" always yields the
    encoding of the snapshots of all sessions, so a session stored under
    the id "sessions" is not served on its own; any other stored id yields
    the encoding of a snapshot of that session. *)
Theorem ThinkingHistory_reads_only url_Parse marshalSessions marshalSession order uri w :
  wf w → enumerates order w → len order ≤ max_int →
  ∃ r w',
    ThinkingHistory url_Parse marshalSessions marshalSession order uri w = Done r w'
    ∧ sessions w' = sessions w
    ∧ extends w w'
    ∧ (∀ id, stored w' id = stored w id)
    ∧ match url_Parse uri with
      | None => r = inl (ErrInvalidURI uri) ∧ w' = w
      | Some u =>
          if decide (URL.Scheme u = "thinking") then
            if decide (URL.Host u = "sessions") then
              ∃ copies,
                SessionsSnapshot order w = Done copies w'
                ∧ r = match marshalSessions w' copies with
                      | None => inl ErrMarshalSessions
                      | Some data =>
                          inr [ResourceContents.mk uri "application/json" data]
                      end
            else
              match sessions w !! URL.Host u with
              | None => r = inl (ErrHistoryNotFound (URL.Host u)) ∧ w' = w
              | Some _ =>
                  ∃ c,
                    SessionSnapshot (URL.Host u) w = Done (Some c) w'
                    ∧ r = match marshalSession w' c with
                          | None => inl ErrMarshalSession
                          | Some data =>
                              inr [ResourceContents.mk uri "application/json" data]
                          end
              end
          else r = inl (ErrInvalidScheme (URL.Scheme u)) ∧ w' = w
      end.
Proof.
  intros Hwf Henum Hlen. unfold ThinkingHistory.
  assert (Hsame : ∀ r : history_error + list ResourceContents.t,
            ∃ r' w', ret r w = Done r' w'
              ∧ sessions w' = sessions w ∧ extends w w'
              ∧ (∀ id, stored w' id = stored w id) ∧ r' = r ∧ w' = w).
  { intros r. exists r, w. do 2 (split; [done|]). split; [apply extends_refl|done]. }
  destruct (url_Parse uri) as [u|].
  2:{ destruct (Hsame (inl (ErrInvalidURI uri))) as (r & w' & H1 & H2 & H3 & H4 & -> & ->).
      eauto 10. }
  destruct (decide (URL.Scheme u = "thinking")) as [Hs|Hs].
  2:{ rewrite decide_True by done.
      destruct (Hsame (inl (ErrInvalidScheme (URL.Scheme u))))
        as (r & w' & H1 & H2 & H3 & H4 & -> & ->). eauto 10. }
  rewrite decide_False by (intros Hne; by apply Hne). cbv zeta.
  destruct (decide (URL.Host u = "sessions")) as [Hh|Hh].
  - destruct (SessionsSnapshot_frame order w Hwf Henum Hlen)
      as (copies & w' & Hrun & Hwf' & Hext & Hsess).
    assert (Hst : ∀ id, stored w' id = stored w id).
    { intros id. apply stored_frame; [done|done|by rewrite Hsess]. }
    erewrite bind_Done; [|exact Hrun].
    destruct (marshalSessions w' copies) as [data|] eqn:Hdata;
      (eexists _, w'; split; [reflexivity|]; do 3 (split; [done|]);
       exists copies; by rewrite Hdata).
  - destruct (sessions w !! URL.Host u) as [p|] eqn:Hp.
    + destruct (wf_stored _ _ _ Hwf Hp) as [v Hv].
      destruct (SessionSnapshot_run _ _ _ Hv) as (c & sc & w' & Hrun & _).
      destruct (SessionSnapshot_wf _ _ _ _ Hwf Hrun) as (Hwf' & Hext & Hsess).
      assert (Hst : ∀ id, stored w' id = stored w id).
      { intros id. apply stored_frame; [done|done|by rewrite Hsess]. }
      erewrite bind_Done; [|exact Hrun]. cbv beta iota.
      destruct (marshalSession w' c) as [data|] eqn:Hdata;
        (eexists _, w'; split; [reflexivity|]; do 3 (split; [done|]);
         exists c; by rewrite Hdata).
    + erewrite bind_Done; [|unfold SessionSnapshot; by rewrite Hp]. cbv beta iota.
      destruct (Hsame (inl (ErrHistoryNotFound (URL.Host u))))
        as (r & w' & H1 & H2 & H3 & H4 & -> & ->). eauto 10.
Qed.

Lemma ThinkingHistory_reads_only_witness :
  (∃ w',
     ThinkingHistory example_parse example_marshalSessions example_marshalSession
       ["trip_branch_1"; "trip"] "thinking://sessions" w_branched
     = Done (inr [ResourceContents.mk "thinking://sessions" "application/json" "2"]) w'
     ∧ ∀ id, stored w' id = stored w_branched id)
  ∧ ThinkingHistory example_parse example_marshalSessions example_marshalSession
      ["trip_branch_1"; "trip"] "thinking://nowhere" w_branched
    = Done (inl (ErrHistoryNotFound "nowhere")) w_branched
  ∧ ThinkingHistory example_parse example_marshalSessions example_marshalSession
      ["trip_branch_1"; "trip"] "https://trip" w_branched
    = Done (inl (ErrInvalidScheme "https")) w_branched.
Proof.
  pose proof (λ uri, ThinkingHistory_reads_only example_parse example_marshalSessions
                example_marshalSession ["trip_branch_1"; "trip"] uri w_branched
                (proj1 (reachable_inv _ reachable_w_branched)) enumerates_w_branched
                ltac:(vm_compute; discriminate)) as H.
  split; [|split].
  - destruct (H "thinking://sessions") as (r & w' & Hrun & _ & _ & Hst & Hr).
    assert (Hparse : example_parse "thinking://sessions"
                     = Some (URL.mk "thinking" "sessions")) by (vm_compute; reflexivity).
    rewrite Hparse in Hr. cbn [URL.Scheme URL.Host] in Hr.
    rewrite !decide_True in Hr by reflexivity.
    destruct Hr as (copies & Hsnap & ->).
    exists w'. split; [|exact Hst]. rewrite Hrun. do 2 f_equal.
    assert (Hlen : ∃ c1 c2 w'', SessionsSnapshot ["trip_branch_1"; "trip"] w_branched
                                = Done [c1; c2] w'') by (vm_compute; eauto).
    destruct Hlen as (c1 & c2 & w'' & Hsnap'). rewrite Hsnap' in Hsnap.
    injection Hsnap as <- _. reflexivity.
  - destruct (H "thinking://nowhere") as (r & w' & Hrun & _ & _ & _ & Hr).
    assert (Hparse : example_parse "thinking://nowhere"
                     = Some (URL.mk "thinking" "nowhere")) by (vm_compute; reflexivity).
    rewrite Hparse in Hr. cbn [URL.Scheme URL.Host] in Hr.
    rewrite decide_True in Hr by reflexivity.
    rewrite decide_False in Hr by discriminate.
    assert (Hnone : sessions w_branched !! "nowhere" = None) by (vm_compute; reflexivity).
    rewrite Hnone in Hr. destruct Hr as [-> ->]. exact Hrun.
  - destruct (H "https://trip") as (r & w' & Hrun & _ & _ & _ & Hr).
    assert (Hparse : example_parse "https://trip"
                     = Some (URL.mk "https" "trip")) by (vm_compute; reflexivity).
    rewrite Hparse in Hr. cbn [URL.Scheme URL.Host] in Hr.
    rewrite decide_False in Hr by discriminate.
    destruct Hr as [-> ->]. exact Hrun.
Defined.

(** ** The reads keep a world reachable

    [reachable] lists [SessionSnapshot] as the read of the handlers; the
    other reads leave the worlds a run of snapshots leaves. *)

Lemma reachable_ReviewThinking args w r w' :
  reachable w → ReviewThinking args w = Done r w' → reachable w'.
Proof.
  intros Hw Hrun. pose proof (reachable_inv _ Hw) as [Hwf _].
  destruct (sessions w !! ReviewThinkingArgs.SessionID args) as [p|] eqn:Hp.
  - destruct (wf_stored _ _ _ Hwf Hp) as [v Hv].
    destruct (ReviewThinking_run _ _ _ Hv) as (c & w'' & Hsnap & Hrun').
    rewrite Hrun' in Hrun. injection Hrun as _ <-. by eapply reachable_snapshot.
  - rewrite ReviewThinking_missing in Hrun by done. by injection Hrun as _ <-.
Qed.

Lemma reachable_snapshotAll values : ∀ acc w r w',
  reachable w →
  Forall (λ p, ∃ id, sessions w !! id = Some p) values →
  snapshotAll values acc w = Done r w' → reachable w'.
Proof.
  induction values as [|p values IH]; intros acc w r w' Hw Hall Hrun.
  - by injection Hrun as _ <-.
  - apply Forall_cons in Hall as [[id Hp] Hall]. cbn [snapshotAll] in Hrun.
    apply bind_inv in Hrun as (c & w1 & Hclone & Hrun).
    apply bind_inv in Hrun as (acc' & w2 & Happ & Hrun).
    assert (w2 = w1) as ->.
    { unfold append in Happ. destruct (decide _); [by injection Happ|done]. }
    assert (Hsnap : SessionSnapshot id w = Done (Some c) w1).
    { unfold SessionSnapshot. rewrite Hp. by erewrite bind_Done. }
    destruct (SessionSnapshot_wf _ _ _ _ (proj1 (reachable_inv _ Hw)) Hsnap) as (_ & _ & Hsess).
    eapply (IH _ w1); [by eapply reachable_snapshot| |exact Hrun].
    eapply Forall_impl; [exact Hall|]. cbn. intros q [id' Hq]. exists id'. by rewrite Hsess.
Qed.

Lemma reachable_SessionsSnapshot order w r w' :
  reachable w → SessionsSnapshot order w = Done r w' → reachable w'.
Proof.
  intros Hw Hrun. eapply reachable_snapshotAll; [exact Hw| |exact Hrun].
  apply Forall_forall. intros p Hp. apply list_elem_of_omap in Hp as (id & _ & Hid). eauto.
Qed.

Lemma reachable_ThinkingHistory url_Parse marshalSessions marshalSession order uri w r w' :
  reachable w →
  ThinkingHistory url_Parse marshalSessions marshalSession order uri w = Done r w' →
  reachable w'.
Proof.
  intros Hw Hrun. unfold ThinkingHistory in Hrun.
  destruct (url_Parse uri) as [u|]; [|by injection Hrun as _ <-].
  destruct (decide (URL.Scheme u ≠ "thinking")); [by injection Hrun as _ <-|].
  cbv zeta in Hrun. destruct (decide (URL.Host u = "sessions")).
  - apply bind_inv in Hrun as (copies & w1 & Hsnap & Hrun).
    assert (w' = w1) as ->.
    { destruct (marshalSessions w1 copies); by injection Hrun. }
    by eapply reachable_SessionsSnapshot.
  - apply bind_inv in Hrun as (c & w1 & Hsnap & Hrun).
    assert (w' = w1) as ->.
    { destruct c as [c|]; [|by injection Hrun].
      destruct (marshalSession w1 c); by injection Hrun. }
    by eapply reachable_snapshot.
Qed.

(** ** More invariants of the store *)

Ltac fsimpl :=
  cbn [ThinkingSession.set_Thoughts ThinkingSession.set_CurrentThought
       ThinkingSession.set_EstimatedTotal ThinkingSession.set_Status
       ThinkingSession.set_LastActivity ThinkingSession.set_Branches
       ThinkingSession.set_Version
       ThinkingSession.ID ThinkingSession.Problem ThinkingSession.Thoughts
       ThinkingSession.CurrentThought ThinkingSession.EstimatedTotal
       ThinkingSession.Status ThinkingSession.Created ThinkingSession.LastActivity
       ThinkingSession.Branches ThinkingSession.Version].

Lemma stored_is_Some_sessions w id v : stored w id = Some v → is_Some (sessions w !! id).
Proof. intros Hv. destruct (stored_inv _ _ _ Hv) as (p & _ & _ & Hp & _). eauto. Qed.

Lemma tidy_update w w' :
  tidy w →
  (∀ b, is_Some (sessions w !! b) → is_Some (sessions w' !! b)) →
  (∀ id v', stored w' id = Some v' →
     stored w id = Some v'
     ∨ (session_tidy id v'
        ∧ Forall (λ b, is_Some (sessions w' !! b)) (ThinkingSession.Branches v'))) →
  tidy w'.
Proof.
  intros Ht Hkeys Hch id v' Hv'. destruct (Hch _ _ Hv') as [Hv|Hv]; [|done].
  destruct (Ht _ _ Hv) as [Hs Hb]. split; [done|].
  eapply Forall_impl; [exact Hb|]. done.
Qed.

Lemma tidy_same_store w w' :
  wf w → tidy w → extends w w' → sessions w' = sessions w → tidy w'.
Proof.
  intros Hwf Ht Hext Hsess. apply (tidy_update w); [done| |].
  - intros b. by rewrite Hsess.
  - intros id v' Hv'. left. rewrite <- Hv'. symmetry.
    apply stored_frame; [done|done|by rewrite Hsess].
Qed.

(** The ids of a store whose other entries are kept, and which holds a
    session under [sid], are all kept. *)
Lemma keys_kept w w' sid v' :
  (∀ id, id ≠ sid → sessions w' !! id = sessions w !! id) →
  stored w' sid = Some v' →
  ∀ b, is_Some (sessions w !! b) → is_Some (sessions w' !! b).
Proof.
  intros Hfr Hst b Hb. destruct (decide (b = sid)) as [->|Hne].
  - by eapply stored_is_Some_sessions.
  - by rewrite Hfr.
Qed.

Lemma StartThinking_tidy args w r w' :
  wf w → tidy w → StartThinking args w = Done r w' → tidy w'.
Proof.
  intros Hwf Ht Hrun.
  destruct (StartThinking_spec args w Hwf) as (text & w'' & Hrun' & Hwf' & Hext & Hfr & Hst).
  rewrite Hrun' in Hrun. injection Hrun as <- <-.
  apply (tidy_update w); [done|by eapply keys_kept|]. intros id v' Hv'.
  match type of Hst with stored _ ?sid = _ => destruct (decide (id = sid)) as [->|Hne] end.
  - right. rewrite Hst in Hv'. injection Hv' as <-. unfold session_tidy. fsimpl.
    split; [|constructor]. split; [by left|]. split; [done|]. split; [constructor|].
    intros i b Hb. done.
  - left. rewrite <- Hv'. symmetry. apply stored_frame; [done|done|by apply Hfr].
Qed.

Lemma ContinueThinking_tidy fuel args w r w' :
  inv w → tidy w → ContinueThinking fuel args w = Done r w' → tidy w'.
Proof.
  intros [Hwf Hok] Ht Hrun.
  destruct (ContinueThinking_Done_inv _ _ _ _ _ Hwf Hrun) as (fuel' & -> & Hcase).
  destruct Hcase as [Hnone|(v & Hv & Hmode)].
  { rewrite ContinueThinking_not_found in Hrun by done. by injection Hrun as <- <-. }
  destruct (Ht _ _ Hv) as [(Hstatus & Hcur & Hpar & Hbr) Hex].
  destruct (Hok _ _ Hv) as [Hid _].
  set (sid := ContinueThinkingArgs.SessionID args) in *.
  destruct (ContinueThinkingArgs.ReviseStep args) as [step|] eqn:Hrev.
  - destruct (decide (0 ≤ wrap (step - 1) < len (ThinkingSession.Thoughts v))) as [Hstep|Hstep].
    + destruct (lookup_index_Some _ _ Hstep) as [x Hx].
      destruct (ContinueThinking_revise fuel' args step w v x Hwf Hrev Hv Hstep Hx)
        as (text & w'' & Hrun' & Hwf' & Hext & Hfr & Hst).
      rewrite Hrun' in Hrun. injection Hrun as <- <-.
      pose proof (keys_kept _ _ _ _ Hfr Hst) as Hkeys.
      apply (tidy_update w); [done|done|]. intros id v' Hv'.
      destruct (decide (id = sid)) as [->|Hne].
      * right. fold sid in Hst. rewrite Hst in Hv'. injection Hv' as <-. unfold session_tidy. fsimpl.
        split; [|eapply Forall_impl; [exact Hex|done]].
        split; [done|]. split; [unfold len; by rewrite length_insert|]. split; [|done].
        apply Forall_insert; [done|]. cbn. rewrite Forall_forall in Hpar. apply Hpar.
        by eapply list_elem_of_lookup_2.
      * left. rewrite <- Hv'. symmetry. apply stored_frame; [done|done|by apply Hfr].
    + destruct (ContinueThinking_revise_invalid fuel' args step w v Hwf Hrev Hv Hstep)
        as (w'' & Hrun' & Hwf' & Hext & Hsess).
      rewrite Hrun' in Hrun. injection Hrun as <- <-. by apply (tidy_same_store w).
  - destruct (ContinueThinkingArgs.CreateBranch args) eqn:Hcb.
    + destruct (ContinueThinking_branch fuel' args w v Hwf Hrev Hcb Hv Hmode)
        as (text & w'' & pc & pb & oc & ob & Hrun' & Hwf' & Hext & Hfr & Hst & Hstb & _).
      rewrite Hrun' in Hrun. injection Hrun as <- <-. fold sid in Hst, Hstb, Hfr.
      set (bid := sid +:+ "_branch_" +:+ pretty (len (ThinkingSession.Branches v) + 1)) in *.
      assert (Hkeys : ∀ b, is_Some (sessions w !! b) → is_Some (sessions w'' !! b)).
      { intros b Hb. destruct (decide (b = sid)) as [->|Hne1];
          [by eapply stored_is_Some_sessions|].
        destruct (decide (b = bid)) as [->|Hne2]; [by eapply stored_is_Some_sessions|].
        by rewrite Hfr. }
      apply (tidy_update w); [done|done|]. intros id v' Hv'.
      destruct (decide (id = sid)) as [->|Hne].
      { right. rewrite Hst in Hv'. injection Hv' as <-. unfold session_tidy. fsimpl.
        split.
        - split; [done|]. split; [done|]. split; [done|].
          intros i b Hb. apply lookup_app_Some in Hb as [Hb|[Hge Hb]]; [by apply Hbr|].
          apply list_lookup_singleton_Some in Hb as [Hi <-]. unfold bid, len.
          do 3 f_equal. lia.
        - apply Forall_app. split; [eapply Forall_impl; [exact Hex|done]|].
          apply Forall_singleton. by eapply stored_is_Some_sessions. }
      destruct (decide (id = bid)) as [->|Hne2].
      { right. rewrite Hstb in Hv'. injection Hv' as <-. unfold session_tidy. fsimpl.
        split; [|constructor]. split; [by left|]. split; [done|]. split; [done|].
        intros i b Hb. done. }
      left. rewrite <- Hv'. symmetry. apply stored_frame; [done|done|by apply Hfr].
    + destruct (ContinueThinking_append fuel' args w v Hwf Hrev Hcb Hv Hmode)
        as (text & w'' & Hrun' & Hwf' & Hext & Hfr & Hst).
      rewrite Hrun' in Hrun. injection Hrun as <- <-. fold sid in Hst, Hfr.
      pose proof (keys_kept _ _ _ _ Hfr Hst) as Hkeys.
      apply (tidy_update w); [done|done|]. intros id v' Hv'.
      destruct (decide (id = sid)) as [->|Hne].
      * right. rewrite Hst in Hv'. injection Hv' as <-. unfold session_tidy. fsimpl.
        split; [|eapply Forall_impl; [exact Hex|done]].
        split.
        { destruct (ContinueThinkingArgs.NextNeeded args) as [[|]|]; [done|by right|done]. }
        split; [rewrite len_app; unfold len at 3; cbn; lia|]. split; [|done].
        apply Forall_app. split; [done|]. by apply Forall_singleton.
      * left. rewrite <- Hv'. symmetry. apply stored_frame; [done|done|by apply Hfr].
Qed.

Lemma reachable_tidy w : reachable w → tidy w.
Proof.
  induction 1 as [tl en|w args r w' Hw IH Hrun|w fuel args r w' Hw IH Hrun
                  |w id r w' Hw IH Hrun].
  - intros id v Hv. done.
  - eapply StartThinking_tidy; [|exact IH|exact Hrun]. apply reachable_inv, Hw.
  - eapply ContinueThinking_tidy; [|exact IH|exact Hrun]. apply reachable_inv, Hw.
  - destruct (SessionSnapshot_wf _ _ _ _ (proj1 (reachable_inv _ Hw)) Hrun)
      as (_ & Hext & Hsess).
    eapply tidy_same_store; [|exact IH|done|done]. apply reachable_inv, Hw.
Qed.

(** X6.  In every state the handlers can reach, the status of a stored
    session is "active" or "completed"; "paused", which the comment of the
    struct lists, is never assigned. *)
Theorem status_active_or_completed w id v :
  reachable w → stored w id = Some v →
  (ThinkingSession.Status v = "active" ∨ ThinkingSession.Status v = "completed")
  ∧ ThinkingSession.Status v ≠ "paused".
Proof.
  intros Hw Hv. destruct (reachable_tidy _ Hw _ _ Hv) as [(Hstatus & _) _].
  split; [done|]. by destruct Hstatus as [-> | ->].
Qed.

Lemma status_active_or_completed_witness :
  ThinkingSession.Status <$> stored w_branched "trip" = Some "completed"
  ∧ ThinkingSession.Status <$> stored w_branched "trip_branch_1" = Some "active"
  ∧ ∀ v, stored w_branched "trip" = Some v → ThinkingSession.Status v ≠ "paused".
Proof.
  split; [vm_compute; reflexivity|]. split; [vm_compute; reflexivity|].
  intros v Hv.
  exact (proj2 (status_active_or_completed w_branched "trip" v reachable_w_branched Hv)).
Defined.

(** X7.  In every state the handlers can reach, the current thought of a
    stored session is the number of its thoughts, and the [Index] of its
    last thought when it has one. *)
Theorem current_thought_is_last w id v :
  reachable w → stored w id = Some v →
  ThinkingSession.CurrentThought v = len (ThinkingSession.Thoughts v)
  ∧ ∀ x, last (ThinkingSession.Thoughts v) = Some x →
         Thought.Index x = ThinkingSession.CurrentThought v.
Proof.
  intros Hw Hv. destruct (reachable_tidy _ Hw _ _ Hv) as [(_ & Hcur & _) _].
  split; [done|]. intros x Hx. rewrite Hcur.
  destruct (reachable_inv _ Hw) as [_ Hok]. destruct (Hok _ _ Hv) as [_ Hidx].
  rewrite last_lookup in Hx. rewrite (Hidx _ _ Hx). unfold len.
  apply lookup_lt_Some in Hx. lia.
Qed.

Lemma current_thought_is_last_witness :
  ∃ v, stored w_branched "trip_branch_1" = Some v
       ∧ ThinkingSession.CurrentThought v = 2
       ∧ len (ThinkingSession.Thoughts v) = 2.
Proof.
  assert (Hv : ∃ v, stored w_branched "trip_branch_1" = Some v
                    ∧ len (ThinkingSession.Thoughts v) = 2).
  { vm_compute. eauto. }
  destruct Hv as (v & Hv & Hlen). exists v. split; [exact Hv|].
  destruct (current_thought_is_last w_branched "trip_branch_1" v reachable_w_branched Hv)
    as [Hcur _].
  rewrite Hcur. by split.
Defined.

(** X8.  No thought of a stored session ever has a parent index: the
    handlers leave the [ParentIndex] of every thought they create nil, also
    in the thoughts copied into a branch. *)
Theorem no_parent_index w id v x :
  reachable w → stored w id = Some v → x ∈ ThinkingSession.Thoughts v →
  Thought.ParentIndex x = None.
Proof.
  intros Hw Hv Hx. destruct (reachable_tidy _ Hw _ _ Hv) as [(_ & _ & Hpar & _) _].
  rewrite Forall_forall in Hpar. by apply Hpar.
Qed.

Lemma no_parent_index_witness :
  ∃ v, stored w_branched "trip_branch_1" = Some v
       ∧ Forall (λ x, Thought.ParentIndex x = None) (ThinkingSession.Thoughts v).
Proof.
  assert (Hv : is_Some (stored w_branched "trip_branch_1")) by (vm_compute; eauto).
  destruct Hv as [v Hv]. exists v. split; [exact Hv|].
  apply Forall_forall. intros x Hx.
  exact (no_parent_index w_branched "trip_branch_1" v x reachable_w_branched Hv Hx).
Defined.

(** ** What a call of [ContinueThinking] comes to *)

(** The cases of a call that returns, by what the store holds. *)
Lemma ContinueThinking_extends fuel args w r w' :
  wf w → ContinueThinking fuel args w = Done r w' → wf w' ∧ extends w w'.
Proof.
  intros Hwf Hrun.
  destruct (ContinueThinking_Done_inv _ _ _ _ _ Hwf Hrun) as (fuel' & -> & Hcase).
  destruct Hcase as [Hnone|(v & Hv & Hmode)].
  { rewrite ContinueThinking_not_found in Hrun by done. injection Hrun as <- <-.
    split; [done|apply extends_refl]. }
  destruct (ContinueThinkingArgs.ReviseStep args) as [step|] eqn:Hrev.
  - destruct (decide (0 ≤ wrap (step - 1) < len (ThinkingSession.Thoughts v))) as [Hstep|Hstep].
    + destruct (lookup_index_Some _ _ Hstep) as [x Hx].
      destruct (ContinueThinking_revise fuel' args step w v x Hwf Hrev Hv Hstep Hx)
        as (text & w'' & Hrun' & Hwf' & Hext & _).
      rewrite Hrun' in Hrun. by injection Hrun as <- <-.
    + destruct (ContinueThinking_revise_invalid fuel' args step w v Hwf Hrev Hv Hstep)
        as (w'' & Hrun' & Hwf' & Hext & _).
      rewrite Hrun' in Hrun. by injection Hrun as <- <-.
  - destruct (ContinueThinkingArgs.CreateBranch args) eqn:Hcb.
    + destruct (ContinueThinking_branch fuel' args w v Hwf Hrev Hcb Hv Hmode)
        as (text & w'' & pc & pb & oc & ob & Hrun' & Hwf' & Hext & _).
      rewrite Hrun' in Hrun. by injection Hrun as <- <-.
    + destruct (ContinueThinking_append fuel' args w v Hwf Hrev Hcb Hv Hmode)
        as (text & w'' & Hrun' & Hwf' & Hext & _).
      rewrite Hrun' in Hrun. by injection Hrun as <- <-.
Qed.

(** X10.  The handlers never write to an object that exists.  Whatever
    pointer a caller holds (the live one [Session] hands out, or a
    snapshot), the session read through it is the same after any call of
    [StartThinking], [ContinueThinking] or [ReviewThinking]: a call
    changes the store by pointing its map to new objects. *)
Theorem held_pointers_read_the_same w w' p v :
  wf w →
  (∃ args r, StartThinking args w = Done r w')
  ∨ (∃ fuel args r, ContinueThinking fuel args w = Done r w')
  ∨ (∃ args r, ReviewThinking args w = Done r w') →
  loadSession w p = Some v →
  loadSession w' p = Some v.
Proof.
  intros Hwf Hcall Hv. eapply loadSession_weaken; [|exact Hv].
  destruct Hcall as [(args & r & Hrun)|[(fuel & args & r & Hrun)|(args & r & Hrun)]].
  - destruct (StartThinking_spec args w Hwf) as (text & w'' & Hrun' & _ & Hext & _).
    rewrite Hrun' in Hrun. by injection Hrun as <- <-.
  - by destruct (ContinueThinking_extends _ _ _ _ _ Hwf Hrun).
  - destruct (ReviewThinking_reads_only_aux args w Hwf) as (r' & w'' & Hrun' & Hext).
    rewrite Hrun' in Hrun. by injection Hrun as <- <-.
Qed.

Lemma held_pointers_read_the_same_witness :
  ∃ p v,
    Session "trip" w_two = Done (Some p) w_two
    ∧ loadSession w_two p = Some v
    ∧ loadSession w_branched p = Some v
    ∧ sessions w_branched !! "trip" ≠ Some p.
Proof.
  assert (Hp : ∃ p v, Session "trip" w_two = Done (Some p) w_two
                      ∧ loadSession w_two p = Some v
                      ∧ sessions w_branched !! "trip" ≠ Some p).
  { vm_compute. eexists _, _. split; [reflexivity|]. split; [reflexivity|]. discriminate. }
  destruct Hp as (p & v & Hs & Hv & Hne).
  assert (Hrun : ∃ r, ContinueThinking 1 (branch "trip") w_two = Done r w_branched).
  { vm_compute. eexists. reflexivity. }
  destruct Hrun as [r Hrun].
  exists p, v. split; [exact Hs|]. split; [exact Hv|]. split; [|exact Hne].
  exact (held_pointers_read_the_same w_two w_branched p v wf_w_two
           (or_intror (or_introl (ex_intro _ 1%nat (ex_intro _ (branch "trip")
                                    (ex_intro _ r Hrun))))) Hv).
Defined.

(** With an update function that writes only to its copy, a call that
    nothing interleaves with commits in the round it started in. *)
Lemma CompareAndSwap_one_round {X} fuel sid (f : loc → M (error + loc * X)) w :
  wf w → local f →
  CompareAndSwap (S fuel) sid f w = CompareAndSwap 1 sid f w.
Proof.
  intros Hwf Hloc. destruct (sessions w !! sid) as [p|] eqn:Hp.
  - destruct (casLoad_wf _ _ _ Hwf Hp)
      as (s & ts & c & qs & w1 & Hs & Hts & Hload & Hc & Hne & Hobjs & Hsess & _).
    assert (Hc1 : sessionObjs w1 !! c = Some (ThinkingSession.set_Thoughts qs s)).
    { rewrite Hobjs. apply lookup_insert_eq. }
    assert (Hp1 : sessionObjs w1 !! p = Some s).
    { rewrite Hobjs. by rewrite lookup_insert_ne. }
    rewrite (CompareAndSwap_round fuel sid f w c w1 p s _ Hloc Hload
               ltac:(by rewrite Hsess) Hp1 Hc1 Hne).
    by rewrite (CompareAndSwap_round 0 sid f w c w1 p s _ Hloc Hload
                  ltac:(by rewrite Hsess) Hp1 Hc1 Hne).
  - by rewrite !CompareAndSwap_not_found.
Qed.

(** X11.  A call that runs without interference never goes round the
    loop of [CompareAndSwap] a second time: in a well-formed world
    [ContinueThinking] with any bound on the number of rounds returns what
    it returns with the bound 1.  The version check of the commit can fail
    only when another call has committed in between. *)
Theorem ContinueThinking_single_round fuel args w :
  wf w → ContinueThinking (S fuel) args w = ContinueThinking 1 args w.
Proof.
  intros Hwf. unfold ContinueThinking.
  destruct (ContinueThinkingArgs.ReviseStep args) as [step|];
    [|destruct (ContinueThinkingArgs.CreateBranch args)]; unfold bind.
  - by rewrite (CompareAndSwap_one_round fuel _ _ w Hwf (reviseUpdate_local args step)).
  - by rewrite (CompareAndSwap_one_round fuel _ _ w Hwf (branchUpdate_local args)).
  - by rewrite (CompareAndSwap_one_round fuel _ _ w Hwf (appendUpdate_local args)).
Qed.

Lemma ContinueThinking_single_round_witness :
  ContinueThinking 7 (think "trip" "a third step" None) w_two
  = ContinueThinking 1 (think "trip" "a third step" None) w_two.
Proof. exact (ContinueThinking_single_round 6 _ w_two wf_w_two). Defined.

(** X12.  An unknown session id is refused before anything is done.  When
    the store holds nothing under the id, [CompareAndSwap] returns
    "session <id> not found" without running the update function, whatever
    that function is, and so does [ContinueThinking] in each of its three
    modes; the world, clock included, is what it was, and no session is
    created under the id. *)
Theorem unknown_session_is_refused fuel args w :
  sessions w !! ContinueThinkingArgs.SessionID args = None →
  ContinueThinking (S fuel) args w
  = Done (inl (ErrSessionNotFound (ContinueThinkingArgs.SessionID args))) w
  ∧ stored w (ContinueThinkingArgs.SessionID args) = None
  ∧ ∀ X (updateFunc : loc → M (error + loc * X)),
      CompareAndSwap (S fuel) (ContinueThinkingArgs.SessionID args) updateFunc w
      = Done (inl (ErrSessionNotFound (ContinueThinkingArgs.SessionID args))) w.
Proof.
  intros Hnone. split; [by apply ContinueThinking_not_found|]. split.
  - unfold stored. by rewrite Hnone.
  - intros X f. by apply CompareAndSwap_not_found.
Qed.

Lemma unknown_session_is_refused_witness :
  ContinueThinking 1 (think "nowhere" "x" None) w_two
  = Done (inl (ErrSessionNotFound "nowhere")) w_two
  ∧ ContinueThinking 1 (revise "nowhere" "x" 1) w_two
    = Done (inl (ErrSessionNotFound "nowhere")) w_two
  ∧ ContinueThinking 1 (branch "nowhere") w_two
    = Done (inl (ErrSessionNotFound "nowhere")) w_two.
Proof.
  assert (Hnone : sessions w_two !! "nowhere" = None) by (vm_compute; reflexivity).
  split; [|split].
  - exact (proj1 (unknown_session_is_refused 0 (think "nowhere" "x" None) w_two Hnone)).
  - exact (proj1 (unknown_session_is_refused 0 (revise "nowhere" "x" 1) w_two Hnone)).
  - exact (proj1 (unknown_session_is_refused 0 (branch "nowhere") w_two Hnone)).
Defined.

(** X13.  [ContinueThinking] returns, and its only errors are the two it
    names.  In a well-formed world, for a session whose slices are not at
    the largest length a slice can have, a call never panics (no nil
    pointer is followed) and needs one round.  It fails exactly when the
    store holds nothing under the id ("session <id> not found") or when it
    is a revision whose step number is not an index of a thought ("invalid
    step number: <n>"); branching and appending to a stored session never
    fail. *)
Theorem ContinueThinking_returns fuel args w :
  wf w →
  (∀ v, stored w (ContinueThinkingArgs.SessionID args) = Some v →
        len (ThinkingSession.Thoughts v) < max_int
        ∧ len (ThinkingSession.Branches v) < max_int) →
  ∃ r w',
    ContinueThinking (S fuel) args w = Done r w'
    ∧ wf w'
    ∧ match stored w (ContinueThinkingArgs.SessionID args) with
      | None => r = inl (ErrSessionNotFound (ContinueThinkingArgs.SessionID args))
      | Some v =>
          match ContinueThinkingArgs.ReviseStep args with
          | Some reviseStep =>
              if decide (0 ≤ wrap (reviseStep - 1) < len (ThinkingSession.Thoughts v))
              then ∃ text, r = inr text
              else r = inl (ErrInvalidStep reviseStep)
          | None => ∃ text, r = inr text
          end
      end.
Proof.
  intros Hwf Hroom. set (sid := ContinueThinkingArgs.SessionID args) in *.
  destruct (sessions w !! sid) as [p|] eqn:Hp.
  2:{ eexists _, w. split; [by apply ContinueThinking_not_found|]. split; [done|].
      unfold stored. by rewrite Hp. }
  destruct (wf_stored _ _ _ Hwf Hp) as [v Hv]. rewrite Hv.
  destruct (Hroom _ Hv) as [Hlt Hlb].
  destruct (ContinueThinkingArgs.ReviseStep args) as [step|] eqn:Hrev.
  - destruct (decide (0 ≤ wrap (step - 1) < len (ThinkingSession.Thoughts v))) as [Hstep|Hstep].
    + destruct (lookup_index_Some _ _ Hstep) as [x Hx].
      destruct (ContinueThinking_revise fuel args step w v x Hwf Hrev Hv Hstep Hx)
        as (text & w' & Hrun & Hwf' & _).
      exists (inr text), w'. eauto.
    + destruct (ContinueThinking_revise_invalid fuel args step w v Hwf Hrev Hv Hstep)
        as (w' & Hrun & Hwf' & _).
      eexists _, w'. eauto.
  - destruct (ContinueThinkingArgs.CreateBranch args) eqn:Hcb.
    + destruct (ContinueThinking_branch fuel args w v Hwf Hrev Hcb Hv Hlb)
        as (text & w' & pc & pb & oc & ob & Hrun & Hwf' & _).
      exists (inr text), w'. eauto.
    + destruct (ContinueThinking_append fuel args w v Hwf Hrev Hcb Hv Hlt)
        as (text & w' & Hrun & Hwf' & _).
      exists (inr text), w'. eauto.
Qed.

Lemma ContinueThinking_returns_witness :
  (∃ text w', ContinueThinking 1 (branch "trip") w_two = Done (inr text) w')
  ∧ (∃ w', ContinueThinking 1 (revise "trip" "x" 3) w_two = Done (inl (ErrInvalidStep 3)) w').
Proof.
  assert (Hst : ∃ v, stored w_two "trip" = Some v
                     ∧ len (ThinkingSession.Thoughts v) = 2
                     ∧ len (ThinkingSession.Branches v) = 0).
  { vm_compute. eexists. split; [reflexivity|]. split; reflexivity. }
  destruct Hst as (v & Hv & Hlt & Hlb).
  assert (Hroom : ∀ v', stored w_two "trip" = Some v' →
                        len (ThinkingSession.Thoughts v') < max_int
                        ∧ len (ThinkingSession.Branches v') < max_int).
  { intros v' Hv'. rewrite Hv in Hv'. injection Hv' as <-. rewrite Hlt, Hlb.
    split; reflexivity. }
  split.
  - pose proof (ContinueThinking_returns 0 (branch "trip") w_two wf_w_two Hroom) as H.
    cbn [branch ContinueThinkingArgs.SessionID ContinueThinkingArgs.ReviseStep] in H.
    rewrite Hv in H. destruct H as (r & w' & Hrun & _ & text & ->).
    exists text, w'. exact Hrun.
  - pose proof (ContinueThinking_returns 0 (revise "trip" "x" 3) w_two wf_w_two Hroom) as H.
    cbn [revise ContinueThinkingArgs.SessionID ContinueThinkingArgs.ReviseStep] in H.
    rewrite Hv, Hlt in H. destruct H as (r & w' & Hrun & _ & Hr).
    change (wrap (3 - 1)) with 2 in Hr.
    destruct (decide (0 ≤ 2 < 2)) as [[_ Hlt2]|_]; [discriminate Hlt2|].
    rewrite Hr in Hrun. exists w'. exact Hrun.
Defined.

(** ** More on concurrent calls *)

(** A call keeps the baseline it has committed on. *)
Lemma step_baseline_kept args st w st' w' b :
  step args st w = Done st' w' → baseline st = Some b → baseline st' = Some b.
Proof.
  intros Hrun Hb. destruct st as [|c v|u v x|v bid bs|err|text v]; try done.
  - cbn [step] in Hrun. apply bind_inv in Hrun as ([] & w1 & _ & Hret).
    by injection Hret as <- <-.
  - cbn [step] in Hrun. by injection Hrun as <- <-.
Qed.

Lemma schedule1_committed cfg i cfg' :
  schedule1 i cfg = Some cfg' →
  committed cfg' = committed cfg
  ∨ ∃ b, committed cfg' ≡ₚ b :: committed cfg.
Proof.
  intros Hstep. destruct cfg as [w calls0].
  unfold schedule1 in Hstep. cbn [world calls] in Hstep.
  destruct (calls0 !! i) as [[args a]|] eqn:Hi; [|injection Hstep as <-; by left].
  destruct (step args a w) as [y w'| |] eqn:Hrun; [|done|done].
  injection Hstep as <-. unfold committed. cbn [calls].
  destruct (baseline a) as [b|] eqn:Ha.
  - left. eapply omap_insert_same; [exact Hi|]. cbn.
    rewrite Ha. symmetry. by eapply step_baseline_kept.
  - destruct (baseline y) as [b|] eqn:Hy.
    + right. exists b. by eapply omap_insert_new.
    + left. eapply omap_insert_same; [exact Hi|]. cbn. by rewrite Ha, Hy.
Qed.

Lemma schedule1_committed_length cfg i cfg' :
  schedule1 i cfg = Some cfg' → len (committed cfg) ≤ len (committed cfg').
Proof.
  intros Hstep. unfold len.
  destruct (schedule1_committed _ _ _ Hstep) as [->|[b ->]]; cbn [length]; lia.
Qed.

(** The closure of a call fails only as a revision. *)
Lemma updateOf_error args c sc w err w' :
  sessionObjs w !! c = Some sc →
  updateOf args c w = Done (inl err) w' →
  ∃ reviseStep,
    ContinueThinkingArgs.ReviseStep args = Some reviseStep ∧ err = ErrInvalidStep reviseStep.
Proof.
  intros Hc Hrun. unfold updateOf in Hrun.
  destruct (ContinueThinkingArgs.ReviseStep args) as [step|].
  - exists step. split; [done|].
    apply bind_inv in Hrun as (r0 & w0 & Hf & Hret).
    destruct r0 as [e|[u []]]; [|done]. injection Hret as <- <-.
    revert Hf. unfold reviseUpdate.
    erewrite bind_Done; [|unfold readSession; by rewrite Hc].
    destruct (decide _) as [_|_]; [by intros [= <- <-]|].
    destruct (ThinkingSession.Thoughts sc !! _) as [t|]; [|done].
    munfold. destruct (thoughtObjs w !! t) as [x|]; [|done].
    mrun. done.
  - exfalso. destruct (ContinueThinkingArgs.CreateBranch args).
    + apply bind_inv in Hrun as (r0 & w0 & Hf & Hret).
      destruct (decide (len (ThinkingSession.Branches sc) < max_int)) as [Hlen|Hlen];
        [|by rewrite (branchUpdate_panic args c w sc Hc Hlen) in Hf].
      rewrite (branchUpdate_run args c w sc Hc Hlen) in Hf. cbv zeta in Hf.
      destruct (deepCopyThoughts _ _) as [qs w2| |]; [|done|done].
      injection Hf as <- <-. done.
    + apply bind_inv in Hrun as (r0 & w0 & Hf & Hret).
      destruct (decide (len (ThinkingSession.Thoughts sc) < max_int)) as [Hlen|Hlen];
        [|by rewrite (appendUpdate_panic args c w sc Hc Hlen) in Hf].
      destruct (appendUpdate_run args c w sc Hc Hlen) as (progress & statusMsg & Heq).
      rewrite Heq in Hf. injection Hf as <- <-. done.
Qed.

Lemma schedule1_inflight sid v0 n i cfg cfg' :
  min_int ≤ v0 → v0 + Z.of_nat n ≤ max_int →
  concurrent_inv sid v0 n cfg →
  inflight_ok sid v0 cfg →
  schedule1 i cfg = Some cfg' →
  inflight_ok sid v0 cfg'.
Proof.
  intros Hmin Hmax Hinv Hfl Hstep.
  pose proof (schedule1_inv _ _ _ _ _ _ Hmin Hmax Hinv Hstep) as Hinv'.
  pose proof (concurrent_inv_version _ _ _ _ Hinv) as HV.
  pose proof (concurrent_inv_version _ _ _ _ Hinv') as HV'.
  pose proof (schedule1_committed_length _ _ _ Hstep) as Hgrow.
  pose proof (len_nonneg (committed cfg)) as Hpos.
  assert (Hold : ∀ b, (∃ V, storedVersion (world cfg) sid = Some V ∧ v0 ≤ b ≤ V) →
                      ∃ V, storedVersion (world cfg') sid = Some V ∧ v0 ≤ b ≤ V).
  { intros b (V & HVb & Hb). rewrite HV in HVb. injection HVb as <-.
    eexists. split; [exact HV'|]. lia. }
  destruct cfg as [w calls0].
  unfold schedule1 in Hstep. cbn [world calls] in *.
  destruct (calls0 !! i) as [[args a]|] eqn:Hi; [|by injection Hstep as <-].
  destruct (step args a w) as [y w'| |] eqn:Hrun; [|done|done].
  injection Hstep as <-. cbn [world calls] in *.
  pose proof Hinv as (p & s & Hp & Hs & Hver & Hnd & Hlt & Hlen & Hsid & Hpriv & Hpnd
                      & Hdis & Hpend).
  cbn [world calls] in *.
  assert (Hargs : ContinueThinkingArgs.SessionID args = sid).
  { rewrite Forall_forall in Hsid. apply (Hsid (args, a)). by eapply list_elem_of_lookup_2. }
  intros j args' st Hj. cbn [world calls] in *.
  apply list_lookup_insert_Some in Hj as [(<- & Heq & _)|[Hne Hj]].
  2:{ pose proof (Hfl _ _ _ Hj) as Hst. cbn [world] in Hst.
      destruct st as [|c v|u v x|v bid bs|err|text v]; try done; by apply Hold. }
  injection Heq as <- <-.
  pose proof (Hfl _ _ _ Hi) as Hst. cbn [world] in Hst.
  destruct a as [|c v|u v x|v bid b|err|text v]; cbn [step] in Hrun.
  - apply bind_inv in Hrun as (r & w1 & Hload & Hret). rewrite Hargs in Hload.
    destruct (casLoad_inv _ _ _ _ _ _ Hp Hs Hload) as (c & sc & -> & _).
    injection Hret as <- <-. apply Hold. eexists. split; [exact HV|]. rewrite Hver. lia.
  - apply bind_inv in Hrun as (r & w1 & Hupd & Hret).
    destruct (Hpriv _ _ c Hi ltac:(cbn; by left)) as [_ [sc Hc]].
    destruct r as [err|[u x]]; injection Hret as <- <-.
    + by eapply updateOf_error.
    + by apply Hold.
  - apply bind_inv in Hrun as (c0 & w1 & Hcommit & Hret). rewrite Hargs in Hcommit.
    unfold casCommit in Hcommit. rewrite Hp in Hcommit.
    apply bind_inv in Hcommit as (cur & w2 & Hread & Hcommit).
    destruct (decide (ThinkingSession.Version cur ≠ v)) as [Hv|Hv].
    + unfold ret in Hcommit. injection Hcommit as <- <-.
      unfold ret in Hret. by injection Hret as <- <-.
    + apply bind_inv in Hcommit as ([] & w3 & _ & Hcommit).
      apply bind_inv in Hcommit as ([] & w4 & _ & Hcommit).
      unfold ret in Hcommit. injection Hcommit as <- <-.
      unfold ret in Hret. destruct x; by injection Hret as <- <-.
  - apply bind_inv in Hrun as ([] & w1 & _ & Hret). by injection Hret as <- <-.
  - by injection Hrun as <- <-.
  - by injection Hrun as <- <-.
Qed.

Lemma schedule_inflight sid v0 n order : ∀ cfg cfg',
  min_int ≤ v0 → v0 + Z.of_nat n ≤ max_int →
  concurrent_inv sid v0 n cfg →
  inflight_ok sid v0 cfg →
  schedule order cfg = Some cfg' →
  concurrent_inv sid v0 n cfg' ∧ inflight_ok sid v0 cfg'
  ∧ len (committed cfg) ≤ len (committed cfg').
Proof.
  induction order as [|i order IH]; intros cfg cfg' Hmin Hmax Hinv Hfl Hrun.
  - injection Hrun as <-. split; [done|]. split; [done|lia].
  - cbn in Hrun. destruct (schedule1 i cfg) as [cfg1|] eqn:H1; [|done].
    destruct (IH cfg1 cfg' Hmin Hmax) as (Hinv' & Hfl' & Hlen); [| |done|].
    + by eapply schedule1_inv.
    + by eapply schedule1_inflight.
    + split; [done|]. split; [done|].
      pose proof (schedule1_committed_length _ _ _ H1). lia.
Qed.

Lemma spawn_inflight sid v0 w argss : inflight_ok sid v0 (spawn w argss).
Proof.
  intros i args st Hi. unfold spawn in Hi. cbn in Hi.
  apply list_lookup_fmap_Some in Hi as (a & Heq & _). by injection Heq as -> ->.
Qed.

(** A list of [n] distinct numbers of an interval of [n] numbers has them
    all. *)
Lemma range_full (l : list Z) (v0 b : Z) :
  NoDup l → Forall (λ x, v0 ≤ x < v0 + len l) l → v0 ≤ b < v0 + len l → b ∈ l.
Proof.
  intros Hnd Hall Hb.
  assert (Hsub : l ⊆+ seqZ v0 (len l)).
  { apply NoDup_submseteq; [done|]. intros x Hx. rewrite Forall_forall in Hall.
    apply elem_of_seqZ. by apply Hall. }
  assert (Hperm : l ≡ₚ seqZ v0 (len l)).
  { apply submseteq_length_Permutation; [done|]. rewrite length_seqZ. unfold len. lia. }
  rewrite Hperm. by apply elem_of_seqZ.
Qed.

Lemma spawned_inv sid argss w p s order cfg :
  sessions w !! sid = Some p →
  sessionObjs w !! p = Some s →
  Forall (λ args, ContinueThinkingArgs.SessionID args = sid) argss →
  min_int ≤ ThinkingSession.Version s →
  ThinkingSession.Version s + len argss ≤ max_int →
  schedule order (spawn w argss) = Some cfg →
  concurrent_inv sid (ThinkingSession.Version s) (length argss) cfg
  ∧ inflight_ok sid (ThinkingSession.Version s) cfg.
Proof.
  intros Hp Hs Hsid Hmin Hmax Hrun.
  pose proof (spawn_inv sid w argss p s Hp Hs Hsid) as Hinv0.
  destruct (schedule_inflight _ _ _ _ _ _ Hmin Hmax Hinv0 (spawn_inflight _ _ _ _) Hrun)
    as (Hinv & Hfl & _).
  done.
Qed.

(** X14.  A call goes round the loop again only when it has lost a race.
    Among concurrent calls on one session, in any interleaving: when the
    commit of a call finds the version changed and the call returns to
    the start of the loop, another call has committed on the very version
    this one had read, the stored version is by now larger, and the retry
    itself has changed nothing. *)
Theorem retry_after_lost_race sid argss w p s order cfg i cfg' args updated oldVersion x :
  sessions w !! sid = Some p →
  sessionObjs w !! p = Some s →
  Forall (λ args, ContinueThinkingArgs.SessionID args = sid) argss →
  min_int ≤ ThinkingSession.Version s →
  ThinkingSession.Version s + len argss ≤ max_int →
  schedule order (spawn w argss) = Some cfg →
  calls cfg !! i = Some (args, AtCommit updated oldVersion x) →
  schedule1 i cfg = Some cfg' →
  calls cfg' !! i = Some (args, AtLoad) →
  oldVersion ∈ committed cfg
  ∧ (∃ V, storedVersion (world cfg) sid = Some V ∧ oldVersion < V)
  ∧ world cfg' = world cfg.
Proof.
  intros Hp Hs Hsid Hmin Hmax Hrun Hi Hstep Hi'.
  destruct (spawned_inv _ _ _ _ _ _ _ Hp Hs Hsid Hmin Hmax Hrun) as [Hinv Hfl].
  pose proof (concurrent_inv_version _ _ _ _ Hinv) as HV.
  destruct (Hfl _ _ _ Hi) as (V & HV' & Hlo & Hhi).
  rewrite HV in HV'. injection HV' as <-.
  pose proof Hinv as (p' & s' & Hp' & Hs' & Hver & Hnd & Hlt & Hlen & Hsid' & _).
  assert (Hargs : ContinueThinkingArgs.SessionID args = sid).
  { rewrite Forall_forall in Hsid'.
    apply (Hsid' (args, AtCommit updated oldVersion x)). by eapply list_elem_of_lookup_2. }
  destruct cfg as [w0 calls0]. cbn [world calls] in *.
  unfold schedule1 in Hstep. cbn [world calls] in Hstep. rewrite Hi in Hstep.
  destruct (step args (AtCommit updated oldVersion x) w0) as [y w1| |] eqn:Hst; [|done|done].
  injection Hstep as <-. cbn [world calls] in *.
  rewrite list_lookup_insert_eq in Hi' by (by eapply lookup_lt_Some).
  injection Hi' as ->.
  cbn [step] in Hst. apply bind_inv in Hst as (c0 & w2 & Hcommit & Hret).
  rewrite Hargs in Hcommit. unfold casCommit in Hcommit. rewrite Hp' in Hcommit.
  apply bind_inv in Hcommit as (cur & w3 & Hread & Hcommit).
  unfold readSession in Hread. rewrite Hs' in Hread. injection Hread as <- <-.
  destruct (decide (ThinkingSession.Version s' ≠ oldVersion)) as [Hne|Heq].
  - unfold ret in Hcommit. injection Hcommit as <- <-.
    unfold ret in Hret. injection Hret as <-.
    rewrite Hver in Hne, Hlt.
    assert (Hin : oldVersion < ThinkingSession.Version s + len (committed (mkConfig w0 calls0)))
      by lia.
    split; [apply (range_full _ (ThinkingSession.Version s)); [done|done|lia]|].
    split; [|done]. eexists. split; [exact HV|exact Hin].
  - apply bind_inv in Hcommit as ([] & w4 & _ & Hcommit).
    apply bind_inv in Hcommit as ([] & w5 & _ & Hcommit).
    unfold ret in Hcommit. injection Hcommit as <- <-.
    unfold ret in Hret. destruct x; by injection Hret.
Qed.

Lemma retry_after_lost_race_witness :
  ∃ cfg cfg',
    schedule [0; 1; 2; 0; 1; 2; 0]%nat (spawn w_two example_calls) = Some cfg
    ∧ schedule1 1 cfg = Some cfg'
    ∧ (snd <$> calls cfg' !! 1%nat) = Some AtLoad
    ∧ 2 ∈ committed cfg.
Proof.
  assert (H : ∃ cfg cfg' updated x,
            schedule [0; 1; 2; 0; 1; 2; 0]%nat (spawn w_two example_calls) = Some cfg
            ∧ schedule1 1 cfg = Some cfg'
            ∧ calls cfg !! 1%nat = Some (revise "trip" "b" 1, AtCommit updated 2 x)
            ∧ calls cfg' !! 1%nat = Some (revise "trip" "b" 1, AtLoad)).
  { eexists _, _, _, _. split; [vm_compute; reflexivity|].
    split; [vm_compute; reflexivity|]. split; vm_compute; reflexivity. }
  destruct H as (cfg & cfg' & updated & x & Hrun & Hstep & Hi & Hi').
  exists cfg, cfg'. split; [exact Hrun|]. split; [exact Hstep|]. split.
  { rewrite Hi'. reflexivity. }
  exact (proj1 (retry_after_lost_race "trip" example_calls w_two _ _ _ cfg 1 cfg' _ _ _ _
                  ltac:(vm_compute; reflexivity) ltac:(vm_compute; reflexivity)
                  ltac:(repeat constructor)
                  ltac:(vm_compute; discriminate)
                  ltac:(vm_compute; discriminate)
                  Hrun Hi Hstep Hi')).
Defined.

(** X15.  Concurrent calls fail only as revisions.  Among concurrent calls
    on a session the store holds, in any interleaving, no call ever fails
    with "session not found" (the session stays in the map) and no append
    or branch fails at all: a call that has failed is a revision, and its
    error is "invalid step number" with the step it was given. *)
Theorem concurrent_calls_fail_only_as_revisions sid argss w p s order cfg i args err :
  sessions w !! sid = Some p →
  sessionObjs w !! p = Some s →
  Forall (λ args, ContinueThinkingArgs.SessionID args = sid) argss →
  min_int ≤ ThinkingSession.Version s →
  ThinkingSession.Version s + len argss ≤ max_int →
  schedule order (spawn w argss) = Some cfg →
  calls cfg !! i = Some (args, Failed err) →
  (∃ reviseStep,
     ContinueThinkingArgs.ReviseStep args = Some reviseStep
     ∧ err = ErrInvalidStep reviseStep)
  ∧ is_Some (sessions (world cfg) !! sid).
Proof.
  intros Hp Hs Hsid Hmin Hmax Hrun Hi.
  destruct (spawned_inv _ _ _ _ _ _ _ Hp Hs Hsid Hmin Hmax Hrun) as [Hinv Hfl].
  split; [exact (Hfl _ _ _ Hi)|].
  destruct Hinv as (p' & s' & Hp' & _). eauto.
Qed.

(** X16.  The version of a session never goes down.  Among concurrent
    calls on one session, however their steps interleave and however the
    run goes on, the stored version after is at least the stored version
    before, and larger by the number of calls that committed in between. *)
Theorem version_never_decreases sid argss w p s order cfg more cfg' :
  sessions w !! sid = Some p →
  sessionObjs w !! p = Some s →
  Forall (λ args, ContinueThinkingArgs.SessionID args = sid) argss →
  min_int ≤ ThinkingSession.Version s →
  ThinkingSession.Version s + len argss ≤ max_int →
  schedule order (spawn w argss) = Some cfg →
  schedule more cfg = Some cfg' →
  ∃ V V',
    storedVersion (world cfg) sid = Some V
    ∧ storedVersion (world cfg') sid = Some V'
    ∧ V ≤ V'
    ∧ V' - V = len (committed cfg') - len (committed cfg).
Proof.
  intros Hp Hs Hsid Hmin Hmax Hrun Hmore.
  destruct (spawned_inv _ _ _ _ _ _ _ Hp Hs Hsid Hmin Hmax Hrun) as [Hinv Hfl].
  assert (Hmax' : ThinkingSession.Version s + Z.of_nat (length argss) ≤ max_int) by done.
  destruct (schedule_inflight _ _ _ _ _ _ Hmin Hmax' Hinv Hfl Hmore) as (Hinv' & _ & Hlen).
  eexists _, _. split; [by eapply concurrent_inv_version|].
  split; [by eapply concurrent_inv_version|]. lia.
Qed.

Lemma version_never_decreases_witness :
  ∃ cfg cfg',
    schedule [0; 1; 2; 0; 1; 2]%nat (spawn w_two example_calls) = Some cfg
    ∧ schedule [0; 1; 2]%nat cfg = Some cfg'
    ∧ storedVersion (world cfg) "trip" = Some 2
    ∧ storedVersion (world cfg') "trip" = Some 3.
Proof.
  assert (H : ∃ cfg cfg',
            schedule [0; 1; 2; 0; 1; 2]%nat (spawn w_two example_calls) = Some cfg
            ∧ schedule [0; 1; 2]%nat cfg = Some cfg'
            ∧ len (committed cfg) = 0 ∧ len (committed cfg') = 1
            ∧ storedVersion (world cfg) "trip" = Some 2).
  { eexists _, _. split; [vm_compute; reflexivity|].
    split; [vm_compute; reflexivity|]. split; [vm_compute; reflexivity|].
    split; vm_compute; reflexivity. }
  destruct H as (cfg & cfg' & Hrun & Hmore & Hc & Hc' & HV2).
  exists cfg, cfg'. split; [exact Hrun|]. split; [exact Hmore|]. split; [exact HV2|].
  destruct (version_never_decreases "trip" example_calls w_two _ _ _ cfg _ cfg'
              ltac:(vm_compute; reflexivity) ltac:(vm_compute; reflexivity)
              ltac:(repeat constructor)
              ltac:(vm_compute; discriminate)
              ltac:(vm_compute; discriminate)
              Hrun Hmore) as (V & V' & HV & HV' & _ & Hdiff).
  rewrite HV2 in HV. injection HV as <-. rewrite Hc, Hc' in Hdiff.
  rewrite HV'. f_equal. lia.
Defined.

Lemma concurrent_calls_fail_only_as_revisions_witness :
  ∃ cfg err,
    schedule [0; 1; 0; 1; 0; 1]%nat
      (spawn w_two [revise "trip" "x" 9; think "trip" "a" None]) = Some cfg
    ∧ (snd <$> calls cfg !! 0%nat) = Some (Failed err)
    ∧ err = ErrInvalidStep 9.
Proof.
  assert (H : ∃ cfg err,
            schedule [0; 1; 0; 1; 0; 1]%nat
              (spawn w_two [revise "trip" "x" 9; think "trip" "a" None]) = Some cfg
            ∧ calls cfg !! 0%nat = Some (revise "trip" "x" 9, Failed err)).
  { eexists _, _. split; vm_compute; reflexivity. }
  destruct H as (cfg & err & Hrun & Hi).
  exists cfg, err. split; [exact Hrun|]. split; [rewrite Hi; reflexivity|].
  destruct (concurrent_calls_fail_only_as_revisions "trip"
              [revise "trip" "x" 9; think "trip" "a" None] w_two _ _ _ cfg 0 _ err
              ltac:(vm_compute; reflexivity) ltac:(vm_compute; reflexivity)
              ltac:(repeat constructor)
              ltac:(vm_compute; discriminate)
              ltac:(vm_compute; discriminate)
              Hrun Hi) as [(reviseStep & Hrev & ->) _].
  injection Hrev as <-. reflexivity.
Defined.

Lemma storedVersion_intro w sid p s :
  sessions w !! sid = Some p → sessionObjs w !! p = Some s →
  storedVersion w sid = Some (ThinkingSession.Version s).
Proof. intros Hp Hs. unfold storedVersion. rewrite Hp. cbn. by rewrite Hs. Qed.

(** Where one step takes the call that makes it. *)
Lemma own_step sid v0 n i cfg cfg' args st :
  concurrent_inv sid v0 n cfg →
  calls cfg !! i = Some (args, st) →
  schedule1 i cfg = Some cfg' →
  ∃ st',
    calls cfg' !! i = Some (args, st')
    ∧ match st with
      | AtLoad =>
          ∃ c V, st' = AtUpdate c V ∧ storedVersion (world cfg') sid = Some V
      | AtUpdate c b =>
          (storedVersion (world cfg) sid = Some b → storedVersion (world cfg') sid = Some b)
          ∧ ((∃ err, st' = Failed err) ∨ ∃ u x, st' = AtCommit u b x)
      | AtCommit u b x =>
          storedVersion (world cfg) sid = Some b → baseline st' = Some b
      | AtSetSession b bid bs => ∃ text, st' = Succeeded text b
      | Failed err => st' = Failed err
      | Succeeded text b => st' = Succeeded text b
      end.
Proof.
  intros Hinv Hi Hstep. destruct cfg as [w calls0].
  unfold schedule1 in Hstep. cbn [world calls] in *. rewrite Hi in Hstep.
  destruct (step args st w) as [y w'| |] eqn:Hrun; [|done|done].
  injection Hstep as <-. cbn [world calls].
  exists y. split; [apply list_lookup_insert_eq; by eapply lookup_lt_Some|].
  pose proof Hinv as (p & s & Hp & Hs & Hver & Hnd & Hlt & Hlen & Hsid & Hpriv & _).
  cbn [world calls] in *.
  assert (Hargs : ContinueThinkingArgs.SessionID args = sid).
  { rewrite Forall_forall in Hsid. apply (Hsid (args, st)). by eapply list_elem_of_lookup_2. }
  destruct st as [|c v|u v x|v bid b|err|text v]; cbn [step] in Hrun.
  - apply bind_inv in Hrun as (r & w1 & Hload & Hret). rewrite Hargs in Hload.
    destruct (casLoad_inv _ _ _ _ _ _ Hp Hs Hload) as (c & sc & -> & Hc & Hobjs & Hsess).
    injection Hret as <- <-. eexists _, _. split; [done|].
    apply (storedVersion_intro _ _ p); [by rewrite Hsess|].
    rewrite Hobjs, lookup_insert_ne; [done|congruence].
  - apply bind_inv in Hrun as (r & w1 & Hupd & Hret).
    destruct (Hpriv _ _ c Hi ltac:(cbn; by left)) as [Hcp [sc Hc]].
    destruct (updateOf_spec _ _ _ _ _ _ Hc Hupd) as (Hsess & Hkeep & _ & Hres).
    split.
    + intros HV. rewrite (storedVersion_intro _ _ _ _ Hp Hs) in HV.
      assert (w' = w1) as -> by (destruct r as [?|[? ?]]; by injection Hret).
      rewrite <- HV. apply (storedVersion_intro _ _ p); [by rewrite Hsess|].
      rewrite Hkeep; [done|congruence|by rewrite Hs].
    + destruct r as [err|[u x]]; injection Hret as <- <-; eauto.
  - intros HV. rewrite (storedVersion_intro _ _ _ _ Hp Hs) in HV. injection HV as HV.
    apply bind_inv in Hrun as (c0 & w1 & Hcommit & Hret). rewrite Hargs in Hcommit.
    unfold casCommit in Hcommit. rewrite Hp in Hcommit.
    apply bind_inv in Hcommit as (cur & w2 & Hread & Hcommit).
    unfold readSession in Hread. rewrite Hs in Hread. injection Hread as <- <-.
    rewrite decide_False in Hcommit by (intros Hne; by apply Hne).
    apply bind_inv in Hcommit as ([] & w3 & _ & Hcommit).
    apply bind_inv in Hcommit as ([] & w4 & _ & Hcommit).
    unfold ret in Hcommit. injection Hcommit as <- <-.
    unfold ret in Hret. destruct x; by injection Hret as <- <-.
  - apply bind_inv in Hrun as ([] & w1 & _ & Hret). injection Hret as <- <-. eauto.
  - by injection Hrun as <- <-.
  - by injection Hrun as <- <-.
Qed.

(** X17.  A call left alone returns.  Among concurrent calls on one
    session, in any interleaving: when a call stands at the start of the
    loop and the next four steps are all its own, then after them it has
    returned, with a success or with the error of its closure; a retry
    needs another call to step in between. *)
Theorem a_call_left_alone_returns sid argss w p s order cfg i args cfg' :
  sessions w !! sid = Some p →
  sessionObjs w !! p = Some s →
  Forall (λ args, ContinueThinkingArgs.SessionID args = sid) argss →
  min_int ≤ ThinkingSession.Version s →
  ThinkingSession.Version s + len argss ≤ max_int →
  schedule order (spawn w argss) = Some cfg →
  calls cfg !! i = Some (args, AtLoad) →
  schedule [i; i; i; i] cfg = Some cfg' →
  ∃ st, calls cfg' !! i = Some (args, st) ∧ returned st.
Proof.
  intros Hp Hs Hsid Hmin Hmax Hrun Hi Hsteps.
  destruct (spawned_inv _ _ _ _ _ _ _ Hp Hs Hsid Hmin Hmax Hrun) as [Hinv _].
  assert (Hmax' : ThinkingSession.Version s + Z.of_nat (length argss) ≤ max_int) by done.
  cbn [schedule] in Hsteps.
  destruct (schedule1 i cfg) as [cfg1|] eqn:H1; [|done].
  destruct (schedule1 i cfg1) as [cfg2|] eqn:H2; [|done].
  destruct (schedule1 i cfg2) as [cfg3|] eqn:H3; [|done].
  destruct (schedule1 i cfg3) as [cfg4|] eqn:H4; [|done].
  injection Hsteps as <-.
  pose proof (schedule1_inv _ _ _ _ _ _ Hmin Hmax' Hinv H1) as Hinv1.
  pose proof (schedule1_inv _ _ _ _ _ _ Hmin Hmax' Hinv1 H2) as Hinv2.
  pose proof (schedule1_inv _ _ _ _ _ _ Hmin Hmax' Hinv2 H3) as Hinv3.
  destruct (own_step _ _ _ _ _ _ _ _ Hinv Hi H1) as (st1 & Hi1 & c & V & -> & HV1).
  destruct (own_step _ _ _ _ _ _ _ _ Hinv1 Hi1 H2) as (st2 & Hi2 & HV2 & Hst2).
  specialize (HV2 HV1).
  destruct Hst2 as [[err ->]|(u & x & ->)].
  - destruct (own_step _ _ _ _ _ _ _ _ Hinv2 Hi2 H3) as (st3 & Hi3 & ->).
    destruct (own_step _ _ _ _ _ _ _ _ Hinv3 Hi3 H4) as (st4 & Hi4 & ->).
    by eexists.
  - destruct (own_step _ _ _ _ _ _ _ _ Hinv2 Hi2 H3) as (st3 & Hi3 & Hb).
    specialize (Hb HV2).
    destruct st3 as [|? ?|? ? ?|b bid bs|?|text b]; try done.
    + destruct (own_step _ _ _ _ _ _ _ _ Hinv3 Hi3 H4) as (st4 & Hi4 & text & ->).
      by eexists.
    + destruct (own_step _ _ _ _ _ _ _ _ Hinv3 Hi3 H4) as (st4 & Hi4 & ->).
      by eexists.
Qed.

Lemma a_call_left_alone_returns_witness :
  ∃ cfg cfg' text,
    schedule [0; 1; 0; 0; 0]%nat (spawn w_two example_calls) = Some cfg
    ∧ schedule [2; 2; 2; 2]%nat cfg = Some cfg'
    ∧ (snd <$> calls cfg !! 2%nat) = Some AtLoad
    ∧ (snd <$> calls cfg' !! 2%nat) = Some (Succeeded text 3).
Proof.
  assert (H : ∃ cfg cfg' text,
            schedule [0; 1; 0; 0; 0]%nat (spawn w_two example_calls) = Some cfg
            ∧ schedule [2; 2; 2; 2]%nat cfg = Some cfg'
            ∧ calls cfg !! 2%nat = Some (branch "trip", AtLoad)
            ∧ calls cfg' !! 2%nat = Some (branch "trip", Succeeded text 3)).
  { eexists _, _, _. split; [vm_compute; reflexivity|].
    split; [vm_compute; reflexivity|]. split; vm_compute; reflexivity. }
  destruct H as (cfg & cfg' & text & Hrun & Hsteps & Hi & Hi').
  exists cfg, cfg', text. split; [exact Hrun|]. split; [exact Hsteps|].
  split; [rewrite Hi; reflexivity|].
  destruct (a_call_left_alone_returns "trip" example_calls w_two _ _ _ cfg 2 _ cfg'
              ltac:(vm_compute; reflexivity) ltac:(vm_compute; reflexivity)
              ltac:(repeat constructor)
              ltac:(vm_compute; discriminate)
              ltac:(vm_compute; discriminate)
              Hrun Hi Hsteps) as (st & Hst & _).
  rewrite Hst in Hi'. rewrite Hst. cbn. f_equal. by injection Hi'.
Defined.

(** ** What the responses say *)

Lemma StartThinking_text args w :
  let sessionID :=
    if decide (StartThinkingArgs.SessionID args = "") then entropy w (draws w)
    else StartThinkingArgs.SessionID args in
  let estimatedSteps :=
    if decide (StartThinkingArgs.EstimatedSteps args = 0) then 5
    else StartThinkingArgs.EstimatedSteps args in
  ∃ w',
    StartThinking args w =
      Done (inr ("Started thinking session '" +:+ sessionID +:+ "' for problem: "
                 +:+ StartThinkingArgs.Problem args +:+ nl
                 +:+ "Estimated steps: " +:+ pretty estimatedSteps +:+ nl
                 +:+ "Ready for your first thought.")) w'.
Proof.
  intros sessionID estimatedSteps. unfold StartThinking, SetSession.
  unfold sessionID. destruct (decide (StartThinkingArgs.SessionID args = "")) as [Hid|Hid];
    munfold; mrun; wnorm; eexists; reflexivity.
Qed.

(** X18.  [StartThinking] tells the caller the id and the estimate it has
    stored.  The text it returns names the id under which the session is
    now in the store, which is the text drawn from [rand.Text] when no id
    was supplied, and the estimate the session carries, which is 5 when
    none (0) was supplied. *)
Theorem StartThinking_reports args w :
  wf w →
  ∃ w' sessionID v,
    StartThinking args w =
      Done (inr ("Started thinking session '" +:+ sessionID +:+ "' for problem: "
                 +:+ StartThinkingArgs.Problem args +:+ nl
                 +:+ "Estimated steps: " +:+ pretty (ThinkingSession.EstimatedTotal v) +:+ nl
                 +:+ "Ready for your first thought.")) w'
    ∧ stored w' sessionID = Some v
    ∧ ThinkingSession.ID v = sessionID
    ∧ ThinkingSession.Problem v = StartThinkingArgs.Problem args
    ∧ (StartThinkingArgs.SessionID args ≠ "" → sessionID = StartThinkingArgs.SessionID args)
    ∧ (StartThinkingArgs.SessionID args = "" → sessionID = entropy w (draws w))
    ∧ (StartThinkingArgs.EstimatedSteps args = 0 → ThinkingSession.EstimatedTotal v = 5).
Proof.
  intros Hwf.
  destruct (StartThinking_text args w) as [w' Hrun].
  destruct (StartThinking_spec args w Hwf) as (text & w'' & Hrun' & _ & _ & _ & Hst).
  rewrite Hrun in Hrun'. injection Hrun' as _ <-.
  match type of Hst with stored _ ?sid = Some ?v => exists w', sid, v end.
  split; [exact Hrun|]. split; [exact Hst|]. cbn.
  split; [done|]. split; [done|]. split; [intros Hne; by rewrite decide_False|].
  split; [intros He; by rewrite decide_True|]. intros He. by rewrite decide_True.
Qed.

Lemma StartThinking_reports_witness :
  ∃ w',
    StartThinking {| StartThinkingArgs.Problem := "which way";
                     StartThinkingArgs.SessionID := "";
                     StartThinkingArgs.EstimatedSteps := 0 |} w_two
    = Done (inr ("Started thinking session 'id0' for problem: which way" +:+ nl
                 +:+ "Estimated steps: 5" +:+ nl
                 +:+ "Ready for your first thought.")) w'
    ∧ ThinkingSession.EstimatedTotal <$> stored w' "id0" = Some 5.
Proof.
  destruct (StartThinking_reports
              {| StartThinkingArgs.Problem := "which way";
                 StartThinkingArgs.SessionID := "";
                 StartThinkingArgs.EstimatedSteps := 0 |} w_two wf_w_two)
    as (w' & sessionID & v & Hrun & Hst & _ & _ & _ & Hid & Hest).
  assert (Hs : sessionID = "id0").
  { rewrite (Hid eq_refl). vm_compute. reflexivity. }
  subst sessionID. exists w'. split.
  - rewrite Hrun. rewrite (Hest eq_refl). reflexivity.
  - rewrite Hst. cbn [fmap option_fmap option_map]. f_equal. exact (Hest eq_refl).
Defined.

(** What the closure of the append path assigns to the captured
    variables, told of the session object it leaves. *)
Lemma appendUpdate_text args c w sc r w' :
  sessionObjs w !! c = Some sc →
  len (ThinkingSession.Thoughts sc) < max_int →
  appendUpdate args c w = Done r w' →
  ∃ sc',
    sessionObjs w' !! c = Some sc'
    ∧ r = inr (c, (len (ThinkingSession.Thoughts sc'),
                   "Step " +:+ pretty (len (ThinkingSession.Thoughts sc'))
                     +:+ (if decide (ThinkingSession.EstimatedTotal sc' > 0)
                          then " of ~" +:+ pretty (ThinkingSession.EstimatedTotal sc')
                          else ""),
                   if decide (ThinkingSession.Status sc' = "completed")
                   then nl +:+ check_mark +:+ " Thinking process completed!"
                   else nl +:+ "Ready for next thought...")).
Proof.
  intros Hc Hlen.
  assert (Hid : wrap (len (ThinkingSession.Thoughts sc) + 1)
                = len (ThinkingSession.Thoughts sc) + 1).
  { apply wrap_id. pose proof (len_nonneg (ThinkingSession.Thoughts sc)).
    unfold int_ok, min_int, max_int in *. lia. }
  unfold appendUpdate. munfold. mrun. rewrite decide_True by done.
  unfold ret. mrun. rewrite Hid.
  destruct (decide (ContinueThinkingArgs.EstimatedTotal args > 0)) as [Het|Het];
    destruct (ContinueThinkingArgs.NextNeeded args) as [[]|]; mrun;
    intros [= <- <-]; wsimpl; rewrite ?lookup_insert_eq;
    (eexists; split; [reflexivity|]);
    cbn [ThinkingSession.set_Thoughts ThinkingSession.set_CurrentThought
         ThinkingSession.set_EstimatedTotal ThinkingSession.set_Status
         ThinkingSession.set_LastActivity ThinkingSession.Thoughts
         ThinkingSession.EstimatedTotal ThinkingSession.Status];
    rewrite len_app; unfold len at 2 4; cbn [length Z.of_nat Pos.of_succ_nat];
    reflexivity.
Qed.

(** X19.  An append tells the caller what it has stored.  The text names
    as step number the number of thoughts the session now has, gives the
    estimate the session now carries (left out when that is not
    positive), and says the process is completed exactly when the status
    now stored is "completed". *)
Theorem append_reports fuel args w v :
  wf w →
  ContinueThinkingArgs.ReviseStep args = None →
  ContinueThinkingArgs.CreateBranch args = false →
  stored w (ContinueThinkingArgs.SessionID args) = Some v →
  len (ThinkingSession.Thoughts v) < max_int →
  ∃ w' v',
    ContinueThinking (S fuel) args w =
      Done (inr ("Session '" +:+ ContinueThinkingArgs.SessionID args +:+ "' - "
                 +:+ ("Step " +:+ pretty (len (ThinkingSession.Thoughts v'))
                      +:+ (if decide (ThinkingSession.EstimatedTotal v' > 0)
                           then " of ~" +:+ pretty (ThinkingSession.EstimatedTotal v')
                           else ""))
                 +:+ ":" +:+ nl +:+ ContinueThinkingArgs.Thought args
                 +:+ (if decide (ThinkingSession.Status v' = "completed")
                      then nl +:+ check_mark +:+ " Thinking process completed!"
                      else nl +:+ "Ready for next thought..."))) w'
    ∧ stored w' (ContinueThinkingArgs.SessionID args) = Some v'
    ∧ len (ThinkingSession.Thoughts v') = len (ThinkingSession.Thoughts v) + 1.
Proof.
  intros Hwf Hrev Hbr Hv Hlen.
  destruct (ContinueThinking_append fuel args w v Hwf Hrev Hbr Hv Hlen)
    as (text & w' & Hrun & _ & _ & _ & Hst).
  set (sid := ContinueThinkingArgs.SessionID args) in *.
  match type of Hst with _ = Some ?r => remember r as v' eqn:Hv' end.
  assert (Hlen' : len (ThinkingSession.Thoughts v') = len (ThinkingSession.Thoughts v) + 1).
  { rewrite Hv'. cbn [ThinkingSession.Thoughts]. rewrite len_app. reflexivity. }
  clear Hv'. exists w', v'. split; [|done]. rewrite Hrun. do 2 f_equal.
  destruct (stored_inv _ _ _ Hv) as (p & s & ts & Hp & Hs & Hts & ->).
  destruct (casLoad_wf _ _ _ Hwf Hp)
    as (s' & ts' & c & qs & w1 & Hs' & Hts' & Hload & Hc & Hne & Hobjs & Hsess
        & _ & _ & _ & _ & Hqs & _).
  assert (s' = s) as -> by congruence. assert (ts' = ts) as -> by congruence.
  assert (Hc1 : sessionObjs w1 !! c = Some (ThinkingSession.set_Thoughts qs s)).
  { rewrite Hobjs. apply lookup_insert_eq. }
  assert (Hp1 : sessionObjs w1 !! p = Some s).
  { rewrite Hobjs. by rewrite lookup_insert_ne. }
  assert (Hlenq : len qs = len ts).
  { unfold len. by rewrite <- (loadThoughts_length _ _ _ Hqs). }
  unfold ContinueThinking in Hrun. rewrite Hrev, Hbr in Hrun. fold sid in Hrun.
  apply bind_inv in Hrun as (r0 & w0 & Hcas & Hret).
  rewrite (CompareAndSwap_round fuel sid (appendUpdate args) w c w1 p s _
             (appendUpdate_local args) Hload ltac:(by rewrite Hsess) Hp1 Hc1 Hne) in Hcas.
  destruct (appendUpdate args c w1) as [r w2| |] eqn:Hf; [|done|done].
  destruct (appendUpdate_text args c w1 _ r w2 Hc1) as (sc' & Hsc' & ->); [|exact Hf|].
  { cbn [ThinkingSession.set_Thoughts ThinkingSession.Thoughts] in *. lia. }
  rewrite Hsc' in Hcas. injection Hcas as <- <-.
  unfold ret in Hret. injection Hret as <- <-.
  destruct (stored_inv _ _ _ Hst) as (p' & s2 & ts2 & Hp' & Hs2 & Hts2 & ->).
  wsimpl in Hp'. rewrite lookup_insert_eq in Hp'. injection Hp' as <-.
  wsimpl in Hs2. rewrite lookup_insert_eq in Hs2. injection Hs2 as <-.
  cbn [ThinkingSession.set_Thoughts ThinkingSession.set_Version ThinkingSession.Thoughts
       ThinkingSession.EstimatedTotal ThinkingSession.Status] in *.
  assert (len ts2 = len (ThinkingSession.Thoughts sc')) as ->.
  { unfold len. by rewrite (loadThoughts_length _ _ _ Hts2). }
  reflexivity.
Qed.

Lemma append_reports_witness :
  ∃ w',
    ContinueThinking 1 (think "trip" "book flight" (Some false)) w_one
    = Done (inr ("Session 'trip' - Step 2 of ~3:" +:+ nl +:+ "book flight" +:+ nl
                 +:+ check_mark +:+ " Thinking process completed!")) w'
    ∧ ThinkingSession.Status <$> stored w' "trip" = Some "completed".
Proof.
  assert (Hv : ∃ v, stored w_one "trip" = Some v ∧ len (ThinkingSession.Thoughts v) = 1).
  { vm_compute. eexists. split; reflexivity. }
  destruct Hv as (v & Hv & Hl).
  destruct (append_reports 0 (think "trip" "book flight" (Some false)) w_one v
              (proj1 (reachable_inv _ reachable_w_one)) eq_refl eq_refl Hv
              ltac:(rewrite Hl; reflexivity)) as (w' & v' & Hrun & Hst & Hlen).
  assert (H : ∃ w1 v1,
            ContinueThinking 1 (think "trip" "book flight" (Some false)) w_one
            = Done (inr ("Session 'trip' - Step 2 of ~3:" +:+ nl +:+ "book flight" +:+ nl
                         +:+ check_mark +:+ " Thinking process completed!")) w1
            ∧ stored w1 "trip" = Some v1 ∧ ThinkingSession.Status v1 = "completed").
  { vm_compute. eexists _, _. split; [reflexivity|]. split; reflexivity. }
  destruct H as (w1 & v1 & Hrun1 & Hst1 & Hs1).
  rewrite Hrun1 in Hrun. injection Hrun as _ ->.
  exists w'. split; [exact Hrun1|].
  rewrite Hst1. cbn [fmap option_fmap option_map]. f_equal. exact Hs1.
Defined.

(** X20.  A branch tells the caller the id of the session it has created.
    The id named in the text is the one under which the store now holds
    the branch session, the one that session carries, and the last entry
    of the branch list of the session branched from. *)
Theorem branch_reports fuel args w v :
  wf w →
  ContinueThinkingArgs.ReviseStep args = None →
  ContinueThinkingArgs.CreateBranch args = true →
  stored w (ContinueThinkingArgs.SessionID args) = Some v →
  len (ThinkingSession.Branches v) < max_int →
  ∃ w' branchID vb v',
    ContinueThinking (S fuel) args w =
      Done (inr ("Created branch '" +:+ branchID +:+ "' from session '"
                 +:+ ContinueThinkingArgs.SessionID args
                 +:+ "'. You can now continue thinking in either session.")) w'
    ∧ stored w' branchID = Some vb
    ∧ ThinkingSession.ID vb = branchID
    ∧ stored w' (ContinueThinkingArgs.SessionID args) = Some v'
    ∧ last (ThinkingSession.Branches v') = Some branchID
    ∧ branchID = ContinueThinkingArgs.SessionID args +:+ "_branch_"
                   +:+ pretty (len (ThinkingSession.Branches v) + 1).
Proof.
  intros Hwf Hrev Hbr Hv Hlen.
  destruct (ContinueThinking_branch fuel args w v Hwf Hrev Hbr Hv Hlen)
    as (text & w' & pc & pb & oc & ob & Hrun & _ & _ & _ & Hst & Hstb & _).
  set (sid := ContinueThinkingArgs.SessionID args) in *.
  set (bid := sid +:+ "_branch_" +:+ pretty (len (ThinkingSession.Branches v) + 1)) in *.
  eexists w', bid, _, _. split; [|split; [exact Hstb|]].
  2:{ split; [reflexivity|]. split; [exact Hst|]. split; [|done].
      cbn [ThinkingSession.set_Version ThinkingSession.set_LastActivity
           ThinkingSession.set_Branches ThinkingSession.Branches].
      by rewrite last_snoc. }
  rewrite Hrun. do 2 f_equal.
  destruct (stored_inv _ _ _ Hv) as (p & s & ts & Hp & Hs & Hts & ->).
  destruct (casLoad_wf _ _ _ Hwf Hp)
    as (s' & ts' & c & qs & w1 & Hs' & Hts' & Hload & Hc & Hne & Hobjs & Hsess & _).
  assert (s' = s) as -> by congruence.
  assert (Hc1 : sessionObjs w1 !! c = Some (ThinkingSession.set_Thoughts qs s)).
  { rewrite Hobjs. apply lookup_insert_eq. }
  assert (Hp1 : sessionObjs w1 !! p = Some s).
  { rewrite Hobjs. by rewrite lookup_insert_ne. }
  unfold ContinueThinking in Hrun. rewrite Hrev, Hbr in Hrun. fold sid in Hrun.
  apply bind_inv in Hrun as (r0 & w0 & Hcas & Hret).
  rewrite (CompareAndSwap_round fuel sid (branchUpdate args) w c w1 p s _
             (branchUpdate_local args) Hload ltac:(by rewrite Hsess) Hp1 Hc1 Hne) in Hcas.
  rewrite (branchUpdate_run args c w1 _ Hc1 Hlen) in Hcas. cbv zeta in Hcas.
  destruct (deepCopyThoughts _ _) as [thoughtsCopy w2| |]; [|done|done].
  destruct (sessionObjs _ !! c) as [su|]; [|done].
  injection Hcas as <- <-.
  apply bind_inv in Hret as ([] & w3 & _ & Hret). unfold ret in Hret.
  by injection Hret as <- <-.
Qed.

Lemma branch_reports_witness :
  ∃ w' vb,
    ContinueThinking 1 (branch "trip") w_two
    = Done (inr ("Created branch 'trip_branch_1' from session 'trip'. "
                 +:+ "You can now continue thinking in either session.")) w'
    ∧ stored w' "trip_branch_1" = Some vb
    ∧ ThinkingSession.ID vb = "trip_branch_1".
Proof.
  assert (Hv : ∃ v, stored w_two "trip" = Some v ∧ len (ThinkingSession.Branches v) = 0).
  { vm_compute. eexists. split; reflexivity. }
  destruct Hv as (v & Hv & Hl).
  destruct (branch_reports 0 (branch "trip") w_two v wf_w_two eq_refl eq_refl Hv
              ltac:(rewrite Hl; reflexivity))
    as (w' & branchID & vb & v' & Hrun & Hstb & Hid & _ & _ & Hb).
  rewrite Hl in Hb.
  assert (Hb' : branchID = "trip_branch_1") by (rewrite Hb; vm_compute; reflexivity).
  clear Hb. subst branchID. rewrite Hb' in Hrun, Hstb.
  exists w', vb. split; [rewrite Hrun; reflexivity|]. split; [exact Hstb|exact Hb'].
Defined.

(** ** The branch list under concurrent calls *)

(** The reader-locked region copies the branch list. *)
Lemma casLoad_branches w sid p s r w1 :
  sessions w !! sid = Some p →
  sessionObjs w !! p = Some s →
  casLoad sid w = Done r w1 →
  ∃ c sc,
    r = inr (c, ThinkingSession.Version s)
    ∧ sessionObjs w !! c = None
    ∧ sessionObjs w1 = <[c := sc]> (sessionObjs w)
    ∧ sessions w1 = sessions w
    ∧ ThinkingSession.Branches sc = ThinkingSession.Branches s.
Proof.
  intros Hp Hs Hrun. unfold casLoad in Hrun. rewrite Hp in Hrun.
  apply bind_inv in Hrun as (c & wa & Hclone & Hrun).
  apply bind_inv in Hrun as (cur & wb & Hread & Hret).
  injection Hret as <- <-.
  unfold clone in Hclone.
  apply bind_inv in Hclone as (s' & w' & Hread' & Hclone).
  unfold readSession in Hread'. rewrite Hs in Hread'. injection Hread' as <- <-.
  apply bind_inv in Hclone as (qs & wc & Hcopy & Hnew).
  destruct (deepCopyThoughts_grows _ _ _ _ Hcopy) as [Hwc _].
  unfold newSession in Hnew. injection Hnew as <- <-.
  rewrite Hwc in Hread |- *. wsimpl. wsimpl in Hread.
  assert (Hc : sessionObjs w !! fresh (dom (sessionObjs w)) = None) by apply fresh_session_None.
  unfold readSession in Hread. wsimpl in Hread.
  rewrite lookup_insert_ne in Hread by congruence. rewrite Hs in Hread.
  injection Hread as <- <-. wsimpl.
  eexists _, _. split; [done|]. split; [exact Hc|]. split; [done|]. split; [done|]. done.
Qed.

(** What the closure of a call does to the branch list of its copy, and
    the branch session it builds. *)
Lemma updateOf_branches args c sc w u x w' :
  sessionObjs w !! c = Some sc →
  updateOf args c w = Done (inr (u, x)) w' →
  ∃ sc',
    sessionObjs w' !! u = Some sc'
    ∧ match x with
      | CapBranch bid bs =>
          ThinkingSession.Branches sc' = ThinkingSession.Branches sc ++ [bid]
          ∧ bid = ContinueThinkingArgs.SessionID args +:+ "_branch_"
                    +:+ pretty (len (ThinkingSession.Branches sc) + 1)
          ∧ ∃ bo, sessionObjs w' !! bs = Some bo ∧ ThinkingSession.ID bo = bid
      | _ => ThinkingSession.Branches sc' = ThinkingSession.Branches sc
      end.
Proof.
  intros Hc Hrun. unfold updateOf in Hrun.
  destruct (ContinueThinkingArgs.ReviseStep args) as [step|].
  - apply bind_inv in Hrun as (r0 & w0 & Hf & Hret).
    destruct r0 as [e|[u0 []]]; [done|]. injection Hret as <- <- <-.
    revert Hf. unfold reviseUpdate.
    erewrite bind_Done; [|unfold readSession; by rewrite Hc].
    destruct (decide _) as [_|_]; [done|].
    destruct (ThinkingSession.Thoughts sc !! _) as [t|]; [|done].
    munfold. destruct (thoughtObjs w !! t) as [y|]; [|done].
    mrun. intros [= <- <-]. wsimpl. rewrite lookup_insert_eq. eexists. split; [done|]. done.
  - destruct (ContinueThinkingArgs.CreateBranch args).
    + apply bind_inv in Hrun as (r0 & w0 & Hf & Hret).
      destruct (decide (len (ThinkingSession.Branches sc) < max_int)) as [Hlen|Hlen];
        [|by rewrite (branchUpdate_panic args c w sc Hc Hlen) in Hf].
      rewrite (branchUpdate_run args c w sc Hc Hlen) in Hf. cbv zeta in Hf.
      destruct (deepCopyThoughts _ _) as [qs w2| |] eqn:Hcopy; [|done|done].
      destruct (deepCopyThoughts_grows _ _ _ _ Hcopy) as [Hw2 _].
      injection Hf as <- <-. injection Hret as <- <- <-.
      rewrite Hw2. wsimpl.
      match goal with |- context [fresh ?D] => set (b := fresh D) end.
      assert (Hb : b ∉ dom (<[c:=ThinkingSession.set_LastActivity (timeline w (ticks w))
                  (ThinkingSession.set_Branches
                     (ThinkingSession.Branches sc ++
                        [ContinueThinkingArgs.SessionID args +:+ "_branch_"
                           +:+ pretty (len (ThinkingSession.Branches sc) + 1)]) sc)]>
                  (sessionObjs w))) by apply is_fresh.
      apply not_elem_of_dom in Hb. apply lookup_insert_None in Hb as [Hb Hcb].
      eexists. split; [rewrite lookup_insert_ne by done; apply lookup_insert_eq|].
      split; [done|]. split; [done|]. eexists. split; [apply lookup_insert_eq|done].
    + apply bind_inv in Hrun as (r0 & w0 & Hf & Hret).
      destruct (decide (len (ThinkingSession.Thoughts sc) < max_int)) as [Hlen|Hlen];
        [|by rewrite (appendUpdate_panic args c w sc Hc Hlen) in Hf].
      destruct (appendUpdate_run args c w sc Hc Hlen) as (progress & statusMsg & Heq).
      rewrite Heq in Hf. injection Hf as <- <-. injection Hret as <- <- <-. wsimpl.
      rewrite lookup_insert_eq. eexists. split; [done|]. done.
Qed.

Lemma branch_work_ok_frame sid w w' s st :
  (∀ q, q ∈ private st → sessionObjs w' !! q = sessionObjs w !! q) →
  branch_work_ok sid w s st → branch_work_ok sid w' s st.
Proof.
  intros Hkeep Hok. destruct st as [|c v|u v x|v bid bs|err|text v]; try done; cbn in *.
  - intros Hv. destruct (Hok Hv) as (sc & Hsc & Hb). exists sc. split; [|done].
    rewrite Hkeep; [done|by left].
  - destruct Hok as [Hu Hbs]. split.
    + intros Hv. destruct (Hu Hv) as (su & Hsu & Hb). exists su. split; [|done].
      rewrite Hkeep; [done|]. destruct x; by left.
    + destruct x as [|bid bs|]; [done| |done].
      destruct Hbs as (bo & Hbo & Hid). exists bo. split; [|done].
      rewrite Hkeep; [done|]. right. by left.
  - destruct Hok as (bo & Hbo & Hid). exists bo. split; [|done].
    rewrite Hkeep; [done|by left].
Qed.

(** A step that leaves the entry of the session and its object alone. *)
Lemma branches_inv_same sid v0 n w calls0 i args a y w' p s :
  concurrent_inv sid v0 n (mkConfig w calls0) →
  branches_inv sid (mkConfig w calls0) →
  calls0 !! i = Some (args, a) →
  sessions w !! sid = Some p →
  sessionObjs w !! p = Some s →
  sessions w' !! sid = Some p →
  (∀ k q, sessions w !! k = Some q →
          sessions w' !! k = Some q ∨ ∃ v bs, a = AtSetSession v k bs) →
  (∀ k q, sessions w' !! k = Some q →
          sessions w !! k = Some q ∨ ∃ v, a = AtSetSession v k q) →
  (∀ v b bs, a = AtSetSession v b bs → registered w' b ∧ private y = []) →
  (∀ v b bs, y ≠ AtSetSession v b bs) →
  (∀ q, q ∉ private a → is_Some (sessionObjs w !! q) →
        sessionObjs w' !! q = sessionObjs w !! q) →
  (∀ q, q ∈ private y → q ∈ private a ∨ sessionObjs w !! q = None) →
  branch_work_ok sid w' s y →
  branches_inv sid (mkConfig w' (<[i := (args, y)]> calls0)).
Proof.
  intros (p1 & s1 & Hp1 & Hs1 & _ & _ & _ & _ & _ & Hpriv & _ & Hdis & _)
         (p0 & s0 & Hp0 & Hs0 & HJ1 & HJ5 & HJc & HK)
         Hi Hp Hs Hp' Hkeys Hnewkeys Hreg Hy Hkeep Hfresh Hnew.
  cbn [world calls] in *.
  assert (p0 = p) as -> by congruence. assert (s0 = s) as -> by congruence.
  assert (p1 = p) as -> by congruence.
  assert (Hold : ∀ k q, sessions w !! k = Some q →
                        sessionObjs w' !! q = sessionObjs w !! q).
  { intros k q Hq. destruct (HK _ _ Hq) as [Hal Hnp].
    apply Hkeep; [|done]. exact (Hnp _ _ Hi). }
  exists p, s. cbn [world calls].
  split; [done|]. split; [by rewrite (Hold _ _ Hp)|].
  split.
  { eapply Forall_impl; [exact HJ1|]. cbn.
    intros b [(q & bo & Hq & Hbo & Hid)|(j & args' & v & bs & Hj)].
    - left. destruct (Hkeys _ _ Hq) as [Hq'|(v & bs & ->)]; [|by eapply Hreg].
      exists q, bo. split; [done|]. split; [|done]. by rewrite (Hold _ _ Hq).
    - destruct (decide (j = i)) as [->|Hne].
      + left. rewrite Hi in Hj. injection Hj as _ ->. by eapply Hreg.
      + right. exists j, args', v, bs. by rewrite list_lookup_insert_ne. }
  split; [done|]. split.
  { intros j args' st Hj.
    apply list_lookup_insert_Some in Hj as [(<- & Heq & _)|[Hne Hj]].
    - by injection Heq as <- <-.
    - eapply branch_work_ok_frame; [|by eapply HJc].
      intros q Hq. apply Hkeep.
      + intros Hqa. apply Hne. exact (Hdis _ _ _ _ q Hi Hj Hqa Hq).
      + by destruct (Hpriv _ _ _ Hj Hq). }
  intros k q Hq. destruct (Hnewkeys _ _ Hq) as [Hq0|[v ->]].
  - destruct (HK _ _ Hq0) as [Hal Hnp]. split; [by rewrite (Hold _ _ Hq0)|].
    intros j c Hj. apply list_lookup_insert_Some in Hj as [(<- & <- & _)|[Hne Hj]].
    + cbn. intros Hin. destruct (Hfresh _ Hin) as [Hin'|Hnone].
      * exact (Hnp _ _ Hi Hin').
      * rewrite Hnone in Hal. by destruct Hal.
    + by eapply Hnp.
  - destruct (Hreg _ _ _ eq_refl) as [(q' & bo & Hq' & Hbo & _) Hnil].
    assert (q' = q) as -> by congruence. split; [eauto|].
    intros j c Hj. apply list_lookup_insert_Some in Hj as [(<- & <- & _)|[Hne Hj]].
    + cbn. rewrite Hnil. apply not_elem_of_nil.
    + intros Hin. apply Hne. eapply (Hdis _ _ _ _ q Hi Hj); [|done]. cbn. by left.
Qed.

Lemma schedule1_branches sid v0 n i cfg cfg' :
  min_int ≤ v0 → v0 + Z.of_nat n ≤ max_int →
  concurrent_inv sid v0 n cfg →
  inflight_ok sid v0 cfg →
  branches_inv sid cfg →
  schedule1 i cfg = Some cfg' →
  branches_inv sid cfg'.
Proof.
  intros Hmin Hmax Hinv Hfl Hbr Hstep.
  pose proof (schedule1_inv _ _ _ _ _ _ Hmin Hmax Hinv Hstep) as Hinv'.
  pose proof (concurrent_inv_version _ _ _ _ Hinv) as HV.
  pose proof (concurrent_inv_version _ _ _ _ Hinv') as HV'.
  destruct cfg as [w calls0].
  unfold schedule1 in Hstep. cbn [world calls] in *.
  destruct (calls0 !! i) as [[args a]|] eqn:Hi; [|by injection Hstep as <-].
  destruct (step args a w) as [y w'| |] eqn:Hrun; [|done|done].
  injection Hstep as <-. cbn [world calls] in *.
  pose proof Hinv as (p & s & Hp & Hs & Hver & Hnd & Hlt & Hlen & Hsid & Hpriv & Hpnd
                      & Hdis & Hpend).
  pose proof Hbr as (p0 & s0 & Hp0 & Hs0 & HJ1 & HJ5 & HJc & HK).
  cbn [world calls] in *.
  assert (p0 = p) as -> by congruence. assert (s0 = s) as -> by congruence.
  assert (Hargs : ContinueThinkingArgs.SessionID args = sid).
  { rewrite Forall_forall in Hsid. apply (Hsid (args, a)). by eapply list_elem_of_lookup_2. }
  pose proof (HJc _ _ _ Hi) as Hown.
  destruct a as [|c v|u v x|v bid b|err|text v]; cbn [step] in Hrun.
  - (* the reader-locked region *)
    apply bind_inv in Hrun as (r & w1 & Hload & Hret). rewrite Hargs in Hload.
    destruct (casLoad_branches _ _ _ _ _ _ Hp Hs Hload)
      as (c & sc & -> & Hc & Hobjs & Hsess & Hb).
    injection Hret as <- <-.
    eapply (branches_inv_same _ _ _ w); [exact Hinv|exact Hbr|exact Hi|exact Hp|exact Hs
                                         | | | | | | | |].
    + by rewrite Hsess.
    + intros k q. rewrite Hsess. by left.
    + intros k q. rewrite Hsess. by left.
    + intros ? ? ? [=].
    + intros ? ? ? [=].
    + intros q _ [z Hz]. rewrite Hobjs. apply lookup_insert_ne. congruence.
    + cbn. intros q Hq. apply list_elem_of_singleton in Hq as ->. by right.
    + cbn. intros _. exists sc. split; [|done]. rewrite Hobjs. apply lookup_insert_eq.
  - (* the update closure *)
    apply bind_inv in Hrun as (r & w1 & Hupd & Hret).
    destruct (Hpriv _ _ c Hi ltac:(cbn; by left)) as [Hcp [sc Hc]].
    destruct (updateOf_spec _ _ _ _ _ _ Hc Hupd) as (Hsess & Hkeep & Hc1 & Hres).
    assert (Hout : ∀ q, q ∉ private (AtUpdate c v) → is_Some (sessionObjs w !! q) →
                        sessionObjs w1 !! q = sessionObjs w !! q).
    { intros q Hq Hq'. apply Hkeep; [|done]. cbn in Hq. intros ->. apply Hq. by left. }
    destruct r as [err|[u x]]; injection Hret as <- <-.
    + eapply (branches_inv_same _ _ _ w); [exact Hinv|exact Hbr|exact Hi|exact Hp|exact Hs
                                           | | | | | |exact Hout| |done].
      * by rewrite Hsess.
      * intros k q. rewrite Hsess. by left.
      * intros k q. rewrite Hsess. by left.
      * intros ? ? ? [=].
      * intros ? ? ? [=].
      * cbn. intros q Hq. by apply not_elem_of_nil in Hq.
    + destruct (updateOf_branches _ _ _ _ _ _ _ Hc Hupd) as (sc' & Hsc' & Hx).
      rewrite Hargs in Hx.
      destruct (Hres _ _ eq_refl) as [-> Hcap].
      eapply (branches_inv_same _ _ _ w); [exact Hinv|exact Hbr|exact Hi|exact Hp|exact Hs
                                           | | | | | |exact Hout| |].
      * by rewrite Hsess.
      * intros k q. rewrite Hsess. by left.
      * intros k q. rewrite Hsess. by left.
      * intros ? ? ? [=].
      * intros ? ? ? [=].
      * cbn. intros q Hq. destruct x as [|bid bs|]; cbn in Hq.
        -- left. exact Hq.
        -- apply elem_of_cons in Hq as [->|Hq]; [left; by left|].
           apply list_elem_of_singleton in Hq as ->. right.
           by destruct (Hcap _ _ eq_refl).
        -- left. exact Hq.
      * cbn. cbn in Hown. split.
        -- intros Hv. destruct (Hown Hv) as (sc0 & Hsc0 & Hb0).
           assert (sc0 = sc) as -> by congruence.
           exists sc'. split; [done|].
           destruct x as [|bid bs|]; [by rewrite Hx| |by rewrite Hx].
           destruct Hx as (Hx1 & Hx2 & _). rewrite Hx1, Hx2, Hb0. done.
        -- destruct x as [|bid bs|]; [done| |done]. by destruct Hx as (_ & _ & Hx3).
  - (* the writer-locked region *)
    apply bind_inv in Hrun as (c0 & w1 & Hcommit & Hret). rewrite Hargs in Hcommit.
    destruct (Hpriv _ _ u Hi ltac:(cbn; destruct x; by left)) as [Hup [su Hu]].
    unfold casCommit in Hcommit. rewrite Hp in Hcommit.
    apply bind_inv in Hcommit as (cur & w2 & Hread & Hcommit).
    unfold readSession in Hread. rewrite Hs in Hread. injection Hread as <- <-.
    destruct (decide (ThinkingSession.Version s ≠ v)) as [Hne|Heq].
    + unfold ret in Hcommit. injection Hcommit as <- <-.
      unfold ret in Hret. injection Hret as <- <-.
      eapply (branches_inv_same _ _ _ w); [exact Hinv|exact Hbr|exact Hi|exact Hp|exact Hs
                                           |done| | | | |done| |done].
      * intros k q. by left.
      * intros k q. by left.
      * intros ? ? ? [=].
      * intros ? ? ? [=].
      * cbn. intros q Hq. by apply not_elem_of_nil in Hq.
    + apply dec_stable in Heq.
      apply bind_inv in Hcommit as ([] & w3 & Hassign & Hcommit).
      unfold assignSession in Hassign. rewrite Hu in Hassign. injection Hassign as <-.
      apply bind_inv in Hcommit as ([] & w4 & Hins & Hcommit).
      injection Hins as <-. unfold ret in Hcommit. injection Hcommit as <- <-.
      unfold ret in Hret.
      assert (y = match x with
                  | CapBranch branchID branchSession => AtSetSession v branchID branchSession
                  | _ => Succeeded (response args x) v
                  end
              ∧ w' = upd_sessions <[sid := u]>
                (upd_sessionObjs <[u := ThinkingSession.set_Version (wrap (v + 1)) su]> w))
        as [-> ->].
      { destruct x; by injection Hret as <- <-. }
      clear Hret. cbn in Hown. destruct Hown as [Hown1 Hown2].
      destruct (Hown1 (eq_sym Heq)) as (su0 & Hsu0 & Hbx).
      assert (su0 = su) as -> by congruence.
      (* the version has grown *)
      assert (Hgrow : wrap (v + 1) ≠ v ∧ ∀ b, v0 ≤ b ≤ v → b ≠ wrap (v + 1)).
      { rewrite (storedVersion_intro _ _ _ _ Hp Hs) in HV. injection HV as HV.
        erewrite (storedVersion_intro _ sid u) in HV';
          [|wsimpl; apply lookup_insert_eq|wsimpl; apply lookup_insert_eq].
        cbn [ThinkingSession.set_Version ThinkingSession.Version] in HV'.
        injection HV' as HV'.
        assert (Hperm : committed
                  (mkConfig
                     (upd_sessions <[sid := u]>
                        (upd_sessionObjs
                           <[u := ThinkingSession.set_Version (wrap (v + 1)) su]> w))
                     (<[i := (args, match x with
                                    | CapBranch branchID branchSession =>
                                        AtSetSession v branchID branchSession
                                    | _ => Succeeded (response args x) v
                                    end)]> calls0))
                ≡ₚ v :: committed (mkConfig w calls0)).
        { unfold committed. cbn [calls]. eapply omap_insert_new; [exact Hi|done|].
          by destruct x. }
        apply Permutation_length in Hperm. cbn [length] in Hperm.
        unfold len in *. rewrite Hperm in HV'. rewrite Hver in Heq.
        split; [lia|]. intros b' Hb'. lia. }
      destruct Hgrow as [_ Hgrow].
      assert (Hother : ∀ j c q, i ≠ j → calls0 !! j = Some c → q ∈ private c.2 → u ≠ q).
      { intros j c q Hnej Hj Hq <-. apply Hnej. symmetry.
        eapply (Hdis _ _ _ _ _ Hj Hi); [exact Hq|]. cbn. destruct x; by left. }
      assert (Hmapped : ∀ k q, sessions w !! k = Some q → u ≠ q).
      { intros k q Hq <-. destruct (HK _ _ Hq) as [_ Hnp]. apply (Hnp _ _ Hi).
        cbn. destruct x; by left. }
      exists u, (ThinkingSession.set_Version (wrap (v + 1)) su). cbn [world calls]. wsimpl.
      split; [apply lookup_insert_eq|]. split; [apply lookup_insert_eq|].
      cbn [ThinkingSession.set_Version ThinkingSession.Branches ThinkingSession.Version].
      assert (Hold : Forall
                (λ b, registered
                        (upd_sessions <[sid := u]>
                           (upd_sessionObjs
                              <[u := ThinkingSession.set_Version (wrap (v + 1)) su]> w)) b
                      ∨ ∃ j args' v' bs,
                          <[i := (args, match x with
                                        | CapBranch branchID branchSession =>
                                            AtSetSession v branchID branchSession
                                        | _ => Succeeded (response args x) v
                                        end)]> calls0 !! j
                          = Some (args', AtSetSession v' b bs))
                (ThinkingSession.Branches s)).
      { apply Forall_lookup. intros k b Hk. rewrite Forall_lookup in HJ1.
        destruct (HJ1 _ _ Hk) as [(q & bo & Hq & Hbo & Hid)|(j & args' & v' & bs & Hj)].
        - left. exists q, bo. wsimpl.
          split; [|split; [|done]].
          + rewrite lookup_insert_ne; [done|]. rewrite (HJ5 _ _ Hk).
            intros E. symmetry in E. by apply branch_id_ne in E.
          + rewrite lookup_insert_ne; [done|]. by eapply Hmapped.
        - right. exists j, args', v', bs. rewrite list_lookup_insert_ne; [done|].
          intros <-. rewrite Hi in Hj. done. }
      split; [|split; [|split]].
      * destruct x as [|bid bs|]; [by rewrite Hbx| |by rewrite Hbx].
        destruct Hbx as [-> _]. apply Forall_app. split; [done|].
        apply Forall_singleton. right. exists i, args, v, bs.
        apply list_lookup_insert_eq. by eapply lookup_lt_Some.
      * destruct x as [|bid bs|]; [by rewrite Hbx| |by rewrite Hbx].
        destruct Hbx as [-> Hbid]. intros k b Hk.
        apply lookup_app_Some in Hk as [Hk|[Hge Hk]]; [by apply HJ5|].
        apply list_lookup_singleton_Some in Hk as [Hk <-]. rewrite Hbid.
        unfold len. do 3 f_equal. lia.
      * intros j args' st Hj.
        apply list_lookup_insert_Some in Hj as [(<- & Hst & _)|[Hnej Hj]].
        -- injection Hst as <- <-. destruct x as [|bid bs|]; [done| |done]. cbn.
           destruct Hown2 as (bo & Hbo & Hid). exists bo. split; [|done].
           rewrite lookup_insert_ne; [done|].
           pose proof (Hpnd _ _ Hi) as Hndp. cbn in Hndp.
           apply NoDup_cons in Hndp as [Hnin _]. intros ->. apply Hnin. by left.
        -- pose proof (HJc _ _ _ Hj) as Hst. pose proof (Hfl _ _ _ Hj) as Hfj.
           cbn [world] in Hfj. rewrite (storedVersion_intro _ _ _ _ Hp Hs), Heq in Hfj.
           destruct st as [|cj vj|uj vj xj|vj bj bsj|?|? ?]; try done; cbn in Hst |- *.
           ++ intros Hvj. exfalso. destruct Hfj as (V & [= <-] & Hb).
              by apply (Hgrow vj).
           ++ destruct Hst as [_ Hst2]. split.
              ** intros Hvj. exfalso. destruct Hfj as (V & [= <-] & Hb).
                 by apply (Hgrow vj).
              ** destruct xj as [|bj bsj|]; [done| |done].
                 destruct Hst2 as (bo & Hbo & Hid). exists bo. split; [|done].
                 rewrite lookup_insert_ne; [done|].
                 apply (Hother j _ bsj Hnej Hj). cbn. right. by left.
           ++ destruct Hst as (bo & Hbo & Hid). exists bo. split; [|done].
              rewrite lookup_insert_ne; [done|].
              apply (Hother j _ bsj Hnej Hj). cbn. by left.
      * intros k q Hq. apply lookup_insert_Some in Hq as [[<- <-]|[Hk Hq]].
        -- split; [rewrite lookup_insert_eq; eauto|].
           intros j c Hj.
           apply list_lookup_insert_Some in Hj as [(<- & <- & _)|[Hnej Hj]].
           ++ cbn. destruct x as [|bid bs|]; cbn; [apply not_elem_of_nil| |apply not_elem_of_nil].
              pose proof (Hpnd _ _ Hi) as Hndp. cbn in Hndp.
              apply NoDup_cons in Hndp as [Hnin _]. intros Hin.
              apply list_elem_of_singleton in Hin as ->. apply Hnin. by left.
           ++ intros Hin. by apply (Hother j c u Hnej Hj Hin).
        -- destruct (HK _ _ Hq) as [Hal Hnp]. split.
           ++ apply lookup_insert_is_Some'. by right.
           ++ intros j c Hj.
              apply list_lookup_insert_Some in Hj as [(<- & <- & _)|[Hnej Hj]];
                [|by eapply Hnp].
              intros Hin. apply (Hnp _ _ Hi). cbn in Hin |- *.
              destruct x as [|bid bs|]; cbn in Hin;
                [by apply not_elem_of_nil in Hin| |by apply not_elem_of_nil in Hin].
              by right.
  - (* registering the branch *)
    apply bind_inv in Hrun as ([] & w1 & Hset & Hret). injection Hret as <- <-.
    destruct (Hpend _ _ b Hi eq_refl) as (bo & Hbo & Hid).
    rewrite (SetSession_run _ _ _ Hbo) in Hset. injection Hset as <-.
    cbn in Hown. destruct Hown as (bo' & Hbo' & Hid').
    assert (bo' = bo) as -> by congruence.
    assert (Hbid : bid ≠ sid) by congruence.
    eapply (branches_inv_same _ _ _ w); [exact Hinv|exact Hbr|exact Hi|exact Hp|exact Hs
                                         | | | | | |done| |done].
    + wsimpl. by rewrite lookup_insert_ne.
    + intros k q Hq. wsimpl. rewrite Hid'.
      destruct (decide (bid = k)) as [<-|Hk]; [right; eauto|].
      left. by rewrite lookup_insert_ne.
    + intros k q Hq. wsimpl in Hq. rewrite Hid' in Hq.
      apply lookup_insert_Some in Hq as [[<- <-]|[Hk Hq]]; [right; eauto|by left].
    + intros v' b' bs' [= _ <- _]. split; [|done]. exists b, bo. wsimpl. rewrite Hid'.
      split; [apply lookup_insert_eq|done].
    + intros ? ? ? [=].
    + cbn. intros q Hq. by apply not_elem_of_nil in Hq.
  - injection Hrun as <- <-. by rewrite list_insert_id.
  - injection Hrun as <- <-. by rewrite list_insert_id.
Qed.

Lemma schedule_branches sid v0 n order : ∀ cfg cfg',
  min_int ≤ v0 → v0 + Z.of_nat n ≤ max_int →
  concurrent_inv sid v0 n cfg →
  inflight_ok sid v0 cfg →
  branches_inv sid cfg →
  schedule order cfg = Some cfg' →
  branches_inv sid cfg'.
Proof.
  induction order as [|i order IH]; intros cfg cfg' Hmin Hmax Hinv Hfl Hbr Hrun.
  - by injection Hrun as <-.
  - cbn in Hrun. destruct (schedule1 i cfg) as [cfg1|] eqn:H1; [|done].
    eapply (IH cfg1); [done|done| | | |exact Hrun].
    + by eapply schedule1_inv.
    + by eapply schedule1_inflight.
    + by eapply schedule1_branches.
Qed.

(** A stored session whose id is its key is registered. *)
Lemma stored_registered w b vb :
  stored w b = Some vb → ThinkingSession.ID vb = b → registered w b.
Proof.
  intros Hvb Hid. destruct (stored_inv _ _ _ Hvb) as (q & bo & ts & Hq & Hbo & _ & ->).
  exists q, bo. split; [done|]. split; [done|]. exact Hid.
Qed.

Lemma spawn_branches sid w argss :
  reachable w → is_Some (stored w sid) → branches_inv sid (spawn w argss).
Proof.
  intros Hw [v Hv].
  destruct (reachable_tidy _ Hw _ _ Hv) as [(_ & _ & _ & Hnum) Hex].
  destruct (reachable_inv _ Hw) as [Hwf Hok].
  destruct (stored_inv _ _ _ Hv) as (p & s & ts & Hp & Hs & _ & ->).
  assert (Hst : ∀ i c, calls (spawn w argss) !! i = Some c → c.2 = AtLoad).
  { intros i c Hc. unfold spawn in Hc. cbn in Hc.
    apply list_lookup_fmap_Some in Hc as (a & -> & _). done. }
  exists p, s. cbn [world spawn]. split; [done|]. split; [done|]. split.
  { eapply Forall_impl; [exact Hex|]. cbn. intros b Hb. left.
    destruct Hb as [q Hq]. destruct (wf_stored _ _ _ Hwf Hq) as [vb Hvb].
    eapply stored_registered; [exact Hvb|]. by destruct (Hok _ _ Hvb). }
  split; [exact Hnum|]. split.
  { intros i args st Hi. pose proof (Hst _ _ Hi) as E. cbn in E. by subst st. }
  intros k q Hq. split.
  - destruct (wf_stored _ _ _ Hwf Hq) as [vk Hvk].
    destruct (stored_inv _ _ _ Hvk) as (q' & so & _ & Hq' & Hso & _).
    assert (q' = q) as -> by congruence. eauto.
  - intros i c Hi. rewrite (Hst _ _ Hi). apply not_elem_of_nil.
Qed.

(** X9.  The branches a stored session lists are named "<id>_branch_1",
    "<id>_branch_2", ... in order, so no id is listed twice.  Between calls
    that have run one after another, the store holds under each listed id a
    session that carries that id.  While calls of [ContinueThinking] on the
    session run at the same time, their steps interleaved in any order, the
    numbering holds at every step, and each listed id is either registered
    in the store, with a session that carries it, or the branch of a call
    that has left [CompareAndSwap] and has not yet run [SetSession], which
    holds the branch session with that id; once every call has returned,
    every listed id is registered. *)
Theorem branches_numbered_and_stored w id v :
  reachable w → stored w id = Some v →
  ((∀ i b, ThinkingSession.Branches v !! i = Some b →
      b = id +:+ "_branch_" +:+ pretty (Z.of_nat i + 1)
      ∧ ∃ vb, stored w b = Some vb ∧ ThinkingSession.ID vb = b)
   ∧ NoDup (ThinkingSession.Branches v))
  ∧ ∀ argss order cfg,
      Forall (λ args, ContinueThinkingArgs.SessionID args = id) argss →
      min_int ≤ ThinkingSession.Version v →
      ThinkingSession.Version v + len argss ≤ max_int →
      schedule order (spawn w argss) = Some cfg →
      ∃ p' s',
        sessions (world cfg) !! id = Some p'
        ∧ sessionObjs (world cfg) !! p' = Some s'
        ∧ (∀ i b, ThinkingSession.Branches s' !! i = Some b →
             b = id +:+ "_branch_" +:+ pretty (Z.of_nat i + 1)
             ∧ (registered (world cfg) b
                ∨ ∃ j args oldVersion branchSession bo,
                    calls cfg !! j = Some (args, AtSetSession oldVersion b branchSession)
                    ∧ sessionObjs (world cfg) !! branchSession = Some bo
                    ∧ ThinkingSession.ID bo = b))
        ∧ NoDup (ThinkingSession.Branches s')
        ∧ (Forall (λ c, returned c.2) (calls cfg) →
           Forall (registered (world cfg)) (ThinkingSession.Branches s')).
Proof.
  intros Hw Hv.
  assert (Hdup : ∀ l : list string,
            (∀ i b, l !! i = Some b → b = id +:+ "_branch_" +:+ pretty (Z.of_nat i + 1)) →
            NoDup l).
  { intros l Hnum. apply NoDup_alt. intros i j b Hi Hj.
    pose proof (Hnum _ _ Hi) as Ei. pose proof (Hnum _ _ Hj) as Ej.
    rewrite Ei in Ej. apply branch_id_inj in Ej. lia. }
  destruct (reachable_tidy _ Hw _ _ Hv) as [(_ & _ & _ & Hbr) Hex].
  destruct (reachable_inv _ Hw) as [Hwf Hok]. split.
  { split; [|by apply Hdup].
    intros i b Hb. split; [by apply Hbr|].
    rewrite Forall_forall in Hex.
    destruct (Hex b (list_elem_of_lookup_2 _ _ _ Hb)) as [p Hp].
    destruct (wf_stored _ _ _ Hwf Hp) as [vb Hvb]. exists vb. split; [done|].
    by destruct (Hok _ _ Hvb). }
  intros argss order cfg Hsid Hmin Hmax Hrun.
  destruct (stored_inv _ _ _ Hv) as (p & s & ts & Hp & Hs & _ & ->).
  cbn [ThinkingSession.set_Thoughts ThinkingSession.Version] in Hmin, Hmax.
  assert (Hmax' : ThinkingSession.Version s + Z.of_nat (length argss) ≤ max_int)
    by exact Hmax.
  pose proof (spawn_inv id w argss p s Hp Hs Hsid) as Hinv0.
  pose proof (schedule_branches _ _ _ _ _ _ Hmin Hmax' Hinv0 (spawn_inflight _ _ _ _)
                (spawn_branches id w argss Hw (mk_is_Some _ _ Hv)) Hrun)
    as (p' & s' & Hp' & Hs' & HJ1 & HJ5 & HJc & _).
  exists p', s'. split; [done|]. split; [done|].
  rewrite Forall_lookup in HJ1. split; [|split; [by apply Hdup|]].
  - intros i b Hb. split; [by apply HJ5|].
    destruct (HJ1 _ _ Hb) as [Hreg|(j & args & oldVersion & bs & Hj)]; [by left|].
    right. pose proof (HJc _ _ _ Hj) as (bo & Hbo & Hid).
    by exists j, args, oldVersion, bs, bo.
  - intros Hret. apply Forall_lookup. intros i b Hb.
    destruct (HJ1 _ _ Hb) as [Hreg|(j & args & oldVersion & bs & Hj)]; [done|].
    rewrite Forall_lookup in Hret. by destruct (Hret _ _ Hj).
Qed.

Lemma branches_numbered_and_stored_witness :
  ∃ cfg,
    schedule [2; 2; 2]%nat (spawn w_two example_calls) = Some cfg
    ∧ sessions (world cfg) !! "trip_branch_1" = None
    ∧ ∃ j args oldVersion branchSession bo,
        calls cfg !! j
        = Some (args, AtSetSession oldVersion "trip_branch_1" branchSession)
        ∧ sessionObjs (world cfg) !! branchSession = Some bo
        ∧ ThinkingSession.ID bo = "trip_branch_1".
Proof.
  assert (H : ∃ v cfg p s,
            stored w_two "trip" = Some v
            ∧ ThinkingSession.Version v = 2
            ∧ schedule [2; 2; 2]%nat (spawn w_two example_calls) = Some cfg
            ∧ sessions (world cfg) !! "trip" = Some p
            ∧ sessionObjs (world cfg) !! p = Some s
            ∧ ThinkingSession.Branches s = ["trip_branch_1"]
            ∧ sessions (world cfg) !! "trip_branch_1" = None).
  { eexists _, _, _, _. split; [vm_compute; reflexivity|].
    split; [vm_compute; reflexivity|]. split; [vm_compute; reflexivity|].
    split; [vm_compute; reflexivity|]. split; [vm_compute; reflexivity|].
    split; vm_compute; reflexivity. }
  destruct H as (v & cfg & p & s & Hv & HV & Hrun & Hp & Hs & Hb & Hnone).
  destruct (branches_numbered_and_stored w_two "trip" v reachable_w_two Hv)
    as [_ Hconc].
  destruct (Hconc example_calls [2; 2; 2]%nat cfg
              ltac:(repeat constructor)
              ltac:(rewrite HV; vm_compute; discriminate)
              ltac:(rewrite HV; vm_compute; discriminate)
              Hrun) as (p' & s' & Hp' & Hs' & Hnum & _).
  rewrite Hp in Hp'. injection Hp' as <-. rewrite Hs in Hs'. injection Hs' as <-.
  assert (Hb0 : ThinkingSession.Branches s !! 0%nat = Some "trip_branch_1").
  { rewrite Hb. reflexivity. }
  destruct (Hnum 0%nat "trip_branch_1" Hb0) as [_ [Hreg|Hwork]].
  - destruct Hreg as (q & bo & Hq & _). rewrite Hnone in Hq. discriminate Hq.
  - exists cfg. split; [exact Hrun|]. split; [exact Hnone|exact Hwork].
Defined.
